(** * Salesforce schema tooling: parser, splitter and enricher

    A shallow embedding of the schema scripts:

    - [scripts/generate_sf_er_schema.py]         (module [Parser])
    - [salesforce/scripts/split_schema_by_object.py] (module [Splitter])
    - [scripts/split_schema_by_object.py]        (module [LegacySplitter])
    - [scripts/enrich_schema_with_picklists.py]  (module [Enricher])

    The scripts work on YAML / JSON documents held as Python dictionaries
    and lists.  Module [Py] gives those values, Python truthiness and the
    insertion-ordered dictionary operations the scripts rely on; module
    [Utf8] gives the code points of a text, module [Yaml] what
    [yaml.safe_load] reads back from what [yaml.dump] wrote, and module
    [Str] the string functions, [int] among them. *)

From Stdlib Require Import String Ascii List ZArith Bool Lia.
From Stdlib Require Import Permutation DecimalString.
Import ListNotations.
Open Scope string_scope.

Set Warnings "-register-all".

(* ================================================================== *)
(** * Python values *)
(* ================================================================== *)

Module Py.

(** YAML / JSON data as Python sees it.  Mapping keys are strings, as they
    are in every document the scripts read or write.  Floating-point
    scalars do not occur in the attributes the scripts inspect. *)
Inductive value : Type :=
| VNone
| VBool (b : bool)
| VInt (z : Z)
| VStr (s : string)
| VList (l : list value)
| VDict (d : list (string * value)).

Definition dict : Type := list (string * value).

(** [bool(v)] *)
Definition truthy (v : value) : bool :=
  match v with
  | VNone => false
  | VBool b => b
  | VInt z => negb (Z.eqb z 0)
  | VStr s => negb (String.eqb s "")
  | VList l => match l with [] => false | _ => true end
  | VDict d => match d with [] => false | _ => true end
  end.

(** [d.get(k)] *)
Fixpoint get (k : string) (d : dict) : option value :=
  match d with
  | [] => None
  | (k', v) :: d' => if String.eqb k k' then Some v else get k d'
  end.

(** [k in d] *)
Definition mem (k : string) (d : dict) : bool :=
  match get k d with Some _ => true | None => false end.

(** [d.get(k)] used as a condition: absent keys give [None], which is falsy. *)
Definition get_truthy (k : string) (d : dict) : bool :=
  match get k d with Some v => truthy v | None => false end.

(** [d[k] = v]: an existing key keeps its position, a new key goes last. *)
Fixpoint set (k : string) (v : value) (d : dict) : dict :=
  match d with
  | [] => [(k, v)]
  | (k', v') :: d' =>
      if String.eqb k k' then (k', v) :: d' else (k', v') :: set k v d'
  end.

(** [d.pop(k, None)] *)
Fixpoint pop (k : string) (d : dict) : dict :=
  match d with
  | [] => []
  | (k', v') :: d' =>
      if String.eqb k k' then pop k d' else (k', v') :: pop k d'
  end.

Definition keys (d : dict) : list string := map fst d.

(** Exceptions the modelled code can raise on ill-shaped data. *)
Inductive pyexn : Type := TypeError | KeyError | AttributeError.

Inductive result (A : Type) : Type :=
| Ok (a : A)
| Raise (e : pyexn).
Arguments Ok {A} a.
Arguments Raise {A} e.

Definition bind {A B : Type} (c : result A) (k : A -> result B) : result B :=
  match c with
  | Ok a => k a
  | Raise e => Raise e
  end.

(** [for x in v]: lists yield their items, strings their characters,
    dictionaries their keys; other values are not iterable. *)
Fixpoint chars (s : string) : list value :=
  match s with
  | EmptyString => []
  | String c s' => VStr (String c EmptyString) :: chars s'
  end.

Definition iter (v : value) : result (list value) :=
  match v with
  | VList l => Ok l
  | VStr s => Ok (chars s)
  | VDict d => Ok (map (fun kv => VStr (fst kv)) d)
  | VNone | VBool _ | VInt _ => Raise TypeError
  end.

(** [v.get]: only dictionaries have the method. *)
Definition as_dict (v : value) : result dict :=
  match v with
  | VDict d => Ok d
  | _ => Raise AttributeError
  end.

(** [d[k]] *)
Definition subscript (k : string) (d : dict) : result value :=
  match get k d with
  | Some v => Ok v
  | None => Raise KeyError
  end.

(** [d.get(k, default)] *)
Definition get_default (k : string) (default : value) (d : dict) : value :=
  match get k d with
  | Some v => v
  | None => default
  end.

(** [len(d) > 0], which is also the truth value of the dictionary [d]. *)
Definition nonempty (d : dict) : bool :=
  match d with [] => false | _ :: _ => true end.

(** [str(n)] for a count. *)
Definition str_of_nat (n : nat) : string :=
  NilEmpty.string_of_uint (Nat.to_uint n).

(** A document on disk: the comment lines written ahead of the YAML body,
    and the body.  For a document a script writes, the body is the value
    it hands to [yaml.dump]; for a document a script reads, it is the value
    [yaml.safe_load] gives, which skips the comment lines.  Module [Yaml]
    tells what is read from what was written. *)
Record yaml_file : Type := {
  header : list string;
  body : value
}.

(** [v in [s1, s2, ...]] for a list of string literals. *)
Definition str_in (v : option value) (l : list string) : bool :=
  match v with
  | Some (VStr s) => existsb (String.eqb s) l
  | _ => false
  end.

End Py.

Import Py.

Notation "x <- c ;; k" := (Py.bind c (fun x => k))
  (at level 61, c at next level, right associativity).
Notation "' p <- c ;; k" := (Py.bind c (fun x => match x with p => k end))
  (at level 61, p pattern, c at next level, right associativity).

(* ================================================================== *)
(** * The Enricher: [scripts/enrich_schema_with_picklists.py] *)
(* ================================================================== *)

Module Enricher.

(** [pv.get('active', True)] as a condition. *)
Definition option_active (pv : dict) : bool :=
  truthy (get_default "active" (VBool true) pv).

(** The comprehension
    [[pv['value'] for pv in picklist_values if pv.get('active', True)]]. *)
Fixpoint active_values (picklist_values : list value) : result (list value) :=
  match picklist_values with
  | [] => Ok []
  | pv :: rest =>
      d <- as_dict pv ;;
      if option_active d then
        v <- subscript "value" d ;;
        vs <- active_values rest ;;
        Ok (v :: vs)
      else active_values rest
  end.

(** [SchemaEnricher.extract_picklist_values]; [Ok None] is Python's [None]. *)
Definition extract_picklist_values (field_metadata : dict)
  : result (option (list value)) :=
  if negb (str_in (get "type" field_metadata) ["picklist"; "multipicklist"])
  then Ok None
  else
    picklist_values <- iter (get_default "picklistValues" (VList []) field_metadata) ;;
    active <- active_values picklist_values ;;
    Ok (match active with [] => None | _ :: _ => Some active end).

(** [reference_to[0] if len(reference_to) == 1 else reference_to], reached
    only for a truthy [reference_to]. *)
Definition first_or_all (reference_to : value) : result value :=
  match reference_to with
  | VList [x] => Ok x
  | VList _ => Ok reference_to
  | VStr _ => Ok reference_to
  | VDict [_] => Raise KeyError
  | VDict _ => Ok reference_to
  | VNone | VBool _ | VInt _ => Raise TypeError
  end.

(** [if fm.get(src): e[dst] = fm[src]] *)
Definition copy_if_truthy (src dst : string) (fm e : dict) : dict :=
  match get src fm with
  | Some v => if truthy v then set dst v e else e
  | None => e
  end.

(** [if fm.get(src): e[dst] = True] *)
Definition flag_if_truthy (src dst : string) (fm e : dict) : dict :=
  if get_truthy src fm then set dst (VBool true) e else e.

(** [SchemaEnricher._extract_non_picklist_formula_metadata] *)
Definition _extract_non_picklist_formula_metadata (field_metadata : dict)
  : result dict :=
  let enriched_field : dict := [] in
  let field_type := get "type" field_metadata in
  let enriched_field :=
    copy_if_truthy "defaultValue" "default_value" field_metadata enriched_field in
  let enriched_field :=
    match get "nillable" field_metadata with
    | Some (VBool false) => set "required" (VBool true) enriched_field
    | _ => enriched_field
    end in
  let enriched_field := flag_if_truthy "unique" "unique" field_metadata enriched_field in
  let enriched_field :=
    flag_if_truthy "externalId" "external_id" field_metadata enriched_field in
  enriched_field <-
    (if str_in field_type ["reference"] then
       let reference_to := get_default "referenceTo" (VList []) field_metadata in
       if truthy reference_to then
         r <- first_or_all reference_to ;;
         Ok (set "reference_to" r enriched_field)
       else Ok enriched_field
     else Ok enriched_field) ;;
  let enriched_field :=
    copy_if_truthy "controllerName" "controlling_field" field_metadata enriched_field in
  let enriched_field :=
    flag_if_truthy "dependentPicklist" "is_dependent_picklist" field_metadata
      enriched_field in
  let enriched_field := copy_if_truthy "length" "length" field_metadata enriched_field in
  let enriched_field :=
    copy_if_truthy "precision" "precision" field_metadata enriched_field in
  let enriched_field := copy_if_truthy "scale" "scale" field_metadata enriched_field in
  let enriched_field :=
    copy_if_truthy "inlineHelpText" "help_text" field_metadata enriched_field in
  let enriched_field := copy_if_truthy "label" "label" field_metadata enriched_field in
  Ok enriched_field.

(** The attributes merged with fill-missing semantics. *)
Definition fill_missing_keys : list string :=
  ["default_value"; "required"; "unique"; "external_id"; "reference_to";
   "controlling_field"; "is_dependent_picklist"; "length"; "precision";
   "scale"; "help_text"; "label"].

(** The loop
    [for key, value in enriched_data.items():
         if key not in field or not field[key]:
             field[key] = value; enriched_count += 1]. *)
Fixpoint fill_missing (enriched_data field : dict) (enriched_count : nat)
  : dict * nat :=
  match enriched_data with
  | [] => (field, enriched_count)
  | (key, value) :: rest =>
      if negb (mem key field) || negb (get_truthy key field)
      then fill_missing rest (set key value field) (S enriched_count)
      else fill_missing rest field enriched_count
  end.

(** What one run of the merge loop accumulates besides the fields. *)
Record loop_state : Type := {
  picklists_data : dict;
  formulas_data : dict;
  enriched_count : nat;
  picklists_added : nat;
  formulas_added : nat
}.

Definition init_state : loop_state :=
  {| picklists_data := []; formulas_data := []; enriched_count := 0;
     picklists_added := 0; formulas_added := 0 |}.

(** The external field-attribute map: field name to the attributes the
    live system reports for it. *)
Definition org_fields_t : Type := list (string * dict).

Fixpoint org_lookup (name : string) (org_fields : org_fields_t) : option dict :=
  match org_fields with
  | [] => None
  | (n, f) :: rest => if String.eqb name n then Some f else org_lookup name rest
  end.

(** [field_name in org_fields] followed by [org_fields[field_name]].  The
    map has string keys; lists and dictionaries are unhashable. *)
Definition find_org_field (field_name : option value) (org_fields : org_fields_t)
  : result (option (string * dict)) :=
  match field_name with
  | Some (VStr s) =>
      Ok (match org_lookup s org_fields with
          | Some f => Some (s, f)
          | None => None
          end)
  | Some (VList _) | Some (VDict _) => Raise TypeError
  | Some VNone | Some (VBool _) | Some (VInt _) | None => Ok None
  end.

(** Picklist step of the loop body. *)
Definition merge_picklist (is_new_structure : bool) (field_name : string)
    (org_field field : dict) (st : loop_state) : result (dict * loop_state) :=
  if str_in (get "type" org_field) ["picklist"; "multipicklist"] then
    picklist_values <- extract_picklist_values org_field ;;
    match picklist_values with
    | Some vs =>
        Ok (if is_new_structure then field
            else set "picklist_values" (VList vs) field,
            {| picklists_data := set field_name (VList vs) (picklists_data st);
               formulas_data := formulas_data st;
               enriched_count := S (enriched_count st);
               picklists_added := S (picklists_added st);
               formulas_added := formulas_added st |})
    | None => Ok (field, st)
    end
  else Ok (field, st).

(** Formula step of the loop body. *)
Definition merge_formula (is_new_structure : bool) (field_name : string)
    (org_field field : dict) (st : loop_state) : dict * loop_state :=
  if get_truthy "calculated" org_field && get_truthy "calculatedFormula" org_field
  then
    let formula := get_default "calculatedFormula" VNone org_field in
    (if is_new_structure then field else set "formula" formula field,
     {| picklists_data := picklists_data st;
        formulas_data := set field_name formula (formulas_data st);
        enriched_count := S (enriched_count st);
        picklists_added := picklists_added st;
        formulas_added := S (formulas_added st) |})
  else (field, st).

(** Body of the loop over [schema['object']['fields']]. *)
Definition enrich_field (is_new_structure : bool) (org_fields : org_fields_t)
    (st : loop_state) (field : value) : result (value * loop_state) :=
  field <- as_dict field ;;
  hit <- find_org_field (get "api_name" field) org_fields ;;
  match hit with
  | Some (field_name, org_field) =>
      '(field, st) <- merge_picklist is_new_structure field_name org_field field st ;;
      let '(field, st) := merge_formula is_new_structure field_name org_field field st in
      enriched_data <- _extract_non_picklist_formula_metadata org_field ;;
      let '(field, n) := fill_missing enriched_data field (enriched_count st) in
      Ok (VDict field,
          {| picklists_data := picklists_data st;
             formulas_data := formulas_data st;
             enriched_count := n;
             picklists_added := picklists_added st;
             formulas_added := formulas_added st |})
  | None => Ok (VDict field, st)
  end.

Fixpoint enrich_fields (is_new_structure : bool) (org_fields : org_fields_t)
    (fields : list value) (st : loop_state) : result (list value * loop_state) :=
  match fields with
  | [] => Ok ([], st)
  | field :: rest =>
      '(field', st) <- enrich_field is_new_structure org_fields st field ;;
      '(rest', st) <- enrich_fields is_new_structure org_fields rest st ;;
      Ok (field' :: rest', st)
  end.

(** The files of one object: [schema.yaml] (or the single legacy file),
    and the optional [picklists.yaml] and [formulas.yaml] next to it. *)
Record object_folder : Type := {
  schema_yaml : yaml_file;
  picklists_yaml : option yaml_file;
  formulas_yaml : option yaml_file
}.

(** [now i] is what the [i]-th call of [datetime.now().isoformat()] of a
    run returns. *)
Definition clock : Type := nat -> string.

Definition picklists_content (object_name : string) (picklists_data : dict)
    (generated_date : string) : value :=
  VDict [("picklists", VDict picklists_data);
         ("metadata",
          VDict [("object", VStr object_name);
                 ("generated_date", VStr generated_date);
                 ("picklist_count", VInt (Z.of_nat (length picklists_data)));
                 ("note", VStr "Only ACTIVE picklist values are included")])].

Definition picklists_header (object_name : string) (picklists_data : dict)
    (generated : string) : list string :=
  ["# Picklist Values for " ++ object_name;
   "# Generated: " ++ generated;
   "# Total Picklist Fields: " ++ str_of_nat (length picklists_data);
   "#";
   "# IMPORTANT: Only ACTIVE picklist values are shown.";
   "# Inactive values are excluded to prevent invalid data in code.";
   "#";
   ""].

Definition formulas_content (object_name : string) (formulas_data : dict)
    (generated_date : string) : value :=
  VDict [("formulas", VDict formulas_data);
         ("metadata",
          VDict [("object", VStr object_name);
                 ("generated_date", VStr generated_date);
                 ("formula_count", VInt (Z.of_nat (length formulas_data)))])].

Definition formulas_header (object_name : string) (formulas_data : dict)
    (generated : string) : list string :=
  ["# Formula Definitions for " ++ object_name;
   "# Generated: " ++ generated;
   "# Total Formula Fields: " ++ str_of_nat (length formulas_data);
   "#";
   ""].

(** The merge loop of [enrich_object_schema] over the loaded schema, up to
    [schema['object']['fields'] = enriched_fields].  The fields are mutated
    in place inside the loaded document, so the enriched list replaces the
    old one under the same keys. *)
Definition merge_schema (is_new_structure : bool) (org_fields : org_fields_t)
    (schema : value) : result (dict * loop_state) :=
  schema <- as_dict schema ;;
  object <- as_dict (get_default "object" (VDict []) schema) ;;
  fields <- iter (get_default "fields" (VList []) object) ;;
  '(enriched_fields, st) <-
    enrich_fields is_new_structure org_fields fields init_state ;;
  _ <- subscript "object" schema ;;
  Ok (set "object" (VDict (set "fields" (VList enriched_fields) object)) schema,
      st).

(** [schema['metadata'][...] = ...] of the new structure. *)
Definition stamp_metadata (schema : dict) (enriched_date : string)
    (st : loop_state) : result dict :=
  let schema :=
    if mem "metadata" schema then schema else set "metadata" (VDict []) schema in
  match get "metadata" schema with
  | Some (VDict metadata) =>
      let metadata := set "enriched_date" (VStr enriched_date) metadata in
      let metadata :=
        set "has_picklists" (VBool (nonempty (picklists_data st))) metadata in
      let metadata :=
        set "has_formulas" (VBool (nonempty (formulas_data st))) metadata in
      Ok (set "metadata" (VDict metadata) schema)
  | _ => Raise TypeError
  end.

(** [SchemaEnricher.enrich_object_schema] for an object whose schema file
    exists and whose external attributes were fetched, with
    [dry_run = False].  [is_new_structure] tells the folder layout from the
    legacy single file. *)
Definition enrich_object_schema (object_name : string) (is_new_structure : bool)
    (org_fields : org_fields_t) (now : clock) (folder : object_folder)
  : result (object_folder * loop_state) :=
  '(schema, st) <-
    merge_schema is_new_structure org_fields (body (schema_yaml folder)) ;;
  if is_new_structure then
    schema <- stamp_metadata schema (now 0) st ;;
    let schema_file := {| header := []; body := VDict schema |} in
    let '(picklists_file, tick) :=
      if nonempty (picklists_data st) then
        (Some {| header := picklists_header object_name (picklists_data st) (now 2);
                 body := picklists_content object_name (picklists_data st) (now 1) |},
         3)
      else (picklists_yaml folder, 1) in
    let formulas_file :=
      if nonempty (formulas_data st) then
        Some {| header :=
                  formulas_header object_name (formulas_data st) (now (S tick));
                body := formulas_content object_name (formulas_data st) (now tick) |}
      else formulas_yaml folder in
    Ok ({| schema_yaml := schema_file;
           picklists_yaml := picklists_file;
           formulas_yaml := formulas_file |}, st)
  else
    Ok ({| schema_yaml := {| header := []; body := VDict schema |};
           picklists_yaml := picklists_yaml folder;
           formulas_yaml := formulas_yaml folder |}, st).

(** Payload content with its timestamps blanked: the metadata entry named
    [key] and the [# Generated:] comment line. *)
Definition redact_line (line : string) : string :=
  if String.prefix "# Generated: " line then "# Generated: " else line.

Definition redact_metadata (key : string) (content : value) : value :=
  match content with
  | VDict d =>
      match get "metadata" d with
      | Some (VDict metadata) =>
          if mem key metadata
          then VDict (set "metadata" (VDict (set key VNone metadata)) d)
          else content
      | _ => content
      end
  | _ => content
  end.

Definition redact_file (key : string) (f : yaml_file) : yaml_file :=
  {| header := map redact_line (header f);
     body := redact_metadata key (body f) |}.

Definition redact (folder : object_folder) : object_folder :=
  {| schema_yaml := redact_file "enriched_date" (schema_yaml folder);
     picklists_yaml := option_map (redact_file "generated_date") (picklists_yaml folder);
     formulas_yaml := option_map (redact_file "generated_date") (formulas_yaml folder) |}.

End Enricher.

(* ================================================================== *)
(** * XML documents as [xml.etree.ElementTree] presents them *)
(* ================================================================== *)

Module Xml.

(** An element: its expanded tag [{namespace}local], its text and its
    children in document order. *)
Inductive element : Type :=
| Element (tag : string) (text : option string) (children : list element).

Definition tag (e : element) : string :=
  match e with Element t _ _ => t end.

Definition text (e : element) : option string :=
  match e with Element _ t _ => t end.

(** Every element below [e], in document order. *)
Fixpoint descendants (e : element) : list element :=
  match e with
  | Element _ _ cs =>
      (fix go (l : list element) : list element :=
         match l with
         | [] => []
         | c :: l' => c :: (descendants c ++ go l')%list
         end) cs
  end.

(** [e.findall('.//t')] *)
Definition findall (t : string) (e : element) : list element :=
  filter (fun d => String.eqb (tag d) t) (descendants e).

(** [e.find('.//t')] *)
Definition find (t : string) (e : element) : option element :=
  match findall t e with
  | [] => None
  | d :: _ => Some d
  end.

(** The guard [x is not None and x.text], giving the text when it holds. *)
Definition nonempty_text (x : option element) : option string :=
  match x with
  | Some e =>
      match text e with
      | Some t => if String.eqb t "" then None else Some t
      | None => None
      end
  | None => None
  end.

End Xml.

(* ================================================================== *)
(** * Text: UTF-8 bytes and code points *)
(* ================================================================== *)

Module Utf8.

(** The strings of the model hold text in UTF-8, one character of the
    string per byte.  A Python [str] is the sequence of code points the
    bytes encode; the functions that look at code points decode first. *)
Definition continuation (b : N) : bool := (128 <=? b)%N && (b <? 192)%N.

Fixpoint decode (l : list N) : option (list N) :=
  match l with
  | [] => Some []
  | b0 :: l1 =>
      if (b0 <? 128)%N then option_map (cons b0) (decode l1)
      else
        match l1 with
        | [] => None
        | b1 :: l2 =>
            if (194 <=? b0)%N && (b0 <? 224)%N then
              if continuation b1
              then option_map (cons ((b0 - 192) * 64 + (b1 - 128))%N) (decode l2)
              else None
            else
              match l2 with
              | [] => None
              | b2 :: l3 =>
                  if (224 <=? b0)%N && (b0 <? 240)%N then
                    let c := ((b0 - 224) * 4096 + (b1 - 128) * 64 + (b2 - 128))%N in
                    if continuation b1 && continuation b2 && (2048 <=? c)%N
                       && negb ((55296 <=? c)%N && (c <? 57344)%N)
                    then option_map (cons c) (decode l3)
                    else None
                  else
                    match l3 with
                    | [] => None
                    | b3 :: l4 =>
                        if (240 <=? b0)%N && (b0 <? 245)%N then
                          let c := ((b0 - 240) * 262144 + (b1 - 128) * 4096
                                    + (b2 - 128) * 64 + (b3 - 128))%N in
                          if continuation b1 && continuation b2 && continuation b3
                             && (65536 <=? c)%N && (c <? 1114112)%N
                          then option_map (cons c) (decode l4)
                          else None
                        else None
                    end
              end
        end
  end.

Definition bytes (s : string) : list N := map N_of_ascii (list_ascii_of_string s).

(** The code points of a string; [None] when the bytes are not UTF-8. *)
Definition code_points (s : string) : option (list N) := decode (bytes s).

Definition encode (c : N) : list N :=
  if (c <? 128)%N then [c]
  else if (c <? 2048)%N then [192 + c / 64; 128 + c mod 64]%N
  else if (c <? 65536)%N
  then [224 + c / 4096; 128 + (c / 64) mod 64; 128 + c mod 64]%N
  else [240 + c / 262144; 128 + (c / 4096) mod 64; 128 + (c / 64) mod 64;
        128 + c mod 64]%N.

(** The string of a sequence of code points. *)
Definition text (cps : list N) : string :=
  string_of_list_ascii (map ascii_of_N (flat_map encode cps)).

End Utf8.

(* ================================================================== *)
(** * YAML: what is read back from what was written *)
(* ================================================================== *)

Module Yaml.

(** The scripts write with [yaml.dump(..., default_flow_style=False,
    sort_keys=False, allow_unicode=True)] and read with [yaml.safe_load];
    every document is a mapping.  Numbers, booleans, [None], lists and the
    order of keys are read back as written, and so is every string but one
    kind: a string with a line break in it that the emitter writes in
    single quotes.  There the scanner folds the breaks of the quoted text,
    which gives back line feeds, line separators and paragraph separators,
    but not U+0085. *)

(** The characters the emitter breaks lines at: line feed, U+0085, U+2028
    and U+2029. *)
Definition is_break (c : N) : bool := existsb (N.eqb c) [10; 133; 8232; 8233]%N.

(** The characters the emitter writes as they are when [allow_unicode] is
    set; a string with any other character is written in double quotes,
    escaped. *)
Definition printable (c : N) : bool :=
  (c =? 10)%N
  || ((32 <=? c)%N && (c <=? 126)%N)
  || (((c =? 133)%N
       || ((160 <=? c)%N && (c <=? 55295)%N)
       || ((57344 <=? c)%N && (c <=? 65533)%N)
       || ((65536 <=? c)%N && (c <? 1114111)%N))
      && negb (c =? 65279)%N).

(** [analyze_scalar]: a space right after a line break, or right before
    one; either rules single quotes out. *)
Fixpoint space_by_break (cps : list N) (previous_space previous_break : bool)
  : bool :=
  match cps with
  | [] => false
  | c :: rest =>
      if (c =? 32)%N then previous_break || space_by_break rest true false
      else if is_break c then previous_space || space_by_break rest false true
      else space_by_break rest false false
  end.

Definition allow_single_quoted (cps : list N) : bool :=
  forallb printable cps && negb (space_by_break cps false false).

(** [scan_line_break]: U+0085 is read as a line feed. *)
Definition scan_line_break (c : N) : N := if (c =? 133)%N then 10%N else c.

(** A run of line breaks of a single-quoted text, written and read back.
    [write_single_quoted] writes one more line feed ahead of a run that
    starts with a line feed; [scan_flow_scalar_spaces] drops a first line
    feed, puts a space for it when no other break follows, and keeps the
    other breaks. *)
Definition read_breaks (run : list N) : list N :=
  let written :=
    match run with
    | c :: _ => if (c =? 10)%N then 10%N :: run else run
    | [] => []
    end in
  match map scan_line_break written with
  | line_break :: breaks =>
      ((if (line_break =? 10)%N
        then match breaks with [] => [32%N] | _ :: _ => [] end
        else [line_break]) ++ breaks)%list
  | [] => []
  end.

(** The text of a single-quoted scalar as read back; [run] holds, last
    first, the line breaks of the run being read. *)
Fixpoint fold_breaks (cps : list N) (run : list N) : list N :=
  match cps with
  | [] => read_breaks (rev run)
  | c :: rest =>
      if is_break c then fold_breaks rest (c :: run)
      else (read_breaks (rev run) ++ c :: fold_breaks rest [])%list
  end.

(** A string as read back. *)
Definition reload_str (s : string) : string :=
  match Utf8.code_points s with
  | Some cps =>
      if existsb is_break cps && allow_single_quoted cps
      then Utf8.text (fold_breaks cps [])
      else s
  | None => s
  end.

(** [d[k] = v] for every entry read, in order. *)
Definition construct_mapping (entries : dict) : dict :=
  fold_left (fun d kv => set (fst kv) (snd kv) d) entries [].

(** [yaml.safe_load] of the text [yaml.dump] wrote for [v]. *)
Fixpoint safe_load_dump (v : value) : value :=
  match v with
  | VStr s => VStr (reload_str s)
  | VList l => VList (map safe_load_dump l)
  | VDict d =>
      VDict (construct_mapping
               (map (fun kv => let '(k, x) := kv in (reload_str k, safe_load_dump x)) d))
  | VNone | VBool _ | VInt _ => v
  end.

End Yaml.

(* ================================================================== *)
(** * Strings, paths and sorting *)
(* ================================================================== *)

Module Str.

Definition lower_ascii (c : ascii) : ascii :=
  let n := nat_of_ascii c in
  if (65 <=? n)%nat && (n <=? 90)%nat then ascii_of_nat (n + 32) else c.

(** [s.lower()]; exact wherever the result is compared with an ASCII word. *)
Fixpoint lower (s : string) : string :=
  match s with
  | EmptyString => EmptyString
  | String c s' => String (lower_ascii c) (lower s')
  end.

(** [s.startswith(p)] *)
Definition startswith (p s : string) : bool := String.prefix p s.

(** [s.endswith(p)] *)
Definition endswith (p s : string) : bool :=
  (String.length p <=? String.length s)%nat
  && String.eqb (substring (String.length s - String.length p) (String.length p) s) p.

(** [Py_ISSPACE]: the white space the integer parser skips. *)
Definition is_space (c : N) : bool :=
  (c =? 32)%N || ((9 <=? c)%N && (c <=? 13)%N).

(** [Py_UNICODE_ISSPACE] beyond ASCII. *)
Definition is_unicode_space (c : N) : bool :=
  existsb (N.eqb c) [133; 160; 5760; 8232; 8233; 8239; 8287; 12288]%N
  || ((8192 <=? c)%N && (c <=? 8202)%N).

(** The first code point of every block of ten decimal digits beyond
    ASCII (general category Nd of Unicode 14.0, the table of
    CPython 3.11). *)
Definition decimal_blocks : list N :=
  [1632; 1776; 1984; 2406; 2534; 2662; 2790; 2918; 3046; 3174; 3302;
   3430; 3558; 3664; 3792; 3872; 4160; 4240; 6112; 6160; 6470; 6608;
   6784; 6800; 6992; 7088; 7232; 7248; 42528; 43216; 43264; 43472; 43504;
   43600; 44016; 65296; 66720; 68912; 69734; 69872; 69942; 70096; 70384;
   70736; 70864; 71248; 71360; 71472; 71904; 72016; 72784; 73040; 73120;
   92768; 92864; 93008; 120782; 120792; 120802; 120812; 120822; 123200;
   123632; 125264; 130032]%N.

(** [Py_UNICODE_TODECIMAL] beyond ASCII. *)
Definition to_decimal (c : N) : option N :=
  match find (fun b => (b <=? c)%N && (c <? b + 10)%N) decimal_blocks with
  | Some b => Some (c - b)%N
  | None => None
  end.

(** [_PyUnicode_TransformDecimalAndSpaceToASCII]: text that is not ASCII
    has its white space turned into spaces and its decimal digits into
    ASCII digits; at any other code point from 127 on the conversion stops
    with a ["?"]. *)
Fixpoint transform (cps : list N) : list N :=
  match cps with
  | [] => []
  | c :: rest =>
      if (c <? 127)%N then c :: transform rest
      else if is_unicode_space c then 32%N :: transform rest
      else match to_decimal c with
           | Some d => (48 + d)%N :: transform rest
           | None => [63%N]
           end
  end.

Definition to_ascii (cps : list N) : list N :=
  if forallb (fun c => (c <? 128)%N) cps then cps else transform cps.

Fixpoint lstrip (l : list N) : list N :=
  match l with
  | c :: l' => if is_space c then lstrip l' else l
  | [] => []
  end.

Definition strip (l : list N) : list N :=
  rev (lstrip (rev (lstrip l))).

Definition digit_of (c : N) : option Z :=
  if (48 <=? c)%N && (c <=? 57)%N then Some (Z.of_N (c - 48)) else None.

(** [sys.int_info.default_max_str_digits] *)
Definition max_str_digits : nat := 4300.

(** Decimal digits with single underscores allowed between them; [count]
    is the number of digits read, which must not exceed the limit. *)
Fixpoint digits (l : list N) (acc : Z) (after_digit : bool) (count : nat)
  : option Z :=
  match l with
  | [] =>
      if after_digit && (count <=? max_str_digits)%nat then Some acc else None
  | c :: l' =>
      match digit_of c with
      | Some d => digits l' (10 * acc + d)%Z true (S count)
      | None =>
          if (c =? 95)%N && after_digit then digits l' acc false count else None
      end
  end.

(** [PyLong_FromString] in base ten: white space, an optional sign, the
    digits, white space. *)
Definition parse_long (l : list N) : option Z :=
  match strip l with
  | c :: l' =>
      if (c =? 45)%N then option_map Z.opp (digits l' 0%Z false 0)
      else if (c =? 43)%N then digits l' 0%Z false 0
      else digits (c :: l') 0%Z false 0
  | [] => None
  end.

(** [int(s)] for a string [s]; [None] is [ValueError]. *)
Definition py_int (s : string) : option Z :=
  match Utf8.code_points s with
  | Some cps => parse_long (to_ascii cps)
  | None => None
  end.

(** Position of the last ["."] in a name. *)
Fixpoint rfind_dot (s : string) (i : nat) (found : option nat) : option nat :=
  match s with
  | EmptyString => found
  | String c s' => rfind_dot s' (S i) (if Ascii.eqb c "." then Some i else found)
  end.

(** [Path.stem]: the name without its last suffix. *)
Definition stem (name : string) : string :=
  match rfind_dot name 0 None with
  | Some i =>
      if (0 <? i)%nat && (i <? String.length name - 1)%nat
      then substring 0 i name
      else name
  | None => name
  end.

(** [sorted(l)] on paths of one directory, on a host whose paths compare
    by name, code point by code point (POSIX): ascending names, stable.
    Where paths compare case-insensitively (Windows) the same sort runs on
    the lower-cased names. *)
Fixpoint insert_by {A : Type} (key : A -> string) (x : A) (l : list A) : list A :=
  match l with
  | [] => [x]
  | y :: l' =>
      if String.leb (key x) (key y) then x :: y :: l' else y :: insert_by key x l'
  end.

Fixpoint sorted_by {A : Type} (key : A -> string) (l : list A) : list A :=
  match l with
  | [] => []
  | x :: l' => insert_by key x (sorted_by key l')
  end.

End Str.

(* ================================================================== *)
(** * The MetadataParser: [scripts/generate_sf_er_schema.py] *)
(* ================================================================== *)

Module Parser.

Import Xml Str.

(** [SF_NS]: the tag a path step [sf:name] matches. *)
Definition sf (name : string) : string :=
  "{http://soap.sforce.com/2006/04/metadata}" ++ name.

(** A metadata document: its file name and what [ET.parse] makes of it;
    [None] stands for a document [ET.parse] rejects or cannot read. *)
Record file : Type := {
  name : string;
  content : option element
}.

(** One object directory.  [meta_file] is the descriptor
    [<name>.object-meta.xml] when it exists; each sub-collection is the
    listing of its directory, in the order the file system gives it, or
    [None] when the directory is absent. *)
Record object_dir : Type := {
  dir_name : string;
  meta_file : option (option element);
  fields_dir : option (list file);
  recordTypes_dir : option (list file);
  validationRules_dir : option (list file)
}.

(** An entry of the objects directory. *)
Inductive entry : Type :=
| Dir (d : object_dir)
| Other (entry_name : string).

(** [x = root.find('.//sf:tag'); if x is not None and x.text: d[key] = x.text] *)
Definition set_text (t key : string) (root : element) (d : dict) : dict :=
  match nonempty_text (find (sf t) root) with
  | Some s => set key (VStr s) d
  | None => d
  end.

(** ... [d[key] = x.text.lower() == 'true'] *)
Definition set_bool (t key : string) (root : element) (d : dict) : dict :=
  match nonempty_text (find (sf t) root) with
  | Some s => set key (VBool (String.eqb (lower s) "true")) d
  | None => d
  end.

(** ... [try: d[key] = int(x.text)  except (ValueError, TypeError): warn] *)
Definition set_int (t key : string) (root : element) (d : dict) : dict :=
  match nonempty_text (find (sf t) root) with
  | Some s =>
      match py_int s with
      | Some z => set key (VInt z) d
      | None => d
      end
  | None => d
  end.

(** The entry appended to [schema['salesforce_schema']['relationships']]. *)
Definition relationship_edge (parent_object field_name : string)
    (field_data : dict) : value :=
  VDict [("from_object", VStr parent_object);
         ("from_field", VStr field_name);
         ("to_object", get_default "reference_to" VNone field_data);
         ("relationship_type", get_default "type" VNone field_data);
         ("relationship_name", get_default "relationship_name" (VStr "") field_data);
         ("delete_constraint", get_default "delete_constraint" (VStr "") field_data)].

(** The texts of the [fullName] elements under [valueSet]. *)
Definition picklist_texts (root : element) : list value :=
  match find (sf "valueSet") root with
  | Some value_set =>
      flat_map
        (fun value_elem =>
           match nonempty_text (Some value_elem) with
           | Some s => [VStr s]
           | None => []
           end)
        (findall (sf "fullName") value_set)
  | None => []
  end.

(** [SalesforceSchemaParser.parse_field].  The relationship list of the
    schema under construction is threaded through.  Once [ET.parse] has
    succeeded the extraction only searches the tree and reads texts, and
    the integer conversions are guarded, so the final [except Exception]
    arm (the one returning [api_name] with [parse_error]) has nothing to
    catch. *)
Definition parse_field (field_file : file) (parent_object : string)
    (relationships : list value) : option dict * list value :=
  match content field_file with
  | None => (None, relationships)
  | Some root =>
      let field_name :=
        match nonempty_text (find (sf "fullName") root) with
        | Some s => s
        | None => stem (name field_file)
        end in
      let field_data : dict := [("api_name", VStr field_name)] in
      let field_data := set_text "label" "label" root field_data in
      let field_data := set_text "type" "type" root field_data in
      let field_data := set_text "description" "description" root field_data in
      let field_data := set_text "inlineHelpText" "help_text" root field_data in
      let field_data := set_bool "required" "required" root field_data in
      let field_data := set_bool "unique" "unique" root field_data in
      let field_data := set_bool "externalId" "external_id" root field_data in
      let field_data := set_int "length" "length" root field_data in
      let field_data := set_int "precision" "precision" root field_data in
      let field_data := set_int "scale" "scale" root field_data in
      let '(field_data, relationships) :=
        if str_in (get "type" field_data) ["Lookup"; "MasterDetail"] then
          let field_data := set_text "referenceTo" "reference_to" root field_data in
          let field_data :=
            set_text "relationshipName" "relationship_name" root field_data in
          let field_data :=
            set_text "relationshipLabel" "relationship_label" root field_data in
          let field_data :=
            set_text "deleteConstraint" "delete_constraint" root field_data in
          if mem "reference_to" field_data
          then (field_data,
                (relationships
                   ++ [relationship_edge parent_object field_name field_data])%list)
          else (field_data, relationships)
        else (field_data, relationships) in
      let field_data :=
        if str_in (get "type" field_data) ["Picklist"; "MultiselectPicklist"] then
          match picklist_texts root with
          | [] => field_data
          | picklist_values => set "picklist_values" (VList picklist_values) field_data
          end
        else field_data in
      let field_data := set_text "formula" "formula" root field_data in
      let field_data := set_text "defaultValue" "default_value" root field_data in
      (Some field_data, relationships)
  end.

(** [rt_data['api_name']] / [vr_data['name']]: [fullName] or the file stem. *)
Definition full_name_or_stem (f : file) (root : element) : string :=
  match nonempty_text (find (sf "fullName") root) with
  | Some s => s
  | None => stem (name f)
  end.

(** [SalesforceSchemaParser.parse_record_type] *)
Definition parse_record_type (rt_file : file) : option dict :=
  match content rt_file with
  | None => None
  | Some root =>
      let rt_data : dict := [("api_name", VStr (full_name_or_stem rt_file root))] in
      let rt_data := set_text "label" "label" root rt_data in
      let rt_data := set_text "description" "description" root rt_data in
      let rt_data := set_bool "active" "active" root rt_data in
      Some rt_data
  end.

(** [SalesforceSchemaParser.parse_validation_rule] *)
Definition parse_validation_rule (vr_file : file) : option dict :=
  match content vr_file with
  | None => None
  | Some root =>
      let vr_data : dict := [("name", VStr (full_name_or_stem vr_file root))] in
      let vr_data := set_bool "active" "active" root vr_data in
      let vr_data := set_text "description" "description" root vr_data in
      let vr_data :=
        set_text "errorConditionFormula" "error_condition_formula" root vr_data in
      let vr_data := set_text "errorDisplayField" "error_display_field" root vr_data in
      let vr_data := set_text "errorMessage" "error_message" root vr_data in
      Some vr_data
  end.

(** [list(dir.glob('*' + suffix))] then [sorted(...)]; an absent directory
    contributes nothing. *)
Definition sorted_glob (suffix : string) (dir : option (list file)) : list file :=
  match dir with
  | Some files => sorted_by name (filter (fun f => endswith suffix (name f)) files)
  | None => []
  end.

(** The loop over the sorted field files: a document [parse_field] gives
    [None] for adds nothing to [obj_data['fields']]. *)
Fixpoint parse_fields (field_files : list file) (obj_name : string)
    (relationships : list value) : list value * list value :=
  match field_files with
  | [] => ([], relationships)
  | field_file :: rest =>
      let '(field_data, relationships) :=
        parse_field field_file obj_name relationships in
      let '(fields, relationships) := parse_fields rest obj_name relationships in
      (match field_data with
       | Some d => VDict d :: fields
       | None => fields
       end, relationships)
  end.

(** The loops over record types and validation rules. *)
Definition parse_each (parse : file -> option dict) (files : list file) : list value :=
  flat_map (fun f => match parse f with Some d => [VDict d] | None => [] end) files.

Definition object_type (obj_name : string) : string :=
  if negb (endswith "__c" obj_name) && negb (endswith "__mdt" obj_name)
     && negb (endswith "__e" obj_name)
  then "Standard"
  else if endswith "__mdt" obj_name then "CustomMetadata"
  else if endswith "__e" obj_name then "PlatformEvent"
  else "Custom".

(** [SalesforceSchemaParser.parse_object] *)
Definition parse_object (obj_dir : object_dir) (relationships : list value)
  : dict * list value :=
  let obj_name := dir_name obj_dir in
  let obj_data : dict :=
    [("api_name", VStr obj_name);
     ("type", VStr (object_type obj_name));
     ("fields", VList []);
     ("record_types", VList []);
     ("validation_rules", VList [])] in
  let obj_data :=
    match meta_file obj_dir with
    | Some (Some root) =>
        let obj_data :=
          match nonempty_text (find (sf "label") root) with
          | Some s => set "label" (VStr s) obj_data
          | None => set "label" (VStr obj_name) obj_data
          end in
        set_text "description" "description" root obj_data
    | Some None => set "label" (VStr obj_name) obj_data
    | None => set "label" (VStr obj_name) obj_data
    end in
  let '(fields, relationships) :=
    parse_fields (sorted_glob ".field-meta.xml" (fields_dir obj_dir)) obj_name
      relationships in
  let obj_data := set "fields" (VList fields) obj_data in
  let obj_data :=
    set "record_types"
      (VList (parse_each parse_record_type
                (sorted_glob ".recordType-meta.xml" (recordTypes_dir obj_dir))))
      obj_data in
  let obj_data :=
    set "validation_rules"
      (VList (parse_each parse_validation_rule
                (sorted_glob ".validationRule-meta.xml" (validationRules_dir obj_dir))))
      obj_data in
  (obj_data, relationships).

(** [[d for d in objects_path.iterdir() if d.is_dir()]] *)
Definition object_dirs (listing : list entry) : list object_dir :=
  flat_map (fun e => match e with Dir d => [d] | Other _ => [] end) listing.

(** The loop of [parse_all_objects] over the sorted object directories. *)
Fixpoint parse_objects (dirs : list object_dir) (relationships : list value)
  : list value * list value :=
  match dirs with
  | [] => ([], relationships)
  | obj_dir :: rest =>
      let '(obj_data, relationships) := parse_object obj_dir relationships in
      let '(objects, relationships) := parse_objects rest relationships in
      (VDict obj_data :: objects, relationships)
  end.

(** [SalesforceSchemaParser.__init__] followed by [parse_all_objects] on an
    existing objects directory: the schema document.  [generated_date] is
    [datetime.now().isoformat()] at construction. *)
Definition parse_all_objects (generated_date objects_path : string)
    (listing : list entry) : value :=
  let '(objects, relationships) :=
    parse_objects (sorted_by dir_name (object_dirs listing)) [] in
  VDict [("salesforce_schema",
          VDict [("metadata",
                  VDict [("generated_date", VStr generated_date);
                         ("source_path", VStr objects_path);
                         ("total_objects", VInt (Z.of_nat (length objects)))]);
                 ("objects", VList objects);
                 ("relationships", VList relationships)])].

(** [SalesforceSchemaParser.save_yaml]: the document written. *)
Definition save_yaml (generated_date : string) (schema : value) : yaml_file :=
  {| header :=
       ["# Salesforce Entity-Relationship Schema";
        "# Auto-generated ER schema for AI agents to understand data model relationships";
        "# Generated: " ++ generated_date;
        "#";
        "# This document provides:";
        "# - Complete object definitions with all fields";
        "# - Relationship mappings (Lookup, Master-Detail)";
        "# - Record types and validation rules";
        "# - Field metadata (types, descriptions, constraints)";
        "#";
        "# Usage:";
        "#   AI agents can use this schema to:";
        "#   - Understand object relationships for writing SOQL queries";
        "#   - Identify available fields and their types";
        "#   - Reference validation rules and record types";
        "#   - Build code that respects the data model structure";
        "#";
        ""];
     body := schema |}.

(** One run of the generator: parse, then save. *)
Definition generate (generated_date objects_path : string)
    (listing : list entry) : yaml_file :=
  save_yaml generated_date (parse_all_objects generated_date objects_path listing).

End Parser.

(* ================================================================== *)
(** * The Splitter: [salesforce/scripts/split_schema_by_object.py] *)
(* ================================================================== *)

Module Splitter.

Import Str.

(** Field names used as keys of the picklist and formula payloads.  Python
    compares keys with [==], under which [True] and [1] are one key; lists
    and dictionaries cannot be keys. *)
Inductive hkey : Type :=
| KNone
| KNum (z : Z)
| KStr (s : string).

Definition hash_key (v : value) : result hkey :=
  match v with
  | VNone => Ok KNone
  | VBool b => Ok (KNum (if b then 1 else 0))
  | VInt z => Ok (KNum z)
  | VStr s => Ok (KStr s)
  | VList _ | VDict _ => Raise TypeError
  end.

Definition hkey_eqb (a b : hkey) : bool :=
  match a, b with
  | KNone, KNone => true
  | KNum x, KNum y => Z.eqb x y
  | KStr s, KStr t => String.eqb s t
  | _, _ => false
  end.

(** A payload: field name to extracted value, in insertion order. *)
Definition payload : Type := list (hkey * value).

Fixpoint payload_get (k : hkey) (p : payload) : option value :=
  match p with
  | [] => None
  | (k', v) :: p' => if hkey_eqb k k' then Some v else payload_get k p'
  end.

Fixpoint payload_set (k : hkey) (v : value) (p : payload) : payload :=
  match p with
  | [] => [(k, v)]
  | (k', v') :: p' =>
      if hkey_eqb k k' then (k', v) :: p' else (k', v') :: payload_set k v p'
  end.

(** [field.get('api_name', '')] *)
Definition field_name (field : dict) : value :=
  get_default "api_name" (VStr "") field.

(** The condition ['attr' in field and field['attr']]. *)
Definition present (attr : string) (field : dict) : bool :=
  mem attr field && get_truthy attr field.

Definition picklist_note (obj_name : string) : value :=
  VStr ("Picklist values available in config/schema/objects/" ++ obj_name
        ++ "/picklists.yaml").

Definition formula_note (obj_name : string) : value :=
  VStr ("Formula definition available in config/schema/objects/" ++ obj_name
        ++ "/formulas.yaml").

(** One of the two extraction steps of the loop body: store the value under
    the field's name, drop it from the copy and leave the note. *)
Definition extract_attr (attr : string) (note : value) (field core_field : dict)
    (store : payload) : result (dict * payload) :=
  if present attr field then
    k <- hash_key (field_name field) ;;
    Ok (set "_note" note (pop attr core_field),
        payload_set k (get_default attr VNone field) store)
  else Ok (core_field, store).

(** Body of the loop of [_extract_field_metadata]; [obj_name] is the text
    the notes are formatted with. *)
Definition extract_field (obj_name : string) (field : value)
    (picklists formulas : payload) : result (dict * payload * payload) :=
  field <- as_dict field ;;
  let core_field := field in
  '(core_field, picklists) <-
    extract_attr "picklist_values" (picklist_note obj_name) field core_field
      picklists ;;
  '(core_field, formulas) <-
    extract_attr "formula" (formula_note obj_name) field core_field formulas ;;
  Ok (core_field, picklists, formulas).

Fixpoint extract_loop (obj_name : string) (fields : list value)
    (picklists formulas : payload) : result (payload * payload * list value) :=
  match fields with
  | [] => Ok (picklists, formulas, [])
  | field :: rest =>
      '(core_field, picklists, formulas) <-
        extract_field obj_name field picklists formulas ;;
      '(picklists, formulas, core_fields) <-
        extract_loop obj_name rest picklists formulas ;;
      Ok (picklists, formulas, VDict core_field :: core_fields)
  end.

(** [SchemaOptimizer._extract_field_metadata] *)
Definition _extract_field_metadata (fields : list value) (obj_name : string)
  : result (payload * payload * list value) :=
  extract_loop obj_name fields [] [].

(** What [split_objects] stores for one object: the field list of
    [schema.yaml], and the mappings of [picklists.yaml] and [formulas.yaml],
    each written only when non-empty. *)
Record partition : Type := {
  core_fields : list value;
  picklists_file : option payload;
  formulas_file : option payload
}.

Definition written_if_any (p : payload) : option payload :=
  match p with [] => None | _ :: _ => Some p end.

(** The partitioning step of [SchemaOptimizer.split_objects] for one
    object. *)
Definition split_object (fields : list value) (obj_name : string)
  : result partition :=
  '(picklists, formulas, core) <- _extract_field_metadata fields obj_name ;;
  Ok {| core_fields := core;
        picklists_file := written_if_any picklists;
        formulas_file := written_if_any formulas |}.

(** Reading a field back, in the words of the losslessness invariant: the
    core entry without its annotation, joined with the picklist entry and
    the formula entry stored under the field's name, where they exist. *)
Definition entry_for (file : option payload) (core_field : dict) : option value :=
  match file, hash_key (field_name core_field) with
  | Some p, Ok k => payload_get k p
  | _, _ => None
  end.

Definition reconstruct (part : partition) (core_field : dict) : dict :=
  let field := pop "_note" core_field in
  let field :=
    match entry_for (picklists_file part) core_field with
    | Some v => set "picklist_values" v field
    | None => field
    end in
  match entry_for (formulas_file part) core_field with
  | Some v => set "formula" v field
  | None => field
  end.

(** The field entry built in the loop of [create_search_index]. *)
Definition field_info (field : dict) : dict :=
  let field_info : dict :=
    [("name", get_default "api_name" (VStr "") field);
     ("type", get_default "type" (VStr "") field);
     ("required", get_default "required" (VBool false) field)] in
  let field_info :=
    if present "picklist_values" field
    then set "has_picklist_values" (VBool true) field_info else field_info in
  let field_info :=
    if present "formula" field
    then set "has_formula" (VBool true) field_info else field_info in
  let field_info :=
    match get "reference_to" field with
    | Some v => set "reference_to" v field_info
    | None => field_info
    end in
  match get "length" field with
  | Some v => set "length" v field_info
  | None => field_info
  end.

(** The loop over one object's fields in [create_search_index]:
    [fields_list], [has_picklists] and [has_formulas]. *)
Fixpoint search_fields (fields : list value) : result (list value * bool * bool) :=
  match fields with
  | [] => Ok ([], false, false)
  | field :: rest =>
      field <- as_dict field ;;
      '(fields_list, has_picklists, has_formulas) <- search_fields rest ;;
      Ok (VDict (field_info field) :: fields_list,
          present "picklist_values" field || has_picklists,
          present "formula" field || has_formulas)
  end.

(** [SchemaOptimizer.CATEGORIES], in the order the dictionary lists them. *)
Definition CATEGORIES : list (string * list string) :=
  [("core", ["Account"; "Contact"; "Lead"; "User"; "Group"; "Profile"]);
   ("sales", ["Opportunity"; "Quote"; "Contract"; "Order"; "Product2";
              "PricebookEntry"; "OpportunityLineItem"; "QuoteLineItem";
              "OrderItem"]);
   ("service", ["Case"; "Solution"; "Entitlement"; "ServiceContract";
                "WorkOrder"; "WorkOrderLineItem"; "ServiceAppointment"]);
   ("marketing", ["Campaign"; "CampaignMember"; "Lead"]);
   ("activities", ["Task"; "Event"; "EmailMessage"]);
   ("healthcare", []);
   ("custom", []);
   ("other", [])].

(** [for category, obj_list in CATEGORIES.items():
         if obj_name in obj_list: ...; break] *)
Fixpoint predefined (categories : list (string * list string)) (obj_name : value)
  : option string :=
  match categories with
  | [] => None
  | (category, obj_list) :: rest =>
      if str_in (Some obj_name) obj_list then Some category
      else predefined rest obj_name
  end.

(** The category one object is filed under.  [startswith] and [endswith]
    are string methods. *)
Definition category_of (categories : list (string * list string))
    (obj_name : value) : result string :=
  match predefined categories obj_name with
  | Some category => Ok category
  | None =>
      match obj_name with
      | VStr s =>
          Ok (if startswith "HealthCloudGA__" s then "healthcare"
              else if endswith "__c" s then "custom"
              else "other")
      | _ => Raise AttributeError
      end
  end.

(** [categorized[category].append(obj)] on the [defaultdict(list)]. *)
Fixpoint bucket_append (category : string) (obj : value)
    (categorized : list (string * list value)) : list (string * list value) :=
  match categorized with
  | [] => [(category, [obj])]
  | (c, objs) :: rest =>
      if String.eqb category c then (c, (objs ++ [obj])%list) :: rest
      else (c, objs) :: bucket_append category obj rest
  end.

(** The categorizing loop of [create_categorized_schemas]. *)
Fixpoint categorize (categories : list (string * list string))
    (objects : list value) (categorized : list (string * list value))
  : result (list (string * list value)) :=
  match objects with
  | [] => Ok categorized
  | obj :: rest =>
      d <- as_dict obj ;;
      category <- category_of categories (get_default "api_name" (VStr "") d) ;;
      categorize categories rest (bucket_append category obj categorized)
  end.

(** [SchemaOptimizer.create_categorized_schemas]: the objects of each
    category file. *)
Definition create_categorized_schemas (objects : list value)
  : result (list (string * list value)) :=
  categorize CATEGORIES objects [].

(** The Categorizer in the words of the specification: the first
    membership list, in priority order, that names the object; then the
    namespace prefix; then the custom suffix; then the fallback. *)
Definition member (name : string) (l : list string) : bool :=
  existsb (String.eqb name) l.

Definition table (categories : list (string * list string)) (c : string)
  : list string :=
  match find (fun kv => String.eqb c (fst kv)) categories with
  | Some kv => snd kv
  | None => []
  end.

Definition spec_category (categories : list (string * list string))
    (api_name : string) : string :=
  if member api_name (table categories "core") then "core"
  else if member api_name (table categories "sales") then "sales"
  else if member api_name (table categories "service") then "service"
  else if member api_name (table categories "marketing") then "marketing"
  else if member api_name (table categories "activities") then "activities"
  else if startswith "HealthCloudGA__" api_name then "healthcare"
  else if endswith "__c" api_name then "custom"
  else "other".

End Splitter.

(* ================================================================== *)
(** * The single-file splitter: [scripts/split_schema_by_object.py] *)
(* ================================================================== *)

Module LegacySplitter.

(** The field entry built in the loop of [create_search_index]. *)
Definition field_info (field : dict) : dict :=
  let field_info : dict :=
    [("name", get_default "api_name" (VStr "") field);
     ("type", get_default "type" (VStr "") field);
     ("required", get_default "required" (VBool false) field)] in
  let field_info :=
    match get "picklist_values" field with
    | Some v => set "picklist_values" v field_info
    | None => field_info
    end in
  let field_info :=
    match get "reference_to" field with
    | Some v => set "reference_to" v field_info
    | None => field_info
    end in
  match get "length" field with
  | Some v => set "length" v field_info
  | None => field_info
  end.

(** The loop over one object's fields in [create_search_index]. *)
Fixpoint search_fields (fields : list value) : result (list value) :=
  match fields with
  | [] => Ok []
  | field :: rest =>
      field <- as_dict field ;;
      fields_list <- search_fields rest ;;
      Ok (VDict (field_info field) :: fields_list)
  end.

End LegacySplitter.

(* ================================================================== *)
(** * The Enricher: the single-dictionary extractor *)
(* ================================================================== *)

Module EnricherFull.

Import Enricher.

(** [SchemaEnricher.extract_field_metadata]: every attribute of one field in
    one dictionary, picklist values and formula included.  The two counters
    of [enrichment_stats] it bumps are threaded through. *)
Definition extract_field_metadata (field_metadata : dict)
    (picklists_added formulas_added : nat) : result (dict * nat * nat) :=
  let enriched_field : dict := [] in
  let field_type := get "type" field_metadata in
  '(enriched_field, picklists_added) <-
    (if str_in field_type ["picklist"; "multipicklist"] then
       picklist_values <- extract_picklist_values field_metadata ;;
       match picklist_values with
       | Some vs =>
           Ok (set "picklist_values" (VList vs) enriched_field, S picklists_added)
       | None => Ok (enriched_field, picklists_added)
       end
     else Ok (enriched_field, picklists_added)) ;;
  let enriched_field :=
    copy_if_truthy "defaultValue" "default_value" field_metadata enriched_field in
  let '(enriched_field, formulas_added) :=
    if get_truthy "calculated" field_metadata
       && get_truthy "calculatedFormula" field_metadata
    then (set "formula" (get_default "calculatedFormula" VNone field_metadata)
            enriched_field, S formulas_added)
    else (enriched_field, formulas_added) in
  let enriched_field :=
    match get "nillable" field_metadata with
    | Some (VBool false) => set "required" (VBool true) enriched_field
    | _ => enriched_field
    end in
  let enriched_field := flag_if_truthy "unique" "unique" field_metadata enriched_field in
  let enriched_field :=
    flag_if_truthy "externalId" "external_id" field_metadata enriched_field in
  enriched_field <-
    (if str_in field_type ["reference"] then
       let reference_to := get_default "referenceTo" (VList []) field_metadata in
       if truthy reference_to then
         r <- first_or_all reference_to ;;
         Ok (set "reference_to" r enriched_field)
       else Ok enriched_field
     else Ok enriched_field) ;;
  let enriched_field :=
    copy_if_truthy "controllerName" "controlling_field" field_metadata enriched_field in
  let enriched_field :=
    flag_if_truthy "dependentPicklist" "is_dependent_picklist" field_metadata
      enriched_field in
  let enriched_field := copy_if_truthy "length" "length" field_metadata enriched_field in
  let enriched_field :=
    copy_if_truthy "precision" "precision" field_metadata enriched_field in
  let enriched_field := copy_if_truthy "scale" "scale" field_metadata enriched_field in
  let enriched_field :=
    copy_if_truthy "inlineHelpText" "help_text" field_metadata enriched_field in
  let enriched_field := copy_if_truthy "label" "label" field_metadata enriched_field in
  Ok (enriched_field, picklists_added, formulas_added).

End EnricherFull.

(* ================================================================== *)
(** * The Splitter: master index flags and related relationships *)
(* ================================================================== *)

Module MasterIndex.

Import Splitter.

(** [p in s] on strings. *)
Definition is_substring (p s : string) : bool :=
  match String.index 0 p s with Some _ => true | None => false end.

(** The condition ['attr' in f and f['attr']].  On a dictionary [in] looks
    at the keys; on a list it looks for an equal item and on a string for a
    substring, and then the subscript with a string fails. *)
Definition contains_truthy (attr : string) (f : value) : result bool :=
  match f with
  | VDict d => Ok (present attr d)
  | VList l =>
      if existsb (fun x => match x with VStr s => String.eqb attr s | _ => false end) l
      then Raise TypeError else Ok false
  | VStr s => if is_substring attr s then Raise TypeError else Ok false
  | VNone | VBool _ | VInt _ => Raise TypeError
  end.

(** [any('attr' in f and f['attr'] for f in fields)]: stops at the first
    field that has the attribute. *)
Fixpoint any_truthy (attr : string) (fields : list value) : result bool :=
  match fields with
  | [] => Ok false
  | f :: rest =>
      b <- contains_truthy attr f ;;
      if b then Ok true else any_truthy attr rest
  end.

(** [len(v)] *)
Definition py_len (v : value) : result nat :=
  match v with
  | VList l => Ok (length l)
  | VStr s => Ok (String.length s)
  | VDict d => Ok (length d)
  | VNone | VBool _ | VInt _ => Raise TypeError
  end.

(** The counts and flags of one entry of the master index. *)
Record entry_flags : Type := {
  field_count : nat;
  has_picklists : bool;
  has_formulas : bool;
  has_record_types : bool;
  has_validation_rules : bool
}.

(** The part of the loop body of [SchemaOptimizer.create_index] that
    computes them, in the order the source evaluates it. *)
Definition index_flags (obj : dict) : result entry_flags :=
  let fields := get_default "fields" (VList []) obj in
  items <- iter fields ;;
  has_picklists <- any_truthy "picklist_values" items ;;
  has_formulas <- any_truthy "formula" items ;;
  field_count <- py_len fields ;;
  record_types <- py_len (get_default "record_types" (VList []) obj) ;;
  validation_rules <- py_len (get_default "validation_rules" (VList []) obj) ;;
  Ok {| field_count := field_count;
        has_picklists := has_picklists;
        has_formulas := has_formulas;
        has_record_types := Nat.ltb 0 record_types;
        has_validation_rules := Nat.ltb 0 validation_rules |}.

(** [rel.get(key) == obj_name] for an object name that is a string. *)
Definition names (key obj_name : string) (rel : dict) : bool :=
  match get key rel with
  | Some (VStr s) => String.eqb s obj_name
  | _ => false
  end.

(** [SchemaOptimizer._get_relationships_for_object] *)
Fixpoint _get_relationships_for_object (relationships : list value)
    (obj_name : string) : result (list value) :=
  match relationships with
  | [] => Ok []
  | rel :: rest =>
      d <- as_dict rel ;;
      related <- _get_relationships_for_object rest obj_name ;;
      Ok (if names "from_object" obj_name d || names "to_object" obj_name d
          then rel :: related else related)
  end.

End MasterIndex.

(* ================================================================== *)
(** * The orchestrator's object filter: [scripts/auto_generate_schema.py] *)
(* ================================================================== *)

Module Generator.

Import Str.

Definition excluded_suffixes : list string :=
  ["History"; "Share"; "Feed"; "ChangeEvent"; "Tag"].

Definition excluded_objects : list string :=
  ["AggregateResult"; "ContentVersion"; "ContentDocument"; "FeedItem";
   "FeedComment"; "ContentDocumentLink"; "EmailMessage"; "Attachment";
   "Document"; "Note"].

(** [AutoSchemaGenerator.should_retrieve_object] on an sObject name. *)
Definition should_retrieve_object (obj_name : string) : bool :=
  if endswith "__mdt" obj_name then false
  else if endswith "__e" obj_name then false
  else if endswith "__b" obj_name then false
  else if endswith "__x" obj_name then false
  else if existsb (fun suffix => endswith suffix obj_name) excluded_suffixes
  then false
  else if existsb (String.eqb obj_name) excluded_objects then false
  else true.

(** [AutoSchemaGenerator.filter_objects] *)
Definition filter_objects (all_sobjects : list string) : list string :=
  filter should_retrieve_object all_sobjects.

End Generator.

(* ================================================================== *)
(** * Vocabulary of the statements *)
(* ================================================================== *)

Section EnricherTerms.

Import Enricher.

(** [pv['value']] of an option that has one. *)
Definition value_of (pv : dict) : value := get_default "value" VNone pv.

(** An option whose [active] flag is present and [True]. *)
Definition flagged_active (pv : dict) : bool :=
  match get "active" pv with
  | Some (VBool true) => true
  | _ => false
  end.

(** Python's [l if l else None]. *)
Definition or_none (l : list value) : option (list value) :=
  match l with [] => None | _ :: _ => Some l end.

(** The extracted attributes carry distinct names, all of the fill-missing
    category. *)
Definition fill_only (d : dict) : Prop :=
  NoDup (keys d) /\ incl (keys d) fill_missing_keys.

(** An object as the Splitter leaves it, and external attributes for it. *)
Definition example_folder : object_folder :=
  {| schema_yaml :=
       {| header := ["# Salesforce Object Schema: Account"];
          body :=
            VDict [("object",
                    VDict [("api_name", VStr "Account");
                           ("fields",
                            VList [VDict [("api_name", VStr "Status");
                                          ("type", VStr "Picklist");
                                          ("label", VStr "")];
                                   VDict [("api_name", VStr "Score");
                                          ("type", VStr "Number")]])]);
                   ("metadata", VDict [("generated_date", VStr "2025-01-01T00:00:00")])] |};
     picklists_yaml := None;
     formulas_yaml := None |}.

Definition example_org_fields : org_fields_t :=
  [("Status",
    [("name", VStr "Status"); ("type", VStr "picklist"); ("label", VStr "Status");
     ("picklistValues",
      VList [VDict [("value", VStr "Open"); ("active", VBool true)];
             VDict [("value", VStr "Old"); ("active", VBool false)]])]);
   ("Score",
    [("name", VStr "Score"); ("type", VStr "double"); ("calculated", VBool true);
     ("calculatedFormula", VStr "Amount * 2"); ("precision", VInt 18)])].

(** The folder as the next run finds it: it reads [schema.yaml] back from
    what was written there; the payload files are not read. *)
Definition reread (folder : object_folder) : object_folder :=
  {| schema_yaml :=
       {| header := header (schema_yaml folder);
          body := Yaml.safe_load_dump (body (schema_yaml folder)) |};
     picklists_yaml := picklists_yaml folder;
     formulas_yaml := formulas_yaml folder |}.

(** U+0085, NEXT LINE. *)
Definition nel : string := String "194"%char (String "133"%char EmptyString).

(** An object with one field that has no help text yet, and external
    attributes whose help text holds a U+0085. *)
Definition notes_folder : object_folder :=
  {| schema_yaml :=
       {| header := ["# Salesforce Object Schema: Account"];
          body :=
            VDict [("object",
                    VDict [("api_name", VStr "Account");
                           ("fields",
                            VList [VDict [("api_name", VStr "Notes__c");
                                          ("type", VStr "Text")]])])] |};
     picklists_yaml := None;
     formulas_yaml := None |}.

Definition notes_org_fields : org_fields_t :=
  [("Notes__c",
    [("name", VStr "Notes__c"); ("type", VStr "string");
     ("inlineHelpText", VStr ("Step 1" ++ nel ++ "Step 2"))])].

End EnricherTerms.

Section SplitterTerms.

Import Splitter.

(** [obj] is an object document whose [api_name] is the string [name]. *)
Definition named (obj : value) (name : string) : Prop :=
  exists d, obj = VDict d /\ get_default "api_name" (VStr "") d = VStr name.

(** [obj] is among the objects filed under category [c]. *)
Definition filed (categorized : list (string * list value)) (c : string)
    (obj : value) : Prop :=
  exists objs, In (c, objs) categorized /\ In obj objs.

(** The names that can key a payload, one per field that has one. *)
Definition key_of (field : value) : option hkey :=
  match field with
  | VDict d =>
      match hash_key (field_name d) with
      | Ok k => Some k
      | Raise _ => None
      end
  | _ => None
  end.

Definition field_keys (fields : list value) : list hkey :=
  flat_map (fun f => match key_of f with Some k => [k] | None => [] end) fields.

(** What one field contributes to a payload under key [k]. *)
Definition own (attr : string) (k : hkey) (field : value) : option value :=
  match field with
  | VDict d =>
      if present attr d then
        match hash_key (field_name d) with
        | Ok k' => if hkey_eqb k k' then Some (get_default attr VNone d) else None
        | Raise _ => None
        end
      else None
  | _ => None
  end.

(** What the loop leaves under key [k]: the contribution of the last field
    that has one. *)
Fixpoint stored (attr : string) (k : hkey) (fields : list value) : option value :=
  match fields with
  | [] => None
  | f :: rest =>
      match stored attr k rest with
      | Some v => Some v
      | None => own attr k f
      end
  end.

(** The core entry of a field. *)
Definition core_of (obj_name : string) (field : dict) : dict :=
  let core_field :=
    if present "picklist_values" field
    then set "_note" (picklist_note obj_name) (pop "picklist_values" field)
    else field in
  if present "formula" field
  then set "_note" (formula_note obj_name) (pop "formula" core_field)
  else core_field.

Definition core_value (obj_name : string) (field : value) : value :=
  match field with
  | VDict d => VDict (core_of obj_name d)
  | _ => field
  end.

(** A field that has something to extract must have a hashable name. *)
Definition extractable (field : value) : Prop :=
  exists d, field = VDict d
    /\ (present "picklist_values" d || present "formula" d = true ->
        exists k, hash_key (field_name d) = Ok k).

(** The keys a field entry of the search index may carry. *)
Definition search_entry_keys : list string :=
  ["name"; "type"; "required"; "has_picklist_values"; "has_formula";
   "reference_to"; "length"].

(** The keys a field entry of the single-file splitter's search index may
    carry. *)
Definition legacy_entry_keys : list string :=
  ["name"; "type"; "required"; "picklist_values"; "reference_to"; "length"].

(** A presence flag: [True] when set, absent otherwise. *)
Definition flag (b : bool) : option value :=
  if b then Some (VBool true) else None.

(** A picklist field that is also calculated. *)
Definition status_field : dict :=
  [("api_name", VStr "Status"); ("type", VStr "Picklist");
   ("picklist_values", VList [VStr "Open"; VStr "Closed"]);
   ("formula", VStr "TEXT(Stage)"); ("length", VInt 40)].

End SplitterTerms.

Section ParserTerms.

Import Xml Str Parser.

(** The name a field gets: its [fullName], or else the stem of its file. *)
Definition field_name_of (field_file : file) (root : element) : string :=
  match nonempty_text (find (sf "fullName") root) with
  | Some s => s
  | None => stem (name field_file)
  end.

(** The type and the reference target a field document carries: the text
    of the first [type] element and of the first [referenceTo] element. *)
Definition type_text (root : element) : option string :=
  nonempty_text (find (sf "type") root).

Definition reference_target (root : element) : option string :=
  nonempty_text (find (sf "referenceTo") root).

Definition is_reference_type (t : string) : bool :=
  String.eqb t "Lookup" || String.eqb t "MasterDetail".

(** A leaf element of the metadata namespace. *)
Definition xml (t text : string) : element :=
  Element (sf t) (Some text) [].

(** The lookup from [Case] to [Contact]. *)
Definition contact_lookup : file :=
  {| name := "ContactId.field-meta.xml";
     content :=
       Some (Element (sf "CustomField") None
               [xml "fullName" "ContactId"; xml "label" "Contact";
                xml "type" "Lookup"; xml "referenceTo" "Contact";
                xml "relationshipName" "Cases"]) |}.

(** The entry a field document contributes to [obj_data['fields']]. *)
Definition field_entry (obj_name : string) (field_file : file) : list value :=
  match fst (parse_field field_file obj_name []) with
  | Some d => [VDict d]
  | None => []
  end.

Definition well_formed (field_file : file) : bool :=
  match content field_file with Some _ => true | None => false end.

(** A text field document, and a document that does not parse. *)
Definition text_field (n : string) : file :=
  {| name := n ++ "__c.field-meta.xml";
     content :=
       Some (Element (sf "CustomField") None
               [xml "fullName" (n ++ "__c"); xml "type" "Text"; xml "length" "80"]) |}.

Definition broken_field (n : string) : file :=
  {| name := n ++ "__c.field-meta.xml"; content := None |}.

(** Ten field documents of one object, one of which does not parse. *)
Definition ten_fields : object_dir :=
  {| dir_name := "Invoice__c";
     meta_file := None;
     fields_dir :=
       Some [text_field "J"; text_field "B"; text_field "C"; broken_field "D";
             text_field "E"; text_field "F"; text_field "G"; text_field "H";
             text_field "I"; text_field "A"];
     recordTypes_dir := None;
     validationRules_dir := None |}.

Definition api_names (fields : list value) : list (option value) :=
  map (fun f => match f with VDict d => get "api_name" d | _ => None end) fields.

(** Two enumerations of one directory: the same entries in some order. *)
Definition same_listing (a b : option (list file)) : Prop :=
  match a, b with
  | Some x, Some y => Permutation x y
  | None, None => True
  | _, _ => False
  end.

(** File names within a directory are distinct. *)
Definition distinct_names (a : option (list file)) : Prop :=
  match a with
  | Some x => NoDup (map name x)
  | None => True
  end.

Definition same_dir (d1 d2 : object_dir) : Prop :=
  dir_name d1 = dir_name d2
  /\ meta_file d1 = meta_file d2
  /\ same_listing (fields_dir d1) (fields_dir d2)
  /\ same_listing (recordTypes_dir d1) (recordTypes_dir d2)
  /\ same_listing (validationRules_dir d1) (validationRules_dir d2).

Definition dir_ok (d : object_dir) : Prop :=
  distinct_names (fields_dir d)
  /\ distinct_names (recordTypes_dir d)
  /\ distinct_names (validationRules_dir d).

Definition name_of (e : entry) : string :=
  match e with
  | Dir d => dir_name d
  | Other n => n
  end.

Definition same_entry (e1 e2 : entry) : Prop :=
  match e1, e2 with
  | Dir d1, Dir d2 => same_dir d1 d2
  | Other n1, Other n2 => n1 = n2
  | _, _ => False
  end.

(** One document tree enumerated twice: the same entries at every level,
    listed by the file system in whatever order. *)
Definition same_tree (l1 l2 : list entry) : Prop :=
  exists l, Permutation l1 l /\ Forall2 same_entry l l2.

(** Entry names are distinct within every directory of the tree. *)
Definition tree_ok (l : list entry) : Prop :=
  NoDup (map name_of l) /\ forall d, In (Dir d) l -> dir_ok d.

(** The output with its generation timestamp blanked: the metadata entry
    [generated_date] and the [# Generated:] comment line. *)
Definition without_timestamp (f : yaml_file) : yaml_file :=
  {| header := map Enricher.redact_line (header f);
     body :=
       match body f with
       | VDict d =>
           match get "salesforce_schema" d with
           | Some s =>
               VDict (set "salesforce_schema"
                        (Enricher.redact_metadata "generated_date" s) d)
           | None => body f
           end
       | other => other
       end |}.

(** Entries that agree on everything the parser reads. *)
Definition agree (d1 d2 : object_dir) : Prop := same_dir d1 d2 /\ dir_ok d1.

Definition account_dir (files : list file) : object_dir :=
  {| dir_name := "Account";
     meta_file := Some (Some (Element (sf "CustomObject") None [xml "label" "Account"]));
     fields_dir := Some files;
     recordTypes_dir := None;
     validationRules_dir := None |}.

Definition case_dir : object_dir :=
  {| dir_name := "Case";
     meta_file := None;
     fields_dir := Some [contact_lookup];
     recordTypes_dir := None;
     validationRules_dir := None |}.

End ParserTerms.

Section ParserShapes.

Import Xml Str Parser.

(** The attributes every field document is read for, up to [scale]. *)
Definition base_data (field_file : file) (root : element) : dict :=
  set_int "scale" "scale" root
    (set_int "precision" "precision" root
       (set_int "length" "length" root
          (set_bool "externalId" "external_id" root
             (set_bool "unique" "unique" root
                (set_bool "required" "required" root
                   (set_text "inlineHelpText" "help_text" root
                      (set_text "description" "description" root
                         (set_text "type" "type" root
                            (set_text "label" "label" root
                               [("api_name",
                                 VStr (field_name_of field_file root))]))))))))).

(** The attributes read for Lookup and MasterDetail fields only. *)
Definition linked_data (root : element) (field_data : dict) : dict :=
  set_text "deleteConstraint" "delete_constraint" root
    (set_text "relationshipLabel" "relationship_label" root
       (set_text "relationshipName" "relationship_name" root
          (set_text "referenceTo" "reference_to" root field_data))).

(** Picklist values, formula and default value, read last. *)
Definition finished_data (root : element) (field_data : dict) : dict :=
  set_text "defaultValue" "default_value" root
    (set_text "formula" "formula" root
       (if str_in (get "type" field_data) ["Picklist"; "MultiselectPicklist"]
        then match picklist_texts root with
             | [] => field_data
             | v :: l => set "picklist_values" (VList (v :: l)) field_data
             end
        else field_data)).

(** The field a parsed document gives. *)
Definition field_of (field_file : file) (root : element) : dict :=
  let base := base_data field_file root in
  finished_data root
    (if str_in (get "type" base) ["Lookup"; "MasterDetail"]
     then linked_data root base else base).

(** Text made of ASCII digits only, at least one. *)
Definition ascii_digits (s : string) : bool :=
  match Utf8.bytes s with
  | [] => false
  | l => forallb (fun b => (48 <=? b)%N && (b <=? 57)%N) l
  end.

(** The number such a text writes in base ten. *)
Definition decimal_value (s : string) : Z :=
  fold_left (fun acc b => (10 * acc + Z.of_N (b - 48))%Z) (Utf8.bytes s) 0%Z.

(** An ASCII code no integer literal contains: neither a digit, an
    underscore or a sign, nor white space. *)
Definition foreign_code (b : N) : bool :=
  (b <? 128)%N
  && negb (((48 <=? b)%N && (b <=? 57)%N) || (b =? 95)%N || (b =? 43)%N
           || (b =? 45)%N || is_space b).

Definition foreign (c : ascii) : bool := foreign_code (N_of_ascii c).

(** The text an attribute is read from. *)
Definition attr_text (t : string) (root : element) : option string :=
  nonempty_text (find (sf t) root).


(** A picklist field with two values. *)
Definition stage_picklist : file :=
  {| name := "Stage__c.field-meta.xml";
     content :=
       Some (Element (sf "CustomField") None
               [xml "fullName" "Stage__c"; xml "type" "Picklist";
                Element (sf "valueSet") (Some " ")
                  [Element (sf "valueSetDefinition") None
                     [Element (sf "value") None [xml "fullName" "Open"];
                      Element (sf "value") None [xml "fullName" "Closed"]]]]) |}.

(** A relationship edge that starts at [obj_name] and repeats the
    attributes of the reference field [field_data]. *)
Definition mirrors (obj_name : string) (field_data edge : dict) : Prop :=
  get "from_object" edge = Some (VStr obj_name)
  /\ get "from_field" edge = get "api_name" field_data
  /\ get "to_object" edge = get "reference_to" field_data
  /\ get "relationship_type" edge = get "type" field_data
  /\ (exists target, get "reference_to" field_data = Some (VStr target))
  /\ (get "type" field_data = Some (VStr "Lookup")
      \/ get "type" field_data = Some (VStr "MasterDetail")).

(** The edges of [edges] all mirror a field of [fields]. *)
Definition edges_of (obj_name : string) (fields edges : list value) : Prop :=
  forall e, In e edges ->
    exists edge field_data,
      e = VDict edge /\ In (VDict field_data) fields
      /\ mirrors obj_name field_data edge.

End ParserShapes.

Section SplitterShapes.

Import Splitter.

(** A field that has the attribute with a truthy value. *)
Definition has_attr (attr : string) (field : value) : bool :=
  match field with
  | VDict d => present attr d
  | _ => false
  end.

(** Whether a payload file was written. *)
Definition written (file : option payload) : bool :=
  match file with Some _ => true | None => false end.

(** The entry a payload file holds under a field name, if the file was
    written and holds one. *)
Definition lookup_file (file : option payload) (k : hkey) : option value :=
  match file with
  | Some p => payload_get k p
  | None => None
  end.

(** Two picklist fields that share their name. *)
Definition twice_named : list value :=
  [VDict [("api_name", VStr "Stage"); ("picklist_values", VList [VStr "Old"])];
   VDict [("api_name", VStr "Owner"); ("formula", VStr "")];
   VDict [("api_name", VStr "Stage"); ("picklist_values", VList [VStr "New"])]].

End SplitterShapes.


Section EnricherShapes.

Import Enricher.

(** What the merge loop guarantees of a field [v] and its enriched version
    [v']: the same name, no attribute lost, and in the folder layout the
    same [picklist_values] and [formula]. *)
Definition kept (is_new_structure : bool) (v v' : value) : Prop :=
  exists field field',
    v = VDict field /\ v' = VDict field'
    /\ get "api_name" field' = get "api_name" field
    /\ (forall k, get k field <> None -> get k field' <> None)
    /\ (is_new_structure = true ->
        get "picklist_values" field' = get "picklist_values" field
        /\ get "formula" field' = get "formula" field).

(** Two attribute dictionaries that agree outside [picklist_values] and
    [formula]. *)
Definition agree_outside_payload (e e0 : dict) : Prop :=
  forall k, k <> "picklist_values" -> k <> "formula" -> get k e = get k e0.

(** A folder whose payload files were written by an earlier run. *)
Definition stale_folder : object_folder :=
  {| schema_yaml :=
       {| header := [];
          body := VDict [("object",
                          VDict [("api_name", VStr "Account");
                                 ("fields",
                                  VList [VDict [("api_name", VStr "Rating")]])])] |};
     picklists_yaml :=
       Some {| header := ["# Picklist Values for Account"];
               body := VDict [("picklists",
                               VDict [("Rating", VList [VStr "Hot"])])] |};
     formulas_yaml := None |}.

(** The live system reports the picklist with no active value left. *)
Definition retired_org_fields : org_fields_t :=
  [("Rating",
    [("name", VStr "Rating"); ("type", VStr "picklist");
     ("picklistValues",
      VList [VDict [("value", VStr "Hot"); ("active", VBool false)]])])].

End EnricherShapes.


Section ObjectShapes.

Import Xml Str Parser MasterIndex.

(** What the entries of a list carry under [key]. *)
Definition entry_names (key : string) (entries : list value) : list (option value) :=
  map (fun v => match v with VDict d => get key d | _ => None end) entries.

(** The names of the documents that parse: [fullName], or the file stem. *)
Definition document_names (files : list file) : list (option value) :=
  flat_map (fun f => match content f with
                     | Some root => [Some (VStr (full_name_or_stem f root))]
                     | None => []
                     end) files.

(** [dir.glob('*' + suffix)]: the documents of a directory whose name ends
    with the suffix, as the directory lists them. *)
Definition matching (suffix : string) (dir : option (list file)) : list file :=
  match dir with
  | Some files => filter (fun f => endswith suffix (name f)) files
  | None => []
  end.

(** A relationship edge with [obj_name] at one of its ends. *)
Definition involves (obj_name : string) (rel : value) : bool :=
  match rel with
  | VDict d => names "from_object" obj_name d || names "to_object" obj_name d
  | _ => false
  end.

(** An object folder with one lookup field, one record type that parses
    and one that does not. *)
Definition case_folder : object_dir :=
  {| dir_name := "Case";
     meta_file := None;
     fields_dir := Some [contact_lookup];
     recordTypes_dir :=
       Some [{| name := "Support.recordType-meta.xml";
                content := Some (Element (sf "RecordType") None
                                   [xml "label" "Support"]) |};
             {| name := "Broken.recordType-meta.xml"; content := None |}];
     validationRules_dir := None |}.

End ObjectShapes.


Section CategoryShapes.

Import Splitter.

(** The object is one the Categorizer files under category [c]. *)
Definition in_category (c : string) (obj : value) : bool :=
  match obj with
  | VDict d =>
      match category_of CATEGORIES (get_default "api_name" (VStr "") d) with
      | Ok c' => String.eqb c c'
      | Raise _ => false
      end
  | _ => false
  end.

(** Three objects of two categories. *)
Definition mixed_objects : list value :=
  [VDict [("api_name", VStr "Account")];
   VDict [("api_name", VStr "Invoice__c")];
   VDict [("api_name", VStr "Contact")]].

End CategoryShapes.


Section FailureShapes.

Import Enricher.

(** A picklist option that counts as active and has no [value]. *)
Definition valueless_active (pv : value) : Prop :=
  exists d, pv = VDict d /\ option_active d = true /\ get "value" d = None.

(** External attributes of a picklist with such an option. *)
Definition valueless_picklist : dict :=
  [("name", VStr "Stage"); ("type", VStr "picklist");
   ("picklistValues",
    VList [VDict [("value", VStr "Open"); ("active", VBool true)];
           VDict [("label", VStr "Closed")]])].

End FailureShapes.


(* ================================================================== *)
(** * Dictionary facts *)
(* ================================================================== *)

Section DictFacts.

Lemma get_set_same k v d : get k (set k v d) = Some v.
Proof.
  induction d as [|[k' v'] d IH]; simpl.
  - now rewrite String.eqb_refl.
  - destruct (String.eqb k k') eqn:E; simpl; rewrite E; auto.
Qed.

Lemma get_set_other k k' v d : k <> k' -> get k (set k' v d) = get k d.
Proof.
  intros Hne. induction d as [|[k0 v0] d IH]; simpl.
  - apply String.eqb_neq in Hne. now rewrite Hne.
  - destruct (String.eqb k' k0) eqn:E; simpl.
    + apply String.eqb_eq in E; subst k0.
      apply String.eqb_neq in Hne. now rewrite Hne.
    + now rewrite IH.
Qed.

(** Storing the value a key already holds leaves the dictionary as it is,
    key order included. *)
Lemma set_same k v d : get k d = Some v -> set k v d = d.
Proof.
  induction d as [|[k' v'] d IH]; simpl; [discriminate|].
  destruct (String.eqb k k') eqn:E.
  - now intros [= ->].
  - intros H. now rewrite IH.
Qed.

Lemma get_pop_same k d : get k (pop k d) = None.
Proof.
  induction d as [|[k' v'] d IH]; simpl; auto.
  destruct (String.eqb k k') eqn:E; simpl; [|rewrite E]; auto.
Qed.

Lemma get_pop_other k k' d : k <> k' -> get k (pop k' d) = get k d.
Proof.
  intros Hne. induction d as [|[k0 v0] d IH]; simpl; auto.
  destruct (String.eqb k' k0) eqn:E; simpl.
  - apply String.eqb_eq in E; subst k0.
    apply String.eqb_neq in Hne. now rewrite Hne.
  - now rewrite IH.
Qed.

Lemma pop_absent k d : get k d = None -> pop k d = d.
Proof.
  induction d as [|[k' v'] d IH]; simpl; auto.
  destruct (String.eqb k k'); [discriminate|].
  intros H. now rewrite IH.
Qed.

Lemma get_In_keys k v d : get k d = Some v -> In k (keys d).
Proof.
  induction d as [|[k' v'] d IH]; simpl; [discriminate|].
  destruct (String.eqb k k') eqn:E.
  - apply String.eqb_eq in E. auto.
  - auto.
Qed.

Lemma get_None_keys k d : get k d = None <-> ~ In k (keys d).
Proof.
  induction d as [|[k' v'] d IH]; simpl.
  - tauto.
  - destruct (String.eqb k k') eqn:E.
    + apply String.eqb_eq in E. split; [discriminate | intros H; exfalso; auto].
    + apply String.eqb_neq in E. rewrite IH. split.
      * intros H [H'|H']; [congruence | auto].
      * intros H H'; auto.
Qed.

Lemma keys_set k v d : forall x, In x (keys (set k v d)) <-> x = k \/ In x (keys d).
Proof.
  induction d as [|[k' v'] d IH]; simpl; intros x.
  - intuition.
  - destruct (String.eqb k k') eqn:E; simpl.
    + apply String.eqb_eq in E; subst. intuition.
    + rewrite IH. intuition.
Qed.

End DictFacts.

(* ================================================================== *)
(** * Enricher: the active-only picklist filter *)
(* ================================================================== *)

Section ActiveOnly.

Import Enricher.

(** The comprehension is a filter followed by a projection. *)
Lemma active_values_filter (ds : list dict) :
  (forall d, In d ds -> option_active d = true -> get "value" d <> None) ->
  active_values (map VDict ds) = Ok (map value_of (filter option_active ds)).
Proof.
  induction ds as [|d ds IH]; intros Hval; simpl; [reflexivity|].
  assert (Hd := Hval d (or_introl eq_refl)).
  rewrite IH by (intros d' Hin; apply Hval; now right).
  destruct (option_active d) eqn:Hact; simpl; [|reflexivity].
  unfold subscript, value_of, get_default.
  destruct (get "value" d) as [v|]; [reflexivity|].
  now exfalso; apply Hd.
Qed.

Lemma extract_picklist_values_filter (fm : dict) (ds : list dict) :
  str_in (get "type" fm) ["picklist"; "multipicklist"] = true ->
  get "picklistValues" fm = Some (VList (map VDict ds)) ->
  (forall d, In d ds -> option_active d = true -> get "value" d <> None) ->
  extract_picklist_values fm
  = Ok (or_none (map value_of (filter option_active ds))).
Proof.
  intros Hty Hpv Hval. unfold extract_picklist_values, get_default.
  rewrite Hty, Hpv. simpl.
  rewrite (active_values_filter ds Hval). simpl.
  now destruct (map value_of (filter option_active ds)).
Qed.

(** With the flag present as a boolean, the default plays no part. *)
Lemma option_active_flagged (d : dict) (b : bool) :
  get "active" d = Some (VBool b) -> option_active d = flagged_active d.
Proof.
  intros H. unfold option_active, flagged_active, get_default. rewrite H.
  now destruct b.
Qed.

Lemma filter_ext_in_bool {A : Type} (f g : A -> bool) (l : list A) :
  (forall x, In x l -> f x = g x) -> filter f l = filter g l.
Proof.
  induction l as [|x l IH]; intros H; simpl; [reflexivity|].
  rewrite (H x (or_introl eq_refl)), IH; [reflexivity|].
  intros y Hy. apply H. now right.
Qed.

(** C6.  For a picklist or multiselect-picklist field of the external
    source whose options each carry a value and an [active] flag, the
    extracted values are exactly the values of the options flagged active,
    in their original order, every inactive option dropped.  (The function
    hands the list back through [l if l else None].) *)
Theorem extract_picklist_values_active_only (fm : dict) (ds : list dict) :
  str_in (get "type" fm) ["picklist"; "multipicklist"] = true ->
  get "picklistValues" fm = Some (VList (map VDict ds)) ->
  (forall d, In d ds ->
     exists v b, get "value" d = Some v /\ get "active" d = Some (VBool b)) ->
  extract_picklist_values fm
  = Ok (or_none (map value_of (filter flagged_active ds))).
Proof.
  intros Hty Hpv Hopt.
  rewrite (extract_picklist_values_filter fm ds Hty Hpv).
  - f_equal. f_equal. f_equal. apply filter_ext_in_bool.
    intros d Hin. destruct (Hopt d Hin) as (v & b & _ & Hb).
    exact (option_active_flagged d b Hb).
  - intros d Hin _. destruct (Hopt d Hin) as (v & b & Hv & _).
    rewrite Hv. discriminate.
Qed.

(** The example of the specification: options A (active) and B (inactive)
    give exactly [["A"]]. *)
Lemma extract_picklist_values_active_only_witness :
  let ds := [[("value", VStr "A"); ("active", VBool true)];
             [("value", VStr "B"); ("active", VBool false)]] in
  let fm := [("type", VStr "picklist"); ("picklistValues", VList (map VDict ds))] in
  extract_picklist_values fm = Ok (Some [VStr "A"]).
Proof.
  intros ds fm.
  refine (eq_trans (extract_picklist_values_active_only fm ds _ _ _) _).
  - reflexivity.
  - reflexivity.
  - intros d [<-|[<-|[]]]; eexists; eexists; split; reflexivity.
  - reflexivity.
Defined.

(** C10.  An option with no [active] flag at all counts as active and its
    value is extracted; and when every option is inactive the function
    returns [None], not an empty list, so the merge records no picklist
    entry for the field. *)
Theorem extract_picklist_values_default_and_none (fm : dict) (ds : list dict) :
  str_in (get "type" fm) ["picklist"; "multipicklist"] = true ->
  get "picklistValues" fm = Some (VList (map VDict ds)) ->
  (forall d, In d ds -> option_active d = true -> get "value" d <> None) ->
  (forall d v, In d ds -> get "active" d = None -> get "value" d = Some v ->
     exists vs, extract_picklist_values fm = Ok (Some vs) /\ In v vs)
  /\ ((forall d, In d ds -> option_active d = false) ->
      extract_picklist_values fm = Ok None
      /\ forall is_new_structure field_name field st,
           merge_picklist is_new_structure field_name fm field st = Ok (field, st)).
Proof.
  intros Hty Hpv Hval.
  pose proof (extract_picklist_values_filter fm ds Hty Hpv Hval) as Hex.
  split.
  - intros d v Hin Hflag Hv.
    assert (Hact : option_active d = true).
    { unfold option_active, get_default. now rewrite Hflag. }
    assert (Hmem : In v (map value_of (filter option_active ds))).
    { apply in_map_iff. exists d. split.
      - unfold value_of, get_default. now rewrite Hv.
      - apply filter_In. now split. }
    rewrite Hex. destruct (map value_of (filter option_active ds)) as [|x l].
    + destruct Hmem.
    + exists (x :: l). split; [reflexivity | exact Hmem].
  - intros Hall.
    assert (Hnone : extract_picklist_values fm = Ok None).
    { rewrite Hex. replace (filter option_active ds) with (@nil dict); [reflexivity|].
      symmetry. clear -Hall. induction ds as [|d ds IH]; simpl; [reflexivity|].
      rewrite (Hall d (or_introl eq_refl)). apply IH.
      intros d' Hd'. apply Hall. now right. }
    split; [exact Hnone|].
    intros is_new field_name field st. unfold merge_picklist.
    rewrite Hty, Hnone. reflexivity.
Qed.

Lemma extract_picklist_values_default_and_none_witness :
  let flagless := [[("value", VStr "A")]; [("value", VStr "B"); ("active", VBool false)]] in
  let retired := [[("value", VStr "B"); ("active", VBool false)]] in
  let fm ds := [("type", VStr "picklist"); ("picklistValues", VList (map VDict ds))] in
  (exists vs, extract_picklist_values (fm flagless) = Ok (Some vs) /\ In (VStr "A") vs)
  /\ extract_picklist_values (fm retired) = Ok None
  /\ merge_picklist true "Status" (fm retired) [("api_name", VStr "Status")] init_state
     = Ok ([("api_name", VStr "Status")], init_state).
Proof.
  intros flagless retired fm.
  assert (Hval : forall ds, (forall d, In d ds -> get "value" d <> None) ->
            forall d, In d ds -> option_active d = true -> get "value" d <> None)
    by (intros ds H d Hin _; now apply H).
  split; [|split].
  - refine (proj1 (extract_picklist_values_default_and_none (fm flagless) flagless
                     eq_refl eq_refl _) [("value", VStr "A")] (VStr "A") _ eq_refl eq_refl).
    + apply Hval. intros d [<-|[<-|[]]]; discriminate.
    + now left.
  - refine (proj1 (proj2 (extract_picklist_values_default_and_none (fm retired) retired
                     eq_refl eq_refl _) _)).
    + apply Hval. intros d [<-|[]]; discriminate.
    + intros d [<-|[]]. reflexivity.
  - refine (proj2 (proj2 (extract_picklist_values_default_and_none (fm retired) retired
                     eq_refl eq_refl _) _) true "Status" _ init_state).
    + apply Hval. intros d [<-|[]]; discriminate.
    + intros d [<-|[]]. reflexivity.
Defined.

End ActiveOnly.

(* ================================================================== *)
(** * Enricher: the fill-missing merge *)
(* ================================================================== *)

Section FillMissing.

Import Enricher.

Lemma set_set_same k v v' d : set k v (set k v' d) = set k v d.
Proof.
  induction d as [|[k0 v0] d IH]; simpl.
  - now rewrite String.eqb_refl.
  - destruct (String.eqb k k0) eqn:E; simpl; rewrite E; [reflexivity|].
    now rewrite IH.
Qed.

Lemma keys_set_nodup k v d : NoDup (keys d) -> NoDup (keys (set k v d)).
Proof.
  induction d as [|[k0 v0] d IH]; simpl; intros H.
  - constructor; [intros [] | constructor].
  - inversion H as [|? ? Hnotin Hnd]; subst.
    destruct (String.eqb k k0) eqn:E; simpl.
    + now constructor.
    + constructor; [|now apply IH].
      intros Hin. apply keys_set in Hin. destruct Hin as [->|Hin]; [|auto].
      now rewrite String.eqb_refl in E.
Qed.

(** The condition [key not in field or not field[key]] is [not field.get(key)]. *)
Lemma fill_condition key field :
  negb (mem key field) || negb (get_truthy key field) = negb (get_truthy key field).
Proof.
  unfold mem, get_truthy. destruct (get key field); simpl; [reflexivity|reflexivity].
Qed.

Lemma fill_missing_get (enriched_data : dict) :
  NoDup (keys enriched_data) ->
  forall field n k,
    get k (fst (fill_missing enriched_data field n))
    = if get_truthy k field then get k field
      else match get k enriched_data with
           | Some v => Some v
           | None => get k field
           end.
Proof.
  induction enriched_data as [|[key value] rest IH]; intros Hnd field n k; simpl.
  - now destruct (get_truthy k field).
  - inversion Hnd as [|? ? Hnotin Hnd']; subst.
    rewrite fill_condition.
    destruct (String.eqb k key) eqn:E.
    + apply String.eqb_eq in E; subst key.
      assert (Hrest : get k rest = None) by now apply get_None_keys.
      destruct (get_truthy k field) eqn:Ht; simpl; rewrite (IH Hnd'), Hrest.
      * now rewrite Ht.
      * rewrite get_set_same.
        unfold get_truthy. rewrite get_set_same. now destruct (truthy value).
    + apply String.eqb_neq in E.
      destruct (get_truthy key field); simpl; rewrite (IH Hnd'); [reflexivity|].
      unfold get_truthy. now rewrite (get_set_other k key value field E).
Qed.

(** Merging the same external attributes again changes nothing, key order
    included. *)
Lemma fill_missing_idem (enriched_data : dict) :
  NoDup (keys enriched_data) ->
  forall field n m,
    fst (fill_missing enriched_data (fst (fill_missing enriched_data field n)) m)
    = fst (fill_missing enriched_data field n).
Proof.
  induction enriched_data as [|[key value] rest IH]; intros Hnd field n m;
    [reflexivity|].
  inversion Hnd as [|? ? Hnotin Hnd']; subst.
  assert (Hrest : get key rest = None) by now apply get_None_keys.
  cbn [fill_missing]. rewrite !fill_condition.
  assert (Hkeep : forall g c, get key (fst (fill_missing rest g c)) = get key g).
  { intros g c. rewrite (fill_missing_get rest Hnd'), Hrest.
    now destruct (get_truthy key g). }
  destruct (get_truthy key field) eqn:Ht; cbn [negb].
  - assert (Ht' : get_truthy key (fst (fill_missing rest field n)) = true)
      by (unfold get_truthy in *; now rewrite Hkeep).
    rewrite Ht'. cbn [negb]. apply IH; assumption.
  - set (g := set key value field).
    assert (Hg : get key (fst (fill_missing rest g (S n))) = Some value)
      by (rewrite Hkeep; apply get_set_same).
    destruct (get_truthy key (fst (fill_missing rest g (S n)))); cbn [negb].
    + apply IH; assumption.
    + rewrite (set_same _ _ _ Hg). apply IH; assumption.
Qed.

Lemma fill_only_set k v d :
  In k fill_missing_keys -> fill_only d -> fill_only (set k v d).
Proof.
  intros Hk [Hnd Hincl]. split; [now apply keys_set_nodup|].
  intros x Hx. apply keys_set in Hx. destruct Hx as [->|Hx]; auto.
Qed.

Lemma fill_only_copy src dst fm d :
  In dst fill_missing_keys -> fill_only d -> fill_only (copy_if_truthy src dst fm d).
Proof.
  intros Hk Hd. unfold copy_if_truthy.
  destruct (get src fm) as [v|]; [|assumption].
  destruct (truthy v); [now apply fill_only_set | assumption].
Qed.

Lemma fill_only_flag src dst fm d :
  In dst fill_missing_keys -> fill_only d -> fill_only (flag_if_truthy src dst fm d).
Proof.
  intros Hk Hd. unfold flag_if_truthy.
  destruct (get_truthy src fm); [now apply fill_only_set | assumption].
Qed.

Ltac fill_key := unfold fill_missing_keys; simpl; tauto.

Lemma extracted_fill_only (org_field enriched_data : dict) :
  _extract_non_picklist_formula_metadata org_field = Ok enriched_data ->
  fill_only enriched_data.
Proof.
  unfold _extract_non_picklist_formula_metadata.
  set (e0 := flag_if_truthy "externalId" "external_id" org_field _).
  assert (H0 : fill_only e0).
  { subst e0. apply fill_only_flag; [fill_key|].
    apply fill_only_flag; [fill_key|].
    assert (H : fill_only (copy_if_truthy "defaultValue" "default_value" org_field []))
      by (apply fill_only_copy; [fill_key | split; [constructor | intros x []]]).
    destruct (get "nillable" org_field) as [[| [|] | | | |]|]; try exact H.
    apply fill_only_set; [fill_key | exact H]. }
  clearbody e0.
  set (mid := if str_in (get "type" org_field) ["reference"] then _ else _).
  assert (Hmid : forall e1, mid = Ok e1 -> fill_only e1).
  { subst mid. intros e1.
    destruct (str_in (get "type" org_field) ["reference"]);
      [|now intros [= <-]].
    destruct (truthy _); [|now intros [= <-]].
    destruct (first_or_all _) as [r|]; simpl; [|discriminate].
    intros [= <-]. apply fill_only_set; [fill_key | exact H0]. }
  destruct mid as [e1|]; simpl; [|discriminate].
  specialize (Hmid e1 eq_refl). intros [= <-].
  repeat (first [apply fill_only_copy | apply fill_only_flag]; [fill_key|]).
  exact Hmid.
Qed.

End FillMissing.

Section MergeField.

Import Enricher.

Lemma fill_key_not_payload key :
  In key fill_missing_keys ->
  key <> "picklist_values" /\ key <> "formula" /\ key <> "api_name".
Proof.
  unfold fill_missing_keys. simpl. intros H.
  repeat (destruct H as [<-|H]; [repeat split; discriminate|]).
  destruct H.
Qed.

Lemma fill_missing_frame (enriched_data field : dict) (n : nat) (k : string) :
  fill_only enriched_data -> ~ In k fill_missing_keys ->
  get k (fst (fill_missing enriched_data field n)) = get k field.
Proof.
  intros [Hnd Hincl] Hk. rewrite (fill_missing_get _ Hnd).
  assert (Hnone : get k enriched_data = None).
  { apply get_None_keys. intros Hin. apply Hk, Hincl, Hin. }
  rewrite Hnone. now destruct (get_truthy k field).
Qed.

Lemma merge_picklist_frame b name org_field field st field1 st1 k :
  merge_picklist b name org_field field st = Ok (field1, st1) ->
  k <> "picklist_values" -> get k field1 = get k field.
Proof.
  unfold merge_picklist. intros H Hk.
  destruct (str_in _ _); [|now injection H as <- _].
  destruct (extract_picklist_values org_field) as [[vs|]|]; simpl in H;
    [|now injection H as <- _|discriminate].
  injection H as <- _. destruct b; [reflexivity|].
  now apply get_set_other.
Qed.

Lemma merge_formula_frame b name org_field field st field2 st2 k :
  merge_formula b name org_field field st = (field2, st2) ->
  k <> "formula" -> get k field2 = get k field.
Proof.
  unfold merge_formula. cbv zeta. intros H Hk.
  destruct (_ && _); [|now injection H as <- _].
  injection H as <- _. destruct b; [reflexivity|].
  now apply get_set_other.
Qed.

(** Running the picklist step again, on a field that already holds what the
    first run stored, neither changes the field nor the payloads. *)
Lemma merge_picklist_again b name org_field field st field1 st1 :
  merge_picklist b name org_field field st = Ok (field1, st1) ->
  forall g st2,
    get "picklist_values" g = get "picklist_values" field1 ->
    picklists_data st2 = picklists_data st ->
    formulas_data st2 = formulas_data st ->
    exists st2',
      merge_picklist b name org_field g st2 = Ok (g, st2')
      /\ picklists_data st2' = picklists_data st1
      /\ formulas_data st2' = formulas_data st1.
Proof.
  unfold merge_picklist. intros H g st2 Hg Hpd Hfd.
  destruct (str_in _ _).
  - destruct (extract_picklist_values org_field) as [[vs|]|]; simpl in *;
      [| |discriminate].
    + injection H as <- <-.
      assert (Hset : (if b then g else set "picklist_values" (VList vs) g) = g).
      { destruct b; [reflexivity|].
        rewrite get_set_same in Hg. exact (set_same _ _ _ Hg). }
      rewrite Hset. eexists. split; [reflexivity|].
      simpl. rewrite Hpd, Hfd. split; reflexivity.
    + injection H as <- <-. now exists st2.
  - injection H as <- <-. now exists st2.
Qed.

Lemma merge_formula_again b name org_field field st field2 st2 :
  merge_formula b name org_field field st = (field2, st2) ->
  forall g st3,
    get "formula" g = get "formula" field2 ->
    picklists_data st3 = picklists_data st ->
    formulas_data st3 = formulas_data st ->
    exists st3',
      merge_formula b name org_field g st3 = (g, st3')
      /\ picklists_data st3' = picklists_data st2
      /\ formulas_data st3' = formulas_data st2.
Proof.
  unfold merge_formula. cbv zeta. intros H g st3 Hg Hpd Hfd.
  destruct (_ && _).
  - injection H as <- <-.
    assert (Hset : (if b then g
                    else set "formula" (get_default "calculatedFormula" VNone org_field) g)
                   = g).
    { destruct b; [reflexivity|].
      rewrite get_set_same in Hg. exact (set_same _ _ _ Hg). }
    rewrite Hset. eexists. split; [reflexivity|].
    simpl. rewrite Hpd, Hfd. split; reflexivity.
  - injection H as <- <-. now exists st3.
Qed.

(** The shape of one pass of the loop body. *)
Lemma enrich_field_inv b org_fields st v v' st' :
  enrich_field b org_fields st v = Ok (v', st') ->
  exists field, v = VDict field /\
    ((find_org_field (get "api_name" field) org_fields = Ok None
      /\ v' = VDict field /\ st' = st)
     \/ exists name org_field field1 st1 field2 st2 enriched_data,
          find_org_field (get "api_name" field) org_fields
          = Ok (Some (name, org_field))
          /\ merge_picklist b name org_field field st = Ok (field1, st1)
          /\ merge_formula b name org_field field1 st1 = (field2, st2)
          /\ _extract_non_picklist_formula_metadata org_field = Ok enriched_data
          /\ v' = VDict (fst (fill_missing enriched_data field2 (enriched_count st2)))
          /\ picklists_data st' = picklists_data st2
          /\ formulas_data st' = formulas_data st2).
Proof.
  unfold enrich_field. intros H.
  destruct v as [| | | | |field]; try discriminate. simpl in H.
  exists field. split; [reflexivity|].
  destruct (find_org_field _ _) as [[[name org_field]|]|]; simpl in H;
    [| |discriminate].
  - right.
    destruct (merge_picklist _ _ _ _ _) as [[field1 st1]|] eqn:Hp; simpl in H;
      [|discriminate].
    destruct (merge_formula _ _ _ _ _) as [field2 st2] eqn:Hf.
    destruct (_extract_non_picklist_formula_metadata _) as [ed|] eqn:He;
      simpl in H; [|discriminate].
    destruct (fill_missing _ _ _) as [field3 n] eqn:Hfill.
    injection H as <- <-.
    exists name, org_field, field1, st1, field2, st2, ed.
    rewrite Hfill. simpl. repeat split; first [assumption | reflexivity].
  - left. injection H as <- <-. repeat split; reflexivity.
Qed.

(** C7.  For every attribute of the fill-missing category and every field
    the merge processes, an existing truthy value is left as it is; the
    value changes only when the attribute was absent or falsy, and then it
    becomes the value extracted from the external attributes. *)
Theorem enrich_field_fill_missing b org_fields st field field' st' key :
  In key fill_missing_keys ->
  enrich_field b org_fields st (VDict field) = Ok (VDict field', st') ->
  (get_truthy key field = true -> get key field' = get key field)
  /\ (get key field' <> get key field ->
      get_truthy key field = false
      /\ exists name org_field enriched_data v,
           find_org_field (get "api_name" field) org_fields
           = Ok (Some (name, org_field))
           /\ _extract_non_picklist_formula_metadata org_field = Ok enriched_data
           /\ get key enriched_data = Some v
           /\ get key field' = Some v).
Proof.
  intros Hkey H.
  destruct (fill_key_not_payload key Hkey) as (Hpv & Hfo & _).
  destruct (enrich_field_inv _ _ _ _ _ _ H) as (f & [= <-] & Hcase).
  destruct Hcase as [(_ & [= <-] & _) | Hcase].
  - split; [reflexivity | intros Hne; now exfalso].
  - destruct Hcase as (name & org_field & f1 & st1 & f2 & st2 & ed
                       & Hfind & Hp & Hf & He & [= ->] & _).
    assert (Hsame : get key f2 = get key field).
    { rewrite (merge_formula_frame _ _ _ _ _ _ _ key Hf Hfo).
      exact (merge_picklist_frame _ _ _ _ _ _ _ key Hp Hpv). }
    destruct (extracted_fill_only _ _ He) as [Hnd _].
    rewrite (fill_missing_get ed Hnd).
    assert (Ht : get_truthy key f2 = get_truthy key field)
      by (unfold get_truthy; now rewrite Hsame).
    rewrite Ht, Hsame.
    destruct (get_truthy key field); split; try reflexivity; try discriminate.
    + intros Hne. now exfalso.
    + intros Hne. split; [reflexivity|].
      destruct (get key ed) as [v|] eqn:Hv; [|now exfalso].
      exists name, org_field, ed, v. repeat split; assumption.
Qed.

Lemma enrich_field_fill_missing_witness :
  let field := [("api_name", VStr "Name"); ("label", VStr "Existing"); ("length", VInt 0)] in
  let org_fields :=
    [("Name", [("name", VStr "Name"); ("type", VStr "string");
               ("label", VStr "Org Label"); ("length", VInt 80)])] in
  exists field' st',
    enrich_field true org_fields init_state (VDict field) = Ok (VDict field', st')
    /\ get "label" field' = Some (VStr "Existing")
    /\ get "length" field' = Some (VInt 80)
    /\ get_truthy "length" field = false.
Proof.
  intros field org_fields. eexists. eexists. split; [reflexivity|].
  split; [|split].
  - refine (proj1 (enrich_field_fill_missing true org_fields init_state field _ _
                     "label" _ eq_refl) eq_refl).
    unfold fill_missing_keys; simpl; tauto.
  - reflexivity.
  - refine (proj1 (proj2 (enrich_field_fill_missing true org_fields init_state field
                            _ _ "length" _ eq_refl) _)).
    + unfold fill_missing_keys; simpl; tauto.
    + discriminate.
Defined.

End MergeField.

(* ================================================================== *)
(** * Enricher: idempotence of the merge *)
(* ================================================================== *)

Section MergeIdempotent.

Import Enricher.

Lemma enrich_field_again b org_fields st v v' st' :
  enrich_field b org_fields st v = Ok (v', st') ->
  forall st2,
    picklists_data st2 = picklists_data st ->
    formulas_data st2 = formulas_data st ->
    exists st2',
      enrich_field b org_fields st2 v' = Ok (v', st2')
      /\ picklists_data st2' = picklists_data st'
      /\ formulas_data st2' = formulas_data st'.
Proof.
  intros H st2 Hpd Hfd.
  destruct (enrich_field_inv _ _ _ _ _ _ H) as (f & -> & Hcase).
  destruct Hcase as [(Hfind & -> & ->) | Hcase].
  - exists st2. unfold enrich_field. simpl. rewrite Hfind. simpl. auto.
  - destruct Hcase as (name & org_field & f1 & st1 & f2 & s2 & ed
                       & Hfind & Hp & Hf & He & -> & Hpd' & Hfd').
    pose proof (extracted_fill_only _ _ He) as Hed.
    set (f3 := fst (fill_missing ed f2 (enriched_count s2))).
    assert (Hframe : forall k, ~ In k fill_missing_keys -> get k f3 = get k f2)
      by (intros k Hk; apply fill_missing_frame; assumption).
    assert (Hapi : get "api_name" f3 = get "api_name" f).
    { rewrite Hframe by (unfold fill_missing_keys; simpl; intuition discriminate).
      rewrite (merge_formula_frame _ _ _ _ _ _ _ "api_name" Hf) by discriminate.
      apply (merge_picklist_frame _ _ _ _ _ _ _ "api_name" Hp). discriminate. }
    assert (Hpv : get "picklist_values" f3 = get "picklist_values" f1).
    { rewrite Hframe by (unfold fill_missing_keys; simpl; intuition discriminate).
      apply (merge_formula_frame _ _ _ _ _ _ _ "picklist_values" Hf). discriminate. }
    assert (Hfo : get "formula" f3 = get "formula" f2)
      by (apply Hframe; unfold fill_missing_keys; simpl; intuition discriminate).
    destruct (merge_picklist_again _ _ _ _ _ _ _ Hp f3 st2 Hpv Hpd Hfd)
      as (sa & Hpa & Hpda & Hfda).
    destruct (merge_formula_again _ _ _ _ _ _ _ Hf f3 sa Hfo Hpda Hfda)
      as (sb & Hfb & Hpdb & Hfdb).
    unfold enrich_field. simpl. rewrite Hapi, Hfind. simpl.
    rewrite Hpa. simpl. rewrite Hfb, He. simpl.
    destruct (fill_missing ed f3 (enriched_count sb)) as [f4 n] eqn:Hfill.
    assert (Hf4 : f4 = f3).
    { change f4 with (fst (f4, n)). rewrite <- Hfill. subst f3.
      apply fill_missing_idem. apply Hed. }
    subst f4. eexists. split; [reflexivity|]. simpl.
    rewrite Hpdb, Hfdb, Hpd', Hfd'. split; reflexivity.
Qed.

Lemma enrich_fields_again b org_fields fields :
  forall st fields' st',
    enrich_fields b org_fields fields st = Ok (fields', st') ->
    forall st2,
      picklists_data st2 = picklists_data st ->
      formulas_data st2 = formulas_data st ->
      exists st2',
        enrich_fields b org_fields fields' st2 = Ok (fields', st2')
        /\ picklists_data st2' = picklists_data st'
        /\ formulas_data st2' = formulas_data st'.
Proof.
  induction fields as [|v rest IH]; intros st fields' st' H st2 Hpd Hfd; simpl in H.
  - injection H as <- <-. exists st2. simpl. auto.
  - destruct (enrich_field b org_fields st v) as [[v' s1]|] eqn:Hv; simpl in H;
      [|discriminate].
    destruct (enrich_fields b org_fields rest s1) as [[rest' s2]|] eqn:Hr;
      simpl in H; [|discriminate].
    injection H as <- <-.
    destruct (enrich_field_again _ _ _ _ _ _ Hv st2 Hpd Hfd) as (sa & Ha & Hpa & Hfa).
    destruct (IH _ _ _ Hr sa Hpa Hfa) as (sb & Hb & Hpb & Hfb).
    exists sb. simpl. rewrite Ha. simpl. rewrite Hb. simpl. auto.
Qed.

(** A schema whose object already holds the merged fields is left as it is
    by the merge loop, and the loop rebuilds the same payloads. *)
Lemma merge_schema_again b org_fields schema merged st :
  merge_schema b org_fields (VDict schema) = Ok (merged, st) ->
  forall schema',
    get "object" schema' = get "object" merged ->
    exists st2,
      merge_schema b org_fields (VDict schema') = Ok (schema', st2)
      /\ picklists_data st2 = picklists_data st
      /\ formulas_data st2 = formulas_data st.
Proof.
  unfold merge_schema. simpl. intros H schema' Hobj.
  unfold get_default, subscript in H.
  destruct (get "object" schema) as [o|] eqn:Ho.
  - destruct o as [| | | | |object]; try discriminate. simpl in H.
    destruct (iter _) as [fields|]; simpl in H; [|discriminate].
    destruct (enrich_fields b org_fields fields init_state) as [[fields' st']|] eqn:Hf;
      simpl in H; [|discriminate].
    injection H as <- <-.
    rewrite get_set_same in Hobj.
    destruct (enrich_fields_again _ _ _ _ _ _ Hf init_state eq_refl eq_refl)
      as (st2 & Hagain & Hpd & Hfd).
    exists st2. unfold get_default, subscript. rewrite Hobj. simpl.
    rewrite get_set_same. simpl. rewrite Hagain. simpl.
    rewrite set_set_same, (set_same _ _ _ Hobj). auto.
  - simpl in H. discriminate.
Qed.

Lemma merge_schema_dict b org_fields v merged st :
  merge_schema b org_fields v = Ok (merged, st) -> exists schema, v = VDict schema.
Proof.
  unfold merge_schema. destruct v; try discriminate. eauto.
Qed.

(** Stamping an already stamped schema only renews [enriched_date]. *)
Lemma stamp_metadata_again schema t1 st1 stamped :
  stamp_metadata schema t1 st1 = Ok stamped ->
  get "object" stamped = get "object" schema
  /\ forall t2 st2,
       picklists_data st2 = picklists_data st1 ->
       formulas_data st2 = formulas_data st1 ->
       exists stamped2,
         stamp_metadata stamped t2 st2 = Ok stamped2
         /\ redact_metadata "enriched_date" (VDict stamped2)
            = redact_metadata "enriched_date" (VDict stamped).
Proof.
  unfold stamp_metadata. intros H.
  set (base := if mem "metadata" schema then schema
               else set "metadata" (VDict []) schema) in *.
  assert (Hbase : get "object" base = get "object" schema).
  { subst base. destruct (mem "metadata" schema); [reflexivity|].
    apply get_set_other. discriminate. }
  destruct (get "metadata" base) as [[| | | | |m0]|]; try discriminate.
  injection H as <-. split.
  - rewrite get_set_other by discriminate. exact Hbase.
  - intros t2 st2 Hpd Hfd. rewrite Hpd, Hfd.
    set (a := VBool (nonempty (picklists_data st1))).
    set (c := VBool (nonempty (formulas_data st1))).
    set (m1 := set "has_formulas" c (set "has_picklists" a
                 (set "enriched_date" (VStr t1) m0))).
    assert (Hmem : mem "metadata" (set "metadata" (VDict m1) base) = true)
      by (unfold mem; now rewrite get_set_same).
    rewrite Hmem, get_set_same.
    assert (Ha : get "has_picklists" m1 = Some a).
    { subst m1. rewrite get_set_other by discriminate. apply get_set_same. }
    assert (Hc : get "has_formulas" m1 = Some c) by apply get_set_same.
    assert (He : get "enriched_date" m1 = Some (VStr t1)).
    { subst m1. rewrite !get_set_other by discriminate. apply get_set_same. }
    assert (Hm2 : set "has_formulas" c (set "has_picklists" a
                    (set "enriched_date" (VStr t2) m1))
                  = set "enriched_date" (VStr t2) m1).
    { rewrite (set_same "has_picklists" a)
        by (rewrite get_set_other by discriminate; exact Ha).
      apply set_same. rewrite get_set_other by discriminate. exact Hc. }
    rewrite Hm2. eexists. split; [reflexivity|].
    unfold redact_metadata. rewrite !get_set_same.
    unfold mem. rewrite get_set_same, He.
    now rewrite !set_set_same.
Qed.

Lemma redact_line_generated t : redact_line ("# Generated: " ++ t) = "# Generated: ".
Proof.
  unfold redact_line.
  assert (H : String.prefix "# Generated: " ("# Generated: " ++ t) = true)
    by (simpl; destruct t; reflexivity).
  now rewrite H.
Qed.

Lemma redact_picklists_file name pd t t' u u' :
  redact_file "generated_date"
    {| header := picklists_header name pd t; body := picklists_content name pd t' |}
  = redact_file "generated_date"
      {| header := picklists_header name pd u; body := picklists_content name pd u' |}.
Proof.
  unfold redact_file, picklists_header. cbn [header body map].
  rewrite !redact_line_generated. reflexivity.
Qed.

Lemma redact_formulas_file name fd t t' u u' :
  redact_file "generated_date"
    {| header := formulas_header name fd t; body := formulas_content name fd t' |}
  = redact_file "generated_date"
      {| header := formulas_header name fd u; body := formulas_content name fd u' |}.
Proof.
  unfold redact_file, formulas_header. cbn [header body map].
  rewrite !redact_line_generated. reflexivity.
Qed.

(** A second run that reads exactly what the first run wrote succeeds and
    writes the same payload content again, timestamps apart. *)
Lemma enrich_object_schema_again
    (object_name : string) (is_new_structure : bool) (org_fields : org_fields_t)
    (now1 now2 : clock) (folder folder1 : object_folder) (st1 : loop_state) :
  enrich_object_schema object_name is_new_structure org_fields now1 folder
  = Ok (folder1, st1) ->
  exists folder2 st2,
    enrich_object_schema object_name is_new_structure org_fields now2 folder1
    = Ok (folder2, st2)
    /\ redact folder2 = redact folder1.
Proof.
  unfold enrich_object_schema. intros H.
  destruct (merge_schema _ _ _) as [[merged st]|] eqn:Hm; simpl in H; [|discriminate].
  destruct (merge_schema_dict _ _ _ _ _ Hm) as (schema & Hschema).
  rewrite Hschema in Hm.
  destruct is_new_structure.
  - destruct (stamp_metadata merged (now1 0) st) as [stamped|] eqn:Hs; simpl in H;
      [|discriminate].
    destruct (stamp_metadata_again _ _ _ _ Hs) as (Hobj & Hstamp).
    destruct (merge_schema_again _ _ _ _ _ Hm stamped Hobj) as (st2 & Hm2 & Hpd & Hfd).
    destruct (Hstamp (now2 0) st2 Hpd Hfd) as (stamped2 & Hs2 & Hred).
    assert (Hfolder1 :
      folder1 =
      {| schema_yaml := {| header := []; body := VDict stamped |};
         picklists_yaml :=
           if nonempty (picklists_data st)
           then Some {| header := picklists_header object_name (picklists_data st) (now1 2);
                        body := picklists_content object_name (picklists_data st) (now1 1) |}
           else picklists_yaml folder;
         formulas_yaml :=
           if nonempty (formulas_data st)
           then Some {| header := formulas_header object_name (formulas_data st)
                                    (now1 (S (if nonempty (picklists_data st) then 3 else 1)));
                        body := formulas_content object_name (formulas_data st)
                                  (now1 (if nonempty (picklists_data st) then 3 else 1)) |}
           else formulas_yaml folder |}).
    { destruct (nonempty (picklists_data st)); now injection H as <- _. }
    clear H. subst folder1. cbn [schema_yaml body picklists_yaml formulas_yaml].
    rewrite Hm2. simpl. rewrite Hs2. simpl. rewrite Hpd, Hfd.
    destruct (nonempty (picklists_data st)); destruct (nonempty (formulas_data st));
      eexists; eexists; (split; [reflexivity|]);
      unfold redact; cbn [schema_yaml picklists_yaml formulas_yaml option_map];
      f_equal;
      first [ reflexivity
            | unfold redact_file; cbn [header body]; now rewrite Hred
            | f_equal; apply redact_picklists_file
            | f_equal; apply redact_formulas_file ].
  - injection H as <- <-. cbn [schema_yaml body picklists_yaml formulas_yaml].
    destruct (merge_schema_again _ _ _ _ _ Hm merged eq_refl) as (st2 & Hm2 & _).
    rewrite Hm2. simpl. eexists. eexists. split; reflexivity.
Qed.

Lemma reread_as_written (folder : object_folder) :
  Yaml.safe_load_dump (body (schema_yaml folder)) = body (schema_yaml folder) ->
  reread folder = folder.
Proof.
  intros H. unfold reread. rewrite H.
  destruct folder as [[h b] p f]. reflexivity.
Qed.

(** C2, as the code has it.  Running the merge a second time over the
    payloads the first run wrote, with the same external field-attribute
    map, succeeds and writes the same payload content again, timestamps
    apart, provided the second run reads the schema document back as the
    first run wrote it. *)
Theorem enrich_object_schema_idempotent
    (object_name : string) (is_new_structure : bool) (org_fields : org_fields_t)
    (now1 now2 : clock) (folder folder1 : object_folder) (st1 : loop_state) :
  enrich_object_schema object_name is_new_structure org_fields now1 folder
  = Ok (folder1, st1) ->
  Yaml.safe_load_dump (body (schema_yaml folder1)) = body (schema_yaml folder1) ->
  exists folder2 st2,
    enrich_object_schema object_name is_new_structure org_fields now2
      (reread folder1)
    = Ok (folder2, st2)
    /\ redact folder2 = redact folder1.
Proof.
  intros H Hread. rewrite (reread_as_written _ Hread).
  exact (enrich_object_schema_again _ _ _ now1 now2 _ _ _ H).
Qed.

Lemma enrich_object_schema_idempotent_witness :
  let now1 := fun i => "2025-02-01T10:00:0" ++ str_of_nat i in
  let now2 := fun i => "2025-03-01T10:00:0" ++ str_of_nat i in
  exists folder1 st1,
    enrich_object_schema "Account" true example_org_fields now1 example_folder
    = Ok (folder1, st1)
    /\ exists folder2 st2,
         enrich_object_schema "Account" true example_org_fields now2
           (reread folder1)
         = Ok (folder2, st2)
         /\ redact folder2 = redact folder1.
Proof.
  intros now1 now2. eexists. eexists. split; [reflexivity|].
  apply (enrich_object_schema_idempotent "Account" true example_org_fields
           now1 now2 example_folder _ _ eq_refl).
  vm_compute. reflexivity.
Defined.

(** A help text with a U+0085 in it is written as it is and read back with
    a space in its place; the second run keeps the text it read, so what it
    writes differs from what the first run wrote. *)
Lemma enrich_object_schema_rewrites_folded_text :
  let now1 := fun i => "2025-02-01T10:00:0" ++ str_of_nat i in
  let now2 := fun i => "2025-03-01T10:00:0" ++ str_of_nat i in
  exists folder1 st1 folder2 st2,
    enrich_object_schema "Account" true notes_org_fields now1 notes_folder
    = Ok (folder1, st1)
    /\ enrich_object_schema "Account" true notes_org_fields now2 (reread folder1)
       = Ok (folder2, st2)
    /\ redact folder2 <> redact folder1.
Proof.
  intros now1 now2. eexists. eexists. eexists. eexists.
  split; [vm_compute; reflexivity|]. split; [vm_compute; reflexivity|].
  vm_compute. discriminate.
Qed.

End MergeIdempotent.

(* ================================================================== *)
(** * Categorizer *)
(* ================================================================== *)

Section Categorizer.

Import Splitter.

(** The loop over the rule table with its [break], followed by the prefix,
    suffix and fallback rules, is the first-match-wins evaluation of the
    specification. *)
Lemma category_of_spec (name : string) :
  category_of CATEGORIES (VStr name) = Ok (spec_category CATEGORIES name).
Proof.
  unfold category_of, spec_category, CATEGORIES, table, member. simpl.
  repeat match goal with
         | |- context [if ?c then _ else _] => destruct c; simpl; try reflexivity
         end.
Qed.

Lemma category_of_string (v : value) (c : string) :
  category_of CATEGORIES v = Ok c -> exists name, v = VStr name.
Proof.
  destruct v; try (cbv; discriminate). eauto.
Qed.

Lemma filed_bucket_append category obj categorized c o :
  filed (bucket_append category obj categorized) c o
  <-> filed categorized c o \/ (c = category /\ o = obj).
Proof.
  unfold filed. induction categorized as [|[c0 objs0] rest IH]; simpl.
  - split.
    + intros (objs & [[= <- <-]|[]] & Hin). destruct Hin as [<-|[]]. now right.
    + intros [(objs & [] & _) | [-> ->]]. exists [obj]. simpl. auto.
  - destruct (String.eqb category c0) eqn:E.
    + apply String.eqb_eq in E; subst c0. split.
      * intros (objs & [[= <- <-]|Hin] & Ho).
        -- apply in_app_or in Ho. destruct Ho as [Ho|[<-|[]]].
           ++ left. exists objs0. simpl. auto.
           ++ now right.
        -- left. exists objs. simpl. auto.
      * intros [(objs & [[= <- <-]|Hin] & Ho) | [-> ->]].
        -- exists (objs0 ++ [obj])%list. split; [now left|]. apply in_or_app. auto.
        -- exists objs. simpl. auto.
        -- exists (objs0 ++ [obj])%list. split; [now left|].
           apply in_or_app. right. now left.
    + split.
      * intros (objs & [[= <- <-]|Hin] & Ho).
        -- left. exists objs0. simpl. auto.
        -- destruct (proj1 IH (ex_intro _ objs (conj Hin Ho))) as [(objs' & H1 & H2)|H].
           ++ left. exists objs'. simpl. auto.
           ++ now right.
      * intros [(objs & [[= <- <-]|Hin] & Ho) | H].
        -- exists objs0. simpl. auto.
        -- destruct (proj2 IH (or_introl (ex_intro _ objs (conj Hin Ho))))
             as (objs' & H1 & H2).
           exists objs'. simpl. auto.
        -- destruct (proj2 IH (or_intror H)) as (objs' & H1 & H2).
           exists objs'. simpl. auto.
Qed.

Lemma bucket_append_keys category obj categorized x :
  In x (map fst (bucket_append category obj categorized))
  <-> x = category \/ In x (map fst categorized).
Proof.
  induction categorized as [|[c0 objs0] rest IH]; simpl.
  - intuition.
  - destruct (String.eqb category c0) eqn:E; simpl.
    + apply String.eqb_eq in E; subst. intuition.
    + rewrite IH. intuition.
Qed.

Lemma bucket_append_nodup category obj categorized :
  NoDup (map fst categorized) ->
  NoDup (map fst (bucket_append category obj categorized)).
Proof.
  induction categorized as [|[c0 objs0] rest IH]; simpl; intros H.
  - constructor; [intros [] | constructor].
  - inversion H as [|? ? Hnotin Hnd]; subst.
    destruct (String.eqb category c0) eqn:E; simpl.
    + now constructor.
    + constructor; [|now apply IH].
      intros Hin. apply bucket_append_keys in Hin. destruct Hin as [->|Hin]; [|auto].
      now rewrite String.eqb_refl in E.
Qed.

Lemma categorize_filed (objects : list value) :
  forall categorized buckets,
    categorize CATEGORIES objects categorized = Ok buckets ->
    (NoDup (map fst categorized) -> NoDup (map fst buckets))
    /\ forall c o,
         filed buckets c o
         <-> filed categorized c o
             \/ (In o objects
                 /\ exists name, named o name /\ c = spec_category CATEGORIES name).
Proof.
  induction objects as [|obj rest IH]; intros categorized buckets H; simpl in H.
  - injection H as <-. split; [auto|]. intros c o. simpl. intuition.
  - destruct obj as [| | | | |d]; try discriminate. simpl in H.
    destruct (category_of CATEGORIES (get_default "api_name" (VStr "") d))
      as [category|] eqn:Hc; simpl in H; [|discriminate].
    destruct (category_of_string _ _ Hc) as (name & Hname).
    rewrite Hname, category_of_spec in Hc. injection Hc as <-.
    destruct (IH _ _ H) as (Hnd & Hfiled). split.
    + intros Hn. apply Hnd. now apply bucket_append_nodup.
    + intros c o. rewrite Hfiled, filed_bucket_append. simpl. split.
      * intros [[Hf | [-> ->]] | (Hin & Hn)]; [now left | | right; split; auto].
        right. split; [now left|]. exists name. split; [|reflexivity].
        exists d. auto.
      * intros [Hf | ([<-|Hin] & (n & Hn & ->))]; [now left; left | | right; eauto].
        left. right. split; [|reflexivity].
        destruct Hn as (d' & [= <-] & Hd'). rewrite Hname in Hd'.
        now injection Hd' as <-.
Qed.

Lemma categorize_total (objects : list value) :
  (forall obj, In obj objects -> exists name, named obj name) ->
  forall categorized, exists buckets,
    categorize CATEGORIES objects categorized = Ok buckets.
Proof.
  induction objects as [|obj rest IH]; intros Hn categorized; simpl.
  - eauto.
  - destruct (Hn obj (or_introl eq_refl)) as (name & d & -> & Hd). simpl.
    rewrite Hd, category_of_spec. simpl. apply IH.
    intros o Ho. apply Hn. now right.
Qed.

Lemma named_unique obj n1 n2 : named obj n1 -> named obj n2 -> n1 = n2.
Proof.
  intros (d1 & -> & H1) (d2 & [= <-] & H2). rewrite H1 in H2. now injection H2.
Qed.

(** C8.  Every object is filed under exactly one category, the one the
    first-match-wins rules give: the first of the core, sales, service,
    marketing and activities lists naming it; else healthcare for the
    [HealthCloudGA__] prefix; else custom for the [__c] suffix; else other.
    Running the Categorizer again on the same input gives the same
    assignment. *)
Theorem create_categorized_schemas_first_match (objects : list value) :
  (forall obj, In obj objects -> exists name, named obj name) ->
  exists buckets,
    create_categorized_schemas objects = Ok buckets
    /\ NoDup (map fst buckets)
    /\ (forall obj name, In obj objects -> named obj name ->
        forall c, filed buckets c obj <-> c = spec_category CATEGORIES name)
    /\ (forall again, create_categorized_schemas objects = again ->
        again = Ok buckets).
Proof.
  intros Hn. unfold create_categorized_schemas.
  destruct (categorize_total objects Hn []) as (buckets & Hb).
  exists buckets. destruct (categorize_filed _ _ _ Hb) as (Hnd & Hfiled).
  repeat split.
  - assumption.
  - apply Hnd. constructor.
  - intros Hf. apply Hfiled in Hf.
    destruct Hf as [(objs & [] & _) | (_ & n & Hn' & ->)].
    now rewrite (named_unique _ _ _ H0 Hn').
  - intros ->. apply Hfiled. right. eauto.
  - intros again <-. assumption.
Qed.

Lemma create_categorized_schemas_first_match_witness :
  let lead := VDict [("api_name", VStr "Lead"); ("type", VStr "Standard")] in
  let visit := VDict [("api_name", VStr "HealthCloudGA__Visit__c")] in
  let invoice := VDict [("api_name", VStr "Invoice__c")] in
  let asset := VDict [("api_name", VStr "Asset")] in
  exists buckets,
    create_categorized_schemas [lead; visit; invoice; asset] = Ok buckets
    /\ filed buckets "core" lead
    /\ ~ filed buckets "marketing" lead
    /\ filed buckets "healthcare" visit
    /\ filed buckets "custom" invoice
    /\ filed buckets "other" asset.
Proof.
  intros lead visit invoice asset.
  assert (Hn : forall obj, In obj [lead; visit; invoice; asset] ->
                 exists name, named obj name).
  { intros obj [<-|[<-|[<-|[<-|[]]]]]; eexists; eexists; split; reflexivity. }
  destruct (create_categorized_schemas_first_match _ Hn)
    as (buckets & Hrun & _ & Hfiled & _).
  exists buckets. split; [exact Hrun|].
  assert (Hlead : named lead "Lead") by (eexists; split; reflexivity).
  assert (Hvisit : named visit "HealthCloudGA__Visit__c") by (eexists; split; reflexivity).
  assert (Hinvoice : named invoice "Invoice__c") by (eexists; split; reflexivity).
  assert (Hasset : named asset "Asset") by (eexists; split; reflexivity).
  repeat split.
  - apply (Hfiled lead "Lead"); [simpl; auto | exact Hlead | reflexivity].
  - intros Hf. apply (Hfiled lead "Lead") in Hf; [discriminate | simpl; auto | exact Hlead].
  - apply (Hfiled visit "HealthCloudGA__Visit__c");
      [simpl; auto | exact Hvisit | reflexivity].
  - apply (Hfiled invoice "Invoice__c"); [simpl; auto | exact Hinvoice | reflexivity].
  - apply (Hfiled asset "Asset"); [simpl; auto | exact Hasset | reflexivity].
Defined.

End Categorizer.

(* ================================================================== *)
(** * Splitter: the partition is lossless *)
(* ================================================================== *)

Section Lossless.

Import Splitter.

Lemma hkey_eqb_eq a b : hkey_eqb a b = true <-> a = b.
Proof.
  destruct a, b; simpl; split; try discriminate; try reflexivity.
  - intros H. apply Z.eqb_eq in H. now subst.
  - intros [= ->]. apply Z.eqb_refl.
  - intros H. apply String.eqb_eq in H. now subst.
  - intros [= ->]. apply String.eqb_refl.
Qed.

Lemma hkey_eqb_refl a : hkey_eqb a a = true.
Proof. now apply hkey_eqb_eq. Qed.

Lemma payload_get_set_same k v p : payload_get k (payload_set k v p) = Some v.
Proof.
  induction p as [|[k' v'] p IH]; simpl.
  - now rewrite hkey_eqb_refl.
  - destruct (hkey_eqb k k') eqn:E; simpl; rewrite E; auto.
Qed.

Lemma payload_get_set_other k k' v p :
  hkey_eqb k k' = false -> payload_get k (payload_set k' v p) = payload_get k p.
Proof.
  intros Hne. induction p as [|[k0 v0] p IH]; simpl.
  - now rewrite Hne.
  - destruct (hkey_eqb k' k0) eqn:E; simpl.
    + apply hkey_eqb_eq in E; subst k0. now rewrite Hne.
    + now rewrite IH.
Qed.

Lemma extract_attr_spec attr note field core_field store core_field' store' :
  extract_attr attr note field core_field store = Ok (core_field', store') ->
  core_field' = (if present attr field
                 then set "_note" note (pop attr core_field) else core_field)
  /\ (present attr field = true -> exists k, hash_key (field_name field) = Ok k)
  /\ forall k, payload_get k store'
               = match own attr k (VDict field) with
                 | Some v => Some v
                 | None => payload_get k store
                 end.
Proof.
  unfold extract_attr, own. destruct (present attr field).
  - destruct (hash_key (field_name field)) as [k0|]; simpl; [|discriminate].
    intros [= <- <-]. repeat split; eauto.
    intros k. destruct (hkey_eqb k k0) eqn:E.
    + apply hkey_eqb_eq in E; subst. apply payload_get_set_same.
    + now apply payload_get_set_other.
  - intros [= <- <-]. repeat split; try discriminate; try reflexivity.
Qed.

Lemma extract_loop_spec (obj_name : string) (fields : list value) :
  forall p0 f0 p f core,
    extract_loop obj_name fields p0 f0 = Ok (p, f, core) ->
    core = map (core_value obj_name) fields
    /\ Forall extractable fields
    /\ (forall k, payload_get k p
                  = match stored "picklist_values" k fields with
                    | Some v => Some v
                    | None => payload_get k p0
                    end)
    /\ (forall k, payload_get k f
                  = match stored "formula" k fields with
                    | Some v => Some v
                    | None => payload_get k f0
                    end).
Proof.
  induction fields as [|fv rest IH]; intros p0 f0 p f core H; simpl in H.
  - injection H as <- <- <-. repeat split; auto.
  - unfold extract_field in H.
    destruct fv as [| | | | |d]; try discriminate. simpl in H.
    destruct (extract_attr "picklist_values" _ d d p0) as [[c1 p1]|] eqn:H1;
      simpl in H; [|discriminate].
    destruct (extract_attr "formula" _ d c1 f0) as [[c2 f1]|] eqn:H2;
      simpl in H; [|discriminate].
    destruct (extract_loop obj_name rest p1 f1) as [[[p' f'] core']|] eqn:Hr;
      simpl in H; [|discriminate].
    injection H as <- <- <-.
    destruct (extract_attr_spec _ _ _ _ _ _ _ H1) as (Hc1 & Hk1 & Hp1).
    destruct (extract_attr_spec _ _ _ _ _ _ _ H2) as (Hc2 & Hk2 & Hf1).
    destruct (IH _ _ _ _ _ Hr) as (Hcore & Hall & Hp & Hf).
    repeat split.
    + simpl. unfold core_of. now rewrite Hcore, Hc2, Hc1.
    + constructor; [|assumption]. exists d. split; [reflexivity|].
      intros Hor. apply orb_true_iff in Hor. destruct Hor; auto.
    + intros k. rewrite Hp. simpl.
      destruct (stored "picklist_values" k rest); [reflexivity|]. apply Hp1.
    + intros k. rewrite Hf. simpl.
      destruct (stored "formula" k rest); [reflexivity|]. apply Hf1.
Qed.

Lemma stored_absent attr k fields :
  ~ In k (field_keys fields) -> stored attr k fields = None.
Proof.
  induction fields as [|fv rest IH]; simpl; intros Hn; [reflexivity|].
  rewrite IH by (intros Hin; apply Hn, in_or_app; now right).
  unfold own. destruct fv as [| | | | |d]; try reflexivity.
  destruct (present attr d); [|reflexivity].
  destruct (hash_key (field_name d)) as [k'|] eqn:Hk; [|reflexivity].
  destruct (hkey_eqb k k') eqn:E; [|reflexivity].
  apply hkey_eqb_eq in E; subst k'. exfalso. apply Hn, in_or_app. left.
  simpl. rewrite Hk. now left.
Qed.

Lemma key_of_In field k fields :
  In (VDict field) fields -> hash_key (field_name field) = Ok k ->
  In k (field_keys fields).
Proof.
  intros Hin Hk. unfold field_keys. apply in_flat_map.
  exists (VDict field). split; [assumption|]. simpl. rewrite Hk. now left.
Qed.

(** With unique names, a payload holds under a field's name exactly what
    that field contributed. *)
Lemma stored_unique attr k field fields :
  NoDup (field_keys fields) -> In (VDict field) fields ->
  hash_key (field_name field) = Ok k ->
  stored attr k fields
  = if present attr field then Some (get_default attr VNone field) else None.
Proof.
  intros Hnd Hin Hk. induction fields as [|fv rest IH]; [destruct Hin|].
  simpl in Hnd. apply NoDup_app_remove_l in Hnd as Hrest.
  simpl. destruct Hin as [->|Hin].
  - simpl in Hnd. rewrite Hk in Hnd. simpl in Hnd.
    inversion Hnd as [|? ? Hnotin _]; subst.
    rewrite (stored_absent attr k rest Hnotin). unfold own.
    rewrite Hk, hkey_eqb_refl. now destruct (present attr field).
  - rewrite (IH Hrest Hin).
    destruct (present attr field); [reflexivity|].
    unfold own. destruct fv as [| | | | |d]; try reflexivity.
    destruct (present attr d); [|reflexivity].
    destruct (hash_key (field_name d)) as [k'|] eqn:Hk'; [|reflexivity].
    destruct (hkey_eqb k k') eqn:E; [|reflexivity].
    apply hkey_eqb_eq in E; subst k'. exfalso.
    simpl in Hnd. rewrite Hk' in Hnd. simpl in Hnd.
    inversion Hnd as [|? ? Hnotin _]; subst.
    apply Hnotin. exact (key_of_In _ _ _ Hin Hk).
Qed.

Lemma present_get attr field :
  present attr field = true ->
  get attr field = Some (get_default attr VNone field).
Proof.
  unfold present, mem, get_default. now destruct (get attr field).
Qed.

Lemma get_core_of obj_name field k :
  k <> "_note" ->
  get k (core_of obj_name field)
  = if (String.eqb k "picklist_values" && present "picklist_values" field)
       || (String.eqb k "formula" && present "formula" field)
    then None else get k field.
Proof.
  intros Hnote. unfold core_of.
  destruct (String.eqb_spec k "picklist_values") as [Hpv|Hpv];
    destruct (String.eqb_spec k "formula") as [Hfo|Hfo];
    try (subst k; discriminate); try subst k;
    destruct (present "picklist_values" field);
    destruct (present "formula" field); simpl;
    repeat first [ rewrite get_pop_same
                 | rewrite get_set_other by (assumption || discriminate)
                 | rewrite get_pop_other by (assumption || discriminate) ];
    reflexivity.
Qed.

Lemma entry_for_written p core_field :
  entry_for (written_if_any p) core_field
  = match hash_key (field_name core_field) with
    | Ok k => payload_get k p
    | Raise _ => None
    end.
Proof.
  unfold entry_for. destruct p; simpl; [|reflexivity].
  now destruct (hash_key (field_name core_field)).
Qed.

(** C1.  For every object whose field names are unique and every field in
    it, the partition is lossless: the field's entry of the core schema
    payload, without its annotation and joined with the picklist entry and
    the formula entry stored under the field's name (where they exist),
    has the [picklist_values] and the [formula] of the original field. *)
Theorem split_object_lossless (fields : list value) (obj_name : string)
    (part : partition) (i : nat) (field : dict) :
  split_object fields obj_name = Ok part ->
  NoDup (field_keys fields) ->
  nth_error fields i = Some (VDict field) ->
  exists core_field,
    nth_error (core_fields part) i = Some (VDict core_field)
    /\ get "picklist_values" (reconstruct part core_field)
       = get "picklist_values" field
    /\ get "formula" (reconstruct part core_field) = get "formula" field.
Proof.
  unfold split_object, _extract_field_metadata. intros H Hnd Hi.
  destruct (extract_loop obj_name fields [] []) as [[[p f] core]|] eqn:Hloop;
    simpl in H; [|discriminate].
  injection H as <-.
  destruct (extract_loop_spec _ _ _ _ _ _ _ Hloop) as (Hcore & Hall & Hp & Hf).
  exists (core_of obj_name field). cbn [core_fields]. split.
  { rewrite Hcore, nth_error_map, Hi. reflexivity. }
  assert (Hin : In (VDict field) fields) by (eapply nth_error_In; eassumption).
  assert (Hname : field_name (core_of obj_name field) = field_name field).
  { unfold field_name, get_default. rewrite get_core_of by discriminate. reflexivity. }
  unfold reconstruct. cbn [picklists_file formulas_file].
  rewrite !entry_for_written, Hname.
  assert (Hpv0 : get "picklist_values" (pop "_note" (core_of obj_name field))
                 = if present "picklist_values" field then None
                   else get "picklist_values" field).
  { rewrite get_pop_other by discriminate. rewrite get_core_of by discriminate.
    simpl. now destruct (present "picklist_values" field). }
  assert (Hfo0 : get "formula" (pop "_note" (core_of obj_name field))
                 = if present "formula" field then None else get "formula" field).
  { rewrite get_pop_other by discriminate. rewrite get_core_of by discriminate.
    simpl. now destruct (present "formula" field). }
  destruct (hash_key (field_name field)) as [k|e] eqn:Hk.
  - rewrite Hp, Hf.
    rewrite (stored_unique "picklist_values" k field fields Hnd Hin Hk).
    rewrite (stored_unique "formula" k field fields Hnd Hin Hk).
    simpl payload_get.
    destruct (present "picklist_values" field) eqn:Ppv;
      destruct (present "formula" field) eqn:Pfo;
      repeat first [ rewrite get_set_same
                   | rewrite get_set_other by discriminate ];
      rewrite ?Hpv0, ?Hfo0, ?(present_get _ _ Ppv), ?(present_get _ _ Pfo);
      split; reflexivity.
  - rewrite Forall_forall in Hall. destruct (Hall _ Hin) as (d & [= <-] & Hd).
    destruct (present "picklist_values" field || present "formula" field) eqn:Hor.
    + destruct (Hd eq_refl) as (k & Hk'). rewrite Hk in Hk'. discriminate.
    + apply orb_false_iff in Hor. destruct Hor as (Ppv & Pfo).
      rewrite Hpv0, Hfo0, Ppv, Pfo. split; reflexivity.
Qed.

Lemma split_object_lossless_witness :
  let status := [("api_name", VStr "Status"); ("type", VStr "Picklist");
                 ("picklist_values", VList [VStr "Open"; VStr "Closed"])] in
  let total := [("api_name", VStr "Total"); ("type", VStr "Number");
                ("formula", VStr "Amount * 2"); ("picklist_values", VList [])] in
  let fields := [VDict status; VDict total] in
  exists part,
    split_object fields "Account" = Ok part
    /\ NoDup (field_keys fields)
    /\ exists core_field,
         nth_error (core_fields part) 1 = Some (VDict core_field)
         /\ get "picklist_values" (reconstruct part core_field) = Some (VList [])
         /\ get "formula" (reconstruct part core_field) = Some (VStr "Amount * 2").
Proof.
  intros status total fields.
  assert (Hnd : NoDup (field_keys fields)).
  { simpl. repeat constructor; simpl; intuition discriminate. }
  eexists. split; [reflexivity|]. split; [exact Hnd|].
  exact (split_object_lossless fields "Account" _ 1 total eq_refl Hnd eq_refl).
Defined.

End Lossless.

(* ================================================================== *)
(** * Search index entries *)
(* ================================================================== *)

Section SearchIndex.

Ltac get_steps :=
  repeat first [ rewrite get_set_same
               | rewrite get_set_other by discriminate ].

(** The entry of the folder-per-object splitter, key by key. *)
Lemma field_info_gets (field : dict) :
  let e := Splitter.field_info field in
  get "name" e = Some (get_default "api_name" (VStr "") field)
  /\ get "type" e = Some (get_default "type" (VStr "") field)
  /\ get "required" e = Some (get_default "required" (VBool false) field)
  /\ get "has_picklist_values" e = flag (Splitter.present "picklist_values" field)
  /\ get "has_formula" e = flag (Splitter.present "formula" field)
  /\ get "reference_to" e = get "reference_to" field
  /\ get "length" e = get "length" field
  /\ get "picklist_values" e = None
  /\ get "formula" e = None.
Proof.
  unfold Splitter.field_info.
  destruct (Splitter.present "picklist_values" field);
    destruct (Splitter.present "formula" field);
    destruct (get "reference_to" field);
    destruct (get "length" field);
    cbv zeta; repeat split; get_steps; reflexivity.
Qed.

Lemma field_info_keys (field : dict) :
  incl (keys (Splitter.field_info field)) search_entry_keys.
Proof.
  unfold Splitter.field_info.
  destruct (Splitter.present "picklist_values" field);
    destruct (Splitter.present "formula" field);
    destruct (get "reference_to" field);
    destruct (get "length" field);
    cbv zeta; intros k Hk; simpl in Hk; unfold search_entry_keys; simpl;
    intuition.
Qed.

Lemma search_fields_entries (fields : list value) :
  forall fields_list has_picklists has_formulas,
    Splitter.search_fields fields = Ok (fields_list, has_picklists, has_formulas) ->
    forall entry, In entry fields_list ->
      exists field, In (VDict field) fields
                    /\ entry = VDict (Splitter.field_info field).
Proof.
  induction fields as [|fv rest IH]; intros l hp hf H entry Hin; simpl in H.
  - injection H as <- _ _. destruct Hin.
  - destruct fv as [| | | | |d]; try discriminate. simpl in H.
    destruct (Splitter.search_fields rest) as [[[l' hp'] hf']|] eqn:Hr; simpl in H;
      [|discriminate].
    injection H as <- _ _. destruct Hin as [<-|Hin].
    + exists d. split; [now left | reflexivity].
    + destruct (IH _ _ _ eq_refl entry Hin) as (f & Hf & He).
      exists f. split; [now right | assumption].
Qed.

Lemma legacy_search_fields_entries (fields : list value) :
  forall fields_list,
    LegacySplitter.search_fields fields = Ok fields_list ->
    forall entry, In entry fields_list ->
      exists field, In (VDict field) fields
                    /\ entry = VDict (LegacySplitter.field_info field).
Proof.
  induction fields as [|fv rest IH]; intros l H entry Hin; simpl in H.
  - injection H as <-. destruct Hin.
  - destruct fv as [| | | | |d]; try discriminate. simpl in H.
    destruct (LegacySplitter.search_fields rest) as [l'|] eqn:Hr; simpl in H;
      [|discriminate].
    injection H as <-. destruct Hin as [<-|Hin].
    + exists d. split; [now left | reflexivity].
    + destruct (IH _ eq_refl entry Hin) as (f & Hf & He).
      exists f. split; [now right | assumption].
Qed.

Lemma legacy_field_info_gets (field : dict) :
  let e := LegacySplitter.field_info field in
  get "picklist_values" e = get "picklist_values" field
  /\ get "formula" e = None
  /\ get "has_picklist_values" e = None
  /\ get "has_formula" e = None
  /\ get "name" e = Some (get_default "api_name" (VStr "") field)
  /\ get "type" e = Some (get_default "type" (VStr "") field)
  /\ get "required" e = Some (get_default "required" (VBool false) field)
  /\ get "reference_to" e = get "reference_to" field
  /\ get "length" e = get "length" field.
Proof.
  unfold LegacySplitter.field_info.
  destruct (get "picklist_values" field);
    destruct (get "reference_to" field);
    destruct (get "length" field);
    cbv zeta; repeat split; get_steps; reflexivity.
Qed.

Lemma legacy_field_info_keys (field : dict) :
  incl (keys (LegacySplitter.field_info field)) legacy_entry_keys.
Proof.
  unfold LegacySplitter.field_info.
  destruct (get "picklist_values" field);
    destruct (get "reference_to" field);
    destruct (get "length" field);
    cbv zeta; intros k Hk; simpl in Hk; unfold legacy_entry_keys; simpl;
    intuition.
Qed.

(** C5, as the code has it.  In the search index of the folder-per-object
    splitter every field entry carries only the name, the type, the
    required flag, the presence flags for picklist values and formula
    (present only as [True]), the reference target and the length; it never
    holds the picklist values or the formula text.  In the search index of
    the single-file splitter every field entry carries only the name, the
    type, the required flag, the reference target, the length and the
    field's [picklist_values], copied whenever the field has that key; it
    has no presence flag and no formula. *)
Theorem search_index_entries (fields : list value) (fields_list : list value)
    (has_picklists has_formulas : bool) (legacy_list : list value) :
  Splitter.search_fields fields = Ok (fields_list, has_picklists, has_formulas) ->
  LegacySplitter.search_fields fields = Ok legacy_list ->
  (forall entry, In entry fields_list ->
     exists field e,
       In (VDict field) fields /\ entry = VDict e
       /\ incl (keys e) search_entry_keys
       /\ get "name" e = Some (get_default "api_name" (VStr "") field)
       /\ get "type" e = Some (get_default "type" (VStr "") field)
       /\ get "required" e = Some (get_default "required" (VBool false) field)
       /\ get "has_picklist_values" e = flag (Splitter.present "picklist_values" field)
       /\ get "has_formula" e = flag (Splitter.present "formula" field)
       /\ get "reference_to" e = get "reference_to" field
       /\ get "length" e = get "length" field
       /\ get "picklist_values" e = None
       /\ get "formula" e = None)
  /\ (forall entry, In entry legacy_list ->
        exists field e,
          In (VDict field) fields /\ entry = VDict e
          /\ incl (keys e) legacy_entry_keys
          /\ get "picklist_values" e = get "picklist_values" field
          /\ get "formula" e = None
          /\ get "has_picklist_values" e = None
          /\ get "has_formula" e = None
          /\ get "name" e = Some (get_default "api_name" (VStr "") field)
          /\ get "type" e = Some (get_default "type" (VStr "") field)
          /\ get "required" e = Some (get_default "required" (VBool false) field)
          /\ get "reference_to" e = get "reference_to" field
          /\ get "length" e = get "length" field).
Proof.
  intros Hnew Hold. split.
  - intros entry Hin.
    destruct (search_fields_entries _ _ _ _ Hnew entry Hin) as (field & Hf & ->).
    exists field, (Splitter.field_info field).
    split; [assumption|]. split; [reflexivity|].
    split; [apply field_info_keys | apply field_info_gets].
  - intros entry Hin.
    destruct (legacy_search_fields_entries _ _ Hold entry Hin) as (field & Hf & ->).
    exists field, (LegacySplitter.field_info field).
    split; [assumption|]. split; [reflexivity|].
    split; [apply legacy_field_info_keys | apply legacy_field_info_gets].
Qed.

Lemma search_index_entries_witness :
  exists e,
    Splitter.search_fields [VDict status_field] = Ok ([VDict e], true, true)
    /\ keys e = ["name"; "type"; "required"; "has_picklist_values"; "has_formula";
                 "length"]
    /\ get "has_picklist_values" e = Some (VBool true)
    /\ get "picklist_values" e = None
    /\ get "formula" e = None.
Proof.
  eexists. split; [reflexivity|]. split; [reflexivity|].
  destruct (proj1 (search_index_entries [VDict status_field] _ true true _
                     eq_refl eq_refl) _ (or_introl eq_refl))
    as (field & e & Hin & He & _ & _ & _ & _ & Hflag & _ & _ & _ & Hpv & Hfo).
  injection He as <-.
  destruct Hin as [[= <-]|[]].
  repeat split; assumption.
Defined.

(** In the single-file splitter the search index entry of a picklist field
    holds the picklist values themselves. *)
Lemma legacy_search_index_holds_values :
  exists e,
    LegacySplitter.search_fields [VDict status_field] = Ok [VDict e]
    /\ get "picklist_values" e = Some (VList [VStr "Open"; VStr "Closed"])
    /\ ~ incl (keys e) search_entry_keys.
Proof.
  eexists. split; [reflexivity|]. split; [reflexivity|].
  intros Hincl. specialize (Hincl "picklist_values"). simpl in Hincl.
  intuition discriminate.
Qed.

End SearchIndex.

(* ================================================================== *)
(** * Parser: one field document *)
(* ================================================================== *)

Section ParseField.

Import Xml Str Parser.

Lemma get_set_text_other k t key root d :
  k <> key -> get k (set_text t key root d) = get k d.
Proof.
  intros H. unfold set_text. destruct (nonempty_text _); [|reflexivity].
  now apply get_set_other.
Qed.

Lemma get_set_bool_other k t key root d :
  k <> key -> get k (set_bool t key root d) = get k d.
Proof.
  intros H. unfold set_bool. destruct (nonempty_text _); [|reflexivity].
  now apply get_set_other.
Qed.

Lemma get_set_int_other k t key root d :
  k <> key -> get k (set_int t key root d) = get k d.
Proof.
  intros H. unfold set_int. destruct (nonempty_text _) as [s|]; [|reflexivity].
  destruct (py_int s); [|reflexivity]. now apply get_set_other.
Qed.

Lemma get_set_text_same t key root d :
  get key (set_text t key root d)
  = match nonempty_text (find (sf t) root) with
    | Some s => Some (VStr s)
    | None => get key d
    end.
Proof.
  unfold set_text. destruct (nonempty_text _); [|reflexivity]. apply get_set_same.
Qed.

(** Pushing a lookup through the assignments to other keys. *)
Ltac frame :=
  repeat first [ rewrite get_set_text_other by discriminate
               | rewrite get_set_bool_other by discriminate
               | rewrite get_set_int_other by discriminate
               | rewrite get_set_other by discriminate ].

(** The last two steps of [parse_field] leave every other key alone. *)
Lemma get_after_picklist k root d :
  k <> "picklist_values" ->
  get k (if str_in (get "type" d) ["Picklist"; "MultiselectPicklist"]
         then match picklist_texts root with
              | [] => d
              | v :: l => set "picklist_values" (VList (v :: l)) d
              end
         else d)
  = get k d.
Proof.
  intros H. destruct (str_in _ _); [|reflexivity].
  destruct (picklist_texts root); [reflexivity|]. now apply get_set_other.
Qed.

(** What [parse_field] does with a document that parsed. *)
Lemma parse_field_parsed (field_file : file) (parent_object : string)
    (relationships : list value) (root : element) :
  content field_file = Some root ->
  exists field_data,
    parse_field field_file parent_object relationships
    = (Some field_data,
       match type_text root, reference_target root with
       | Some t, Some r =>
           if is_reference_type t
           then (relationships
                   ++ [VDict [("from_object", VStr parent_object);
                              ("from_field", VStr (field_name_of field_file root));
                              ("to_object", VStr r);
                              ("relationship_type", VStr t);
                              ("relationship_name",
                               get_default "relationship_name" (VStr "") field_data);
                              ("delete_constraint",
                               get_default "delete_constraint" (VStr "") field_data)]])%list
           else relationships
       | _, _ => relationships
       end)
    /\ get "api_name" field_data = Some (VStr (field_name_of field_file root))
    /\ get "type" field_data = option_map VStr (type_text root)
    /\ get "parse_error" field_data = None
    /\ (forall t, type_text root = Some t -> is_reference_type t = true ->
        get "reference_to" field_data = option_map VStr (reference_target root)).
Proof.
  intros Hc. unfold parse_field. rewrite Hc. cbv zeta.
  fold (field_name_of field_file root).
  match goal with
  | |- context [set_int "scale" "scale" root ?d] =>
      set (base := set_int "scale" "scale" root d)
  end.
  assert (Hty : get "type" base = option_map VStr (type_text root)).
  { subst base. frame. rewrite get_set_text_same. frame.
    unfold type_text. now destruct (nonempty_text _). }
  assert (Hapi : get "api_name" base = Some (VStr (field_name_of field_file root)))
    by (subst base; frame; reflexivity).
  assert (Hpe : get "parse_error" base = None) by (subst base; frame; reflexivity).
  assert (Href : get "reference_to" base = None) by (subst base; frame; reflexivity).
  clearbody base.
  assert (Hstr : str_in (get "type" base) ["Lookup"; "MasterDetail"]
                 = match type_text root with
                   | Some t => is_reference_type t
                   | None => false
                   end).
  { rewrite Hty. destruct (type_text root); [|reflexivity]. simpl.
    unfold is_reference_type. now rewrite orb_false_r. }
  rewrite Hstr.
  destruct (type_text root) as [t|] eqn:Ht.
  - destruct (is_reference_type t) eqn:Hrt.
    + set (linked := set_text "deleteConstraint" "delete_constraint" root _).
      assert (Hlref : get "reference_to" linked
                      = option_map VStr (reference_target root)).
      { subst linked. frame. rewrite get_set_text_same, Href.
        unfold reference_target. now destruct (nonempty_text _). }
      assert (Hmem : mem "reference_to" linked
                     = match reference_target root with
                       | Some _ => true
                       | None => false
                       end).
      { unfold mem. rewrite Hlref. now destruct (reference_target root). }
      assert (Hlty : get "type" linked = Some (VStr t))
        by (subst linked; frame; rewrite Hty; reflexivity).
      assert (Hlapi : get "api_name" linked
                      = Some (VStr (field_name_of field_file root)))
        by (subst linked; frame; exact Hapi).
      assert (Hlpe : get "parse_error" linked = None)
        by (subst linked; frame; exact Hpe).
      clearbody linked. rewrite Hmem.
      assert (Hfin : forall k, k <> "picklist_values" -> k <> "formula" ->
                k <> "default_value" ->
                get k (set_text "defaultValue" "default_value" root
                         (set_text "formula" "formula" root
                            (if str_in (get "type" linked)
                                  ["Picklist"; "MultiselectPicklist"]
                             then match picklist_texts root with
                                  | [] => linked
                                  | v :: l => set "picklist_values" (VList (v :: l)) linked
                                  end
                             else linked)))
                = get k linked).
      { intros k H1 H2 H3. rewrite !get_set_text_other by assumption.
        now apply get_after_picklist. }
      destruct (reference_target root) as [r|] eqn:Hr; eexists; split.
      * apply (f_equal2 pair); [reflexivity|].
        f_equal. f_equal. unfold relationship_edge, get_default.
        rewrite !Hfin by discriminate. rewrite Hlref, Hlty. reflexivity.
      * repeat split; try (rewrite Hfin by discriminate; assumption).
        intros _ _ _. rewrite Hfin by discriminate. exact Hlref.
      * reflexivity.
      * repeat split; try (rewrite Hfin by discriminate; assumption).
        intros _ _ _. rewrite Hfin by discriminate. exact Hlref.
    + eexists. split; [destruct (reference_target root); reflexivity|].
      repeat split.
      * frame. rewrite get_after_picklist by discriminate. exact Hapi.
      * frame. rewrite get_after_picklist by discriminate. exact Hty.
      * frame. rewrite get_after_picklist by discriminate. exact Hpe.
      * intros t' [= <-] Habs. rewrite Hrt in Habs. discriminate.
  - eexists. split; [reflexivity|]. repeat split.
    + frame. rewrite get_after_picklist by discriminate. exact Hapi.
    + frame. rewrite get_after_picklist by discriminate. exact Hty.
    + frame. rewrite get_after_picklist by discriminate. exact Hpe.
    + discriminate.
Qed.

(** [parse_field] on a parsed document does not look at the relationship
    list when it builds the field. *)
Lemma parse_field_fst (field_file : file) (parent_object : string)
    (relationships relationships' : list value) :
  fst (parse_field field_file parent_object relationships)
  = fst (parse_field field_file parent_object relationships').
Proof.
  unfold parse_field. destruct (content field_file) as [root|]; [|reflexivity].
  cbv zeta. destruct (str_in _ _); [|reflexivity].
  destruct (mem "reference_to" _); reflexivity.
Qed.

Lemma is_reference_type_iff (t : string) :
  is_reference_type t = true <-> t = "Lookup" \/ t = "MasterDetail".
Proof.
  unfold is_reference_type. rewrite orb_true_iff, !String.eqb_eq. reflexivity.
Qed.

(** C9.  A parsed field whose type is Lookup or MasterDetail and whose
    document carries a non-empty reference target emits exactly one
    relationship edge, from the parent object and the field's [api_name]
    to the (first) reference target, typed with the field's type; a field
    of any other type, or one with no target, emits none. *)
Theorem parse_field_relationship_edge (field_file : file) (parent_object : string)
    (relationships : list value) (root : element) :
  content field_file = Some root ->
  exists field_data,
    fst (parse_field field_file parent_object relationships) = Some field_data
    /\ get "api_name" field_data = Some (VStr (field_name_of field_file root))
    /\ get "type" field_data = option_map VStr (type_text root)
    /\ (forall t r,
          type_text root = Some t -> t = "Lookup" \/ t = "MasterDetail" ->
          reference_target root = Some r ->
          get "reference_to" field_data = Some (VStr r)
          /\ exists edge,
               snd (parse_field field_file parent_object relationships)
               = (relationships ++ [VDict edge])%list
               /\ get "from_object" edge = Some (VStr parent_object)
               /\ get "from_field" edge = Some (VStr (field_name_of field_file root))
               /\ get "to_object" edge = Some (VStr r)
               /\ get "relationship_type" edge = Some (VStr t))
    /\ ((forall t, type_text root = Some t -> t <> "Lookup" /\ t <> "MasterDetail")
        \/ reference_target root = None ->
        snd (parse_field field_file parent_object relationships) = relationships).
Proof.
  intros Hc.
  destruct (parse_field_parsed field_file parent_object relationships root Hc)
    as (field_data & Hpf & Hapi & Hty & _ & Href).
  exists field_data. rewrite Hpf. cbn [fst snd].
  split; [reflexivity|]. split; [assumption|]. split; [assumption|]. split.
  - intros t r Ht Hkind Hr. apply is_reference_type_iff in Hkind.
    split; [rewrite (Href t Ht Hkind), Hr; reflexivity|].
    rewrite Ht, Hr, Hkind. eexists. split; [reflexivity|].
    repeat split; reflexivity.
  - intros [Hother|Hnone].
    + destruct (type_text root) as [t|]; [|reflexivity].
      destruct (reference_target root); [|reflexivity].
      destruct (is_reference_type t) eqn:Hk; [|reflexivity].
      apply is_reference_type_iff in Hk. destruct (Hother t eq_refl) as (H1 & H2).
      destruct Hk; contradiction.
    + rewrite Hnone. now destruct (type_text root).
Qed.

Lemma parse_field_relationship_edge_witness :
  exists edge,
    snd (parse_field contact_lookup "Case" []) = [VDict edge]
    /\ get "from_object" edge = Some (VStr "Case")
    /\ get "from_field" edge = Some (VStr "ContactId")
    /\ get "to_object" edge = Some (VStr "Contact")
    /\ get "relationship_type" edge = Some (VStr "Lookup").
Proof.
  destruct (parse_field_relationship_edge contact_lookup "Case" [] _ eq_refl)
    as (field_data & _ & _ & _ & Hedge & _).
  destruct (Hedge "Lookup" "Contact" eq_refl (or_introl eq_refl) eq_refl)
    as (_ & edge & Hsnd & Hfrom & Hfield & Hto & Hkind).
  exists edge. repeat split; assumption.
Defined.

End ParseField.

(* ================================================================== *)
(** * Parser: one object directory *)
(* ================================================================== *)

Section ParseObject.

Import Xml Str Parser.

Lemma parse_fields_entries (obj_name : string) (field_files : list file) :
  forall relationships,
    fst (parse_fields field_files obj_name relationships)
    = flat_map (field_entry obj_name) field_files.
Proof.
  induction field_files as [|f rest IH]; intros relationships; simpl; [reflexivity|].
  destruct (parse_field f obj_name relationships) as [fd rels] eqn:Hf.
  specialize (IH rels).
  destruct (parse_fields rest obj_name rels) as [fields rels'].
  simpl in *. unfold field_entry at 1.
  rewrite (parse_field_fst f obj_name [] relationships), Hf. simpl.
  rewrite IH. now destruct fd.
Qed.

Lemma field_entry_malformed (obj_name : string) (field_file : file) :
  content field_file = None -> field_entry obj_name field_file = [].
Proof.
  intros H. unfold field_entry, parse_field. now rewrite H.
Qed.

Lemma field_entry_well_formed (obj_name : string) (field_file : file) (root : element) :
  content field_file = Some root ->
  exists d,
    field_entry obj_name field_file = [VDict d]
    /\ get "api_name" d = Some (VStr (field_name_of field_file root))
    /\ get "parse_error" d = None.
Proof.
  intros H.
  destruct (parse_field_parsed field_file obj_name [] root H)
    as (d & Hpf & Hapi & _ & Hpe & _).
  exists d. unfold field_entry. rewrite Hpf. auto.
Qed.

Lemma flat_map_field_entry_length (obj_name : string) (field_files : list file) :
  length (flat_map (field_entry obj_name) field_files)
  = length (filter well_formed field_files).
Proof.
  induction field_files as [|f rest IH]; simpl; [reflexivity|].
  rewrite length_app, IH. unfold well_formed at 2.
  destruct (content f) as [root|] eqn:Hc.
  - destruct (field_entry_well_formed obj_name f root Hc) as (d & -> & _).
    reflexivity.
  - now rewrite (field_entry_malformed obj_name f Hc).
Qed.

Lemma parse_object_fields (obj_dir : object_dir) (relationships : list value) :
  let obj := fst (parse_object obj_dir relationships) in
  get "api_name" obj = Some (VStr (dir_name obj_dir))
  /\ get "fields" obj
     = Some (VList (flat_map (field_entry (dir_name obj_dir))
                      (sorted_glob ".field-meta.xml" (fields_dir obj_dir)))).
Proof.
  unfold parse_object. cbv zeta.
  rewrite <- (parse_fields_entries (dir_name obj_dir) _ relationships).
  destruct (parse_fields _ _ _) as [fields rels]. cbn [fst].
  split.
  - rewrite !get_set_other by discriminate.
    destruct (meta_file obj_dir) as [[root|]|];
      [destruct (nonempty_text (find (sf "label") root)); unfold set_text;
       destruct (nonempty_text (find (sf "description") root)) | |];
      rewrite ?get_set_other by discriminate; reflexivity.
  - rewrite !get_set_other by discriminate. apply get_set_same.
Qed.

(** C3, as the code has it.  When the [fields/] directory of an object
    holds documents that do not parse, the object still parses: its field
    list holds, in file-name order, exactly the fields of the documents
    that do parse, each parsed as it would be alone; a document that does
    not parse contributes no entry at all, and no entry carries a
    parse-error marker.  With one malformed document among ten, the object
    has nine fields. *)
Theorem parse_object_malformed_field (obj_dir : object_dir)
    (relationships : list value) (files : list file) :
  fields_dir obj_dir = Some files ->
  let docs := sorted_glob ".field-meta.xml" (Some files) in
  exists fields,
    get "api_name" (fst (parse_object obj_dir relationships))
    = Some (VStr (dir_name obj_dir))
    /\ get "fields" (fst (parse_object obj_dir relationships)) = Some (VList fields)
    /\ fields = flat_map (field_entry (dir_name obj_dir)) docs
    /\ (forall f, In f docs -> content f = None ->
        field_entry (dir_name obj_dir) f = [])
    /\ (forall f root, In f docs -> content f = Some root ->
        exists d, field_entry (dir_name obj_dir) f = [VDict d]
                  /\ In (VDict d) fields
                  /\ get "api_name" d = Some (VStr (field_name_of f root)))
    /\ length fields = length (filter well_formed docs)
    /\ (forall d, In (VDict d) fields -> get "parse_error" d = None).
Proof.
  intros Hdir docs.
  destruct (parse_object_fields obj_dir relationships) as (Hapi & Hfields).
  rewrite Hdir in Hfields. fold docs in Hfields.
  exists (flat_map (field_entry (dir_name obj_dir)) docs).
  repeat split; try assumption.
  - intros f _ Hc. now apply field_entry_malformed.
  - intros f root Hin Hc.
    destruct (field_entry_well_formed (dir_name obj_dir) f root Hc) as (d & He & Ha & _).
    exists d. repeat split; try assumption.
    apply in_flat_map. exists f. split; [assumption|]. rewrite He. now left.
  - apply flat_map_field_entry_length.
  - intros d Hin. apply in_flat_map in Hin. destruct Hin as (f & _ & Hin).
    destruct (content f) as [root|] eqn:Hc.
    + destruct (field_entry_well_formed (dir_name obj_dir) f root Hc)
        as (d' & He & _ & Hpe).
      rewrite He in Hin. destruct Hin as [[= <-]|[]]. exact Hpe.
    + rewrite (field_entry_malformed _ f Hc) in Hin. destruct Hin.
Qed.

Lemma parse_object_malformed_field_witness :
  exists fields,
    get "fields" (fst (parse_object ten_fields [])) = Some (VList fields)
    /\ length fields = 9
    /\ forall d, In (VDict d) fields -> get "parse_error" d = None.
Proof.
  destruct (parse_object_malformed_field ten_fields [] _ eq_refl)
    as (fields & _ & Hfields & _ & _ & _ & Hlen & Hpe).
  exists fields. repeat split; assumption.
Defined.

(** One malformed document among ten: nine fields, and nothing stands in
    for the tenth -- no entry named after it, no parse-error marker. *)
Lemma parse_object_no_placeholder :
  exists fields,
    get "fields" (fst (parse_object ten_fields [])) = Some (VList fields)
    /\ length fields = 9
    /\ api_names fields
       = map (fun n => Some (VStr n))
           ["A__c"; "B__c"; "C__c"; "E__c"; "F__c"; "G__c"; "H__c"; "I__c"; "J__c"]
    /\ forallb (fun f => match f with
                         | VDict d => negb (mem "parse_error" d)
                         | _ => false
                         end) fields = true.
Proof.
  eexists. split; [vm_compute; reflexivity|].
  repeat split.
Qed.

End ParseObject.

(* ================================================================== *)
(** * Sorting by name *)
(* ================================================================== *)

Section SortedByName.

Import Str.

Lemma ascii_compare_refl (a : ascii) : Ascii.compare a a = Eq.
Proof. unfold Ascii.compare. apply N.compare_refl. Qed.

Lemma ascii_compare_lt_trans (a b c : ascii) :
  Ascii.compare a b = Lt -> Ascii.compare b c = Lt -> Ascii.compare a c = Lt.
Proof.
  unfold Ascii.compare. rewrite !N.compare_lt_iff. lia.
Qed.

Lemma string_compare_lt_trans (s1 : string) :
  forall s2 s3,
    String.compare s1 s2 = Lt -> String.compare s2 s3 = Lt ->
    String.compare s1 s3 = Lt.
Proof.
  induction s1 as [|a s1 IH]; intros [|b s2] [|c s3]; simpl;
    try discriminate; try reflexivity.
  destruct (Ascii.compare a b) eqn:E1; destruct (Ascii.compare b c) eqn:E2;
    try discriminate; intros H1 H2.
  - apply Ascii.compare_eq_iff in E1, E2. subst.
    rewrite ascii_compare_refl. eapply IH; eassumption.
  - apply Ascii.compare_eq_iff in E1. subst. now rewrite E2.
  - apply Ascii.compare_eq_iff in E2. subst. now rewrite E1.
  - now rewrite (ascii_compare_lt_trans a b c E1 E2).
Qed.

Lemma string_leb_trans (a b c : string) :
  String.leb a b = true -> String.leb b c = true -> String.leb a c = true.
Proof.
  unfold String.leb.
  destruct (String.compare a b) eqn:E1; try discriminate;
    destruct (String.compare b c) eqn:E2; try discriminate; intros _ _.
  - apply String.compare_eq_iff in E1. subst. now rewrite E2.
  - apply String.compare_eq_iff in E1. subst. now rewrite E2.
  - apply String.compare_eq_iff in E2. subst. now rewrite E1.
  - now rewrite (string_compare_lt_trans a b c E1 E2).
Qed.

Lemma string_leb_exclusive (a b : string) :
  a <> b -> String.leb a b = negb (String.leb b a).
Proof.
  intros Hne. destruct (String.leb a b) eqn:E1; destruct (String.leb b a) eqn:E2;
    try reflexivity.
  - exfalso. apply Hne. now apply String.leb_antisym.
  - destruct (String.leb_total a b); congruence.
Qed.

Context {A : Type} (key : A -> string).

Lemma insert_by_comm (x y : A) (l : list A) :
  key x <> key y ->
  insert_by key x (insert_by key y l) = insert_by key y (insert_by key x l).
Proof.
  intros Hne.
  assert (Hxy := string_leb_exclusive (key x) (key y) Hne).
  induction l as [|z l IH]; simpl.
  - rewrite Hxy. now destruct (String.leb (key y) (key x)).
  - destruct (String.leb (key y) (key z)) eqn:Eyz;
      destruct (String.leb (key x) (key z)) eqn:Exz; simpl;
      rewrite ?Eyz, ?Exz.
    + rewrite Hxy. now destruct (String.leb (key y) (key x)).
    + destruct (String.leb (key x) (key y)) eqn:Exy.
      * now rewrite (string_leb_trans _ _ _ Exy Eyz) in Exz.
      * reflexivity.
    + destruct (String.leb (key y) (key x)) eqn:Eyx.
      * now rewrite (string_leb_trans _ _ _ Eyx Exz) in Eyz.
      * reflexivity.
    + now rewrite IH.
Qed.

(** Names that are pairwise distinct fix the sorted order: [sorted] gives
    the same list for every order of enumeration. *)
Lemma sorted_by_perm (l1 l2 : list A) :
  Permutation l1 l2 -> NoDup (map key l1) ->
  sorted_by key l1 = sorted_by key l2.
Proof.
  induction 1 as [|x l l' Hp IH|x y l|l l' l'' Hp1 IH1 Hp2 IH2]; intros Hnd; simpl.
  - reflexivity.
  - inversion Hnd; subst. now rewrite IH.
  - apply insert_by_comm. simpl in Hnd. inversion Hnd as [|? ? Hnotin _]; subst.
    intros Heq. apply Hnotin. left. now symmetry.
  - rewrite IH1 by assumption. apply IH2.
    eapply Permutation_NoDup; [|exact Hnd]. now apply Permutation_map.
Qed.

Variable R : A -> A -> Prop.
Hypothesis R_key : forall a b, R a b -> key a = key b.

Lemma insert_by_Forall2 (x y : A) (xs ys : list A) :
  R x y -> Forall2 R xs ys ->
  Forall2 R (insert_by key x xs) (insert_by key y ys).
Proof.
  intros Hxy H. induction H as [|a b xs ys Hab H IH]; simpl.
  - repeat constructor. assumption.
  - rewrite <- (R_key _ _ Hxy), <- (R_key _ _ Hab).
    destruct (String.leb (key x) (key a)); repeat constructor; assumption.
Qed.

Lemma sorted_by_Forall2 (xs ys : list A) :
  Forall2 R xs ys -> Forall2 R (sorted_by key xs) (sorted_by key ys).
Proof.
  induction 1; simpl; [constructor|]. now apply insert_by_Forall2.
Qed.

End SortedByName.

(* ================================================================== *)
(** * Parser: repeated runs *)
(* ================================================================== *)

Section RepeatedRuns.

Import Xml Str Parser.

Lemma filter_perm {A : Type} (f : A -> bool) (l l' : list A) :
  Permutation l l' -> Permutation (filter f l) (filter f l').
Proof.
  induction 1 as [|x l l' Hp IH|x y l|l l' l'' Hp1 IH1 Hp2 IH2]; simpl.
  - constructor.
  - destruct (f x); [now constructor | assumption].
  - destruct (f x); destruct (f y); try apply Permutation_refl. apply perm_swap.
  - eapply Permutation_trans; eassumption.
Qed.

Lemma filter_names_nodup (f : file -> bool) (l : list file) :
  NoDup (map name l) -> NoDup (map name (filter f l)).
Proof.
  induction l as [|x l IH]; simpl; intros H; [constructor|].
  inversion H as [|? ? Hnotin Hnd]; subst.
  destruct (f x); simpl; [|now apply IH].
  constructor; [|now apply IH]. intros Hin. apply Hnotin.
  apply in_map_iff in Hin. destruct Hin as (y & Hy & Hin).
  apply in_map_iff. exists y. split; [assumption|].
  apply filter_In in Hin. tauto.
Qed.

Lemma sorted_glob_same (suffix : string) (a b : option (list file)) :
  same_listing a b -> distinct_names a ->
  sorted_glob suffix a = sorted_glob suffix b.
Proof.
  destruct a as [x|], b as [y|]; simpl; try tauto.
  intros Hp Hnd. apply sorted_by_perm.
  - now apply filter_perm.
  - now apply filter_names_nodup.
Qed.

Lemma parse_object_same (d1 d2 : object_dir) (relationships : list value) :
  same_dir d1 d2 -> dir_ok d1 ->
  parse_object d1 relationships = parse_object d2 relationships.
Proof.
  intros (Hn & Hm & Hf & Hr & Hv) (Of & Or & Ov). unfold parse_object.
  rewrite Hn, Hm.
  rewrite (sorted_glob_same _ _ _ Hf Of), (sorted_glob_same _ _ _ Hr Or),
    (sorted_glob_same _ _ _ Hv Ov).
  reflexivity.
Qed.

Lemma agree_name (d1 d2 : object_dir) : agree d1 d2 -> dir_name d1 = dir_name d2.
Proof. intros [H _]. apply H. Qed.

Lemma parse_objects_same (xs ys : list object_dir) :
  Forall2 agree xs ys ->
  forall relationships, parse_objects xs relationships = parse_objects ys relationships.
Proof.
  induction 1 as [|x y xs ys [Hs Ho] H IH]; intros relationships; simpl;
    [reflexivity|].
  rewrite (parse_object_same x y relationships Hs Ho).
  destruct (parse_object y relationships) as [obj rels]. now rewrite IH.
Qed.

Lemma object_dirs_perm (l l' : list entry) :
  Permutation l l' -> Permutation (object_dirs l) (object_dirs l').
Proof.
  induction 1 as [|x l l' Hp IH|x y l|l l' l'' Hp1 IH1 Hp2 IH2]; simpl.
  - constructor.
  - now apply Permutation_app_head.
  - destruct x, y; simpl; try apply Permutation_refl. apply perm_swap.
  - eapply Permutation_trans; eassumption.
Qed.

Lemma object_dirs_agree (l l2 : list entry) :
  Forall2 same_entry l l2 -> (forall d, In (Dir d) l -> dir_ok d) ->
  Forall2 agree (object_dirs l) (object_dirs l2).
Proof.
  induction 1 as [|x y l l2 Hxy H IH]; intros Hok; simpl; [constructor|].
  assert (IH' : Forall2 agree (object_dirs l) (object_dirs l2))
    by (apply IH; intros d Hd; apply Hok; now right).
  destruct x as [d1|n1], y as [d2|n2]; simpl in *; try contradiction;
    [|assumption].
  constructor; [|assumption]. split; [assumption|]. apply Hok. now left.
Qed.

Lemma object_dirs_names_nodup (l : list entry) :
  NoDup (map name_of l) -> NoDup (map dir_name (object_dirs l)).
Proof.
  induction l as [|x l IH]; simpl; intros H; [constructor|].
  inversion H as [|? ? Hnotin Hnd]; subst.
  destruct x as [d|n]; simpl; [|now apply IH].
  constructor; [|now apply IH]. intros Hin. apply Hnotin.
  apply in_map_iff in Hin. destruct Hin as (d' & Hd' & Hin).
  apply in_map_iff. exists (Dir d'). split; [assumption|].
  unfold object_dirs in Hin. apply in_flat_map in Hin.
  destruct Hin as (e & He & Hin). destruct e; simpl in Hin; [|destruct Hin].
  destruct Hin as [<-|[]]. assumption.
Qed.

Lemma parse_all_objects_same (generated_date objects_path : string)
    (l1 l2 : list entry) :
  tree_ok l1 -> same_tree l1 l2 ->
  parse_all_objects generated_date objects_path l1
  = parse_all_objects generated_date objects_path l2.
Proof.
  intros [Hnd Hok] (l & Hperm & Hsame). unfold parse_all_objects.
  rewrite (sorted_by_perm dir_name _ _ (object_dirs_perm _ _ Hperm)
             (object_dirs_names_nodup _ Hnd)).
  assert (Hok' : forall d, In (Dir d) l -> dir_ok d).
  { intros d Hd. apply Hok. eapply Permutation_in; [|exact Hd].
    now apply Permutation_sym. }
  rewrite (parse_objects_same _ _
             (sorted_by_Forall2 dir_name agree agree_name _ _
                (object_dirs_agree _ _ Hsame Hok')) []).
  reflexivity.
Qed.

Lemma without_timestamp_generate (t1 t2 objects_path : string) (l : list entry) :
  without_timestamp (generate t1 objects_path l)
  = without_timestamp (generate t2 objects_path l).
Proof.
  unfold generate, parse_all_objects, save_yaml, without_timestamp.
  destruct (parse_objects _ _) as [objects relationships].
  cbn [header body map]. rewrite !redact_line_generated. reflexivity.
Qed.

(** C4, as the code has it.  Two runs of parse-and-save over an unchanged
    document tree write the same document whatever order the file system
    enumerates directories and files in -- the names alone fix the order of
    the output -- except for the generation timestamp, which each run takes
    from the clock. *)
Theorem generate_repeatable (listing1 listing2 : list entry) (objects_path : string) :
  tree_ok listing1 -> same_tree listing1 listing2 ->
  (forall t, generate t objects_path listing1 = generate t objects_path listing2)
  /\ (forall t1 t2,
        without_timestamp (generate t1 objects_path listing1)
        = without_timestamp (generate t2 objects_path listing2)).
Proof.
  intros Hok Hsame.
  assert (Hgen : forall t, generate t objects_path listing1
                           = generate t objects_path listing2).
  { intros t. unfold generate.
    now rewrite (parse_all_objects_same t objects_path _ _ Hok Hsame). }
  split; [exact Hgen|].
  intros t1 t2. rewrite (Hgen t1). apply without_timestamp_generate.
Qed.

Lemma generate_repeatable_witness :
  let first := [Dir case_dir; Other "README.md";
                Dir (account_dir [text_field "Tier"; text_field "Region"])] in
  let second := [Other "README.md";
                 Dir (account_dir [text_field "Region"; text_field "Tier"]);
                 Dir case_dir] in
  generate "2025-01-01T00:00:00" "objects" first
  = generate "2025-01-01T00:00:00" "objects" second
  /\ without_timestamp (generate "2025-01-01T00:00:00" "objects" first)
     = without_timestamp (generate "2025-06-30T12:00:00" "objects" second).
Proof.
  intros first second.
  assert (Hok : tree_ok first).
  { split.
    - simpl. repeat constructor; simpl; intuition discriminate.
    - intros d [[= <-]|[H|[[= <-]|[]]]]; try discriminate H;
        repeat split; simpl; repeat constructor; simpl; intuition discriminate. }
  assert (Hsame : same_tree first second).
  { exists [Other "README.md";
            Dir (account_dir [text_field "Tier"; text_field "Region"]);
            Dir case_dir].
    split.
    - apply (Permutation_cons_app
               [Other "README.md";
                Dir (account_dir [text_field "Tier"; text_field "Region"])] []).
      simpl. apply Permutation_refl.
    - repeat constructor; simpl; try reflexivity. }
  destruct (generate_repeatable first second "objects" Hok Hsame) as (Hsame_clock & Hany).
  split; [apply Hsame_clock | apply Hany].
Defined.

(** Two runs over one and the same tree, a day apart, do not write the same
    document: the generation timestamp differs. *)
Lemma generate_timestamp_differs :
  generate "2025-01-01T00:00:00" "objects" [Dir case_dir]
  <> generate "2025-01-02T00:00:00" "objects" [Dir case_dir].
Proof.
  intros H. apply (f_equal (fun f => nth 2 (header f) "")) in H.
  cbn in H. discriminate H.
Qed.

End RepeatedRuns.

(* ================================================================== *)
(** * Integer texts *)
(* ================================================================== *)

Section IntegerText.

Import Str.

Lemma decode_ascii (l : list N) :
  Forall (fun b => (b < 128)%N) l -> Utf8.decode l = Some l.
Proof.
  induction 1 as [|b l Hb _ IH]; [reflexivity|].
  cbn [Utf8.decode]. apply N.ltb_lt in Hb. now rewrite Hb, IH.
Qed.

Lemma continuation_high (b : N) : Utf8.continuation b = true -> (128 <= b)%N.
Proof.
  unfold Utf8.continuation. intros H. apply andb_prop in H.
  now apply N.leb_le.
Qed.

(** An ASCII byte of a UTF-8 text is one of its code points. *)
Lemma decode_keeps_ascii (n : nat) :
  forall l cps b,
    (length l <= n)%nat -> Utf8.decode l = Some cps ->
    In b l -> (b < 128)%N -> In b cps.
Proof.
  induction n as [|n IH]; intros l cps b Hlen Hd Hin Hb.
  - destruct l; [destruct Hin | simpl in Hlen; lia].
  - destruct l as [|b0 l1]; [destruct Hin|]. cbn [Utf8.decode] in Hd.
    simpl in Hlen.
    destruct (b0 <? 128)%N eqn:E0.
    { destruct (Utf8.decode l1) as [c1|] eqn:H1; [|discriminate].
      injection Hd as <-. destruct Hin as [-> |Hin]; [now left|].
      right. apply (IH l1); auto; lia. }
    apply N.ltb_ge in E0.
    destruct Hin as [-> |Hin]; [lia|].
    destruct l1 as [|b1 l2]; [discriminate|]. simpl in Hlen.
    destruct ((194 <=? b0)%N && (b0 <? 224)%N).
    { destruct (Utf8.continuation b1) eqn:C1; [|discriminate].
      apply continuation_high in C1.
      destruct (Utf8.decode l2) as [c2|] eqn:H2; [|discriminate].
      injection Hd as <-. destruct Hin as [-> |Hin]; [lia|].
      right. apply (IH l2); auto; lia. }
    destruct l2 as [|b2 l3]; [discriminate|]. simpl in Hlen.
    destruct ((224 <=? b0)%N && (b0 <? 240)%N).
    { cbv zeta in Hd.
      destruct (Utf8.continuation b1) eqn:C1; [|discriminate].
      destruct (Utf8.continuation b2) eqn:C2; [|discriminate].
      apply continuation_high in C1, C2. cbn [andb] in Hd.
      destruct (_ && _); [|discriminate].
      destruct (Utf8.decode l3) as [c3|] eqn:H3; [|discriminate].
      injection Hd as <-. destruct Hin as [-> |[-> |Hin]]; [lia|lia|].
      right. apply (IH l3); auto; lia. }
    destruct l3 as [|b3 l4]; [discriminate|]. simpl in Hlen.
    destruct ((240 <=? b0)%N && (b0 <? 245)%N); [|discriminate].
    cbv zeta in Hd.
    destruct (Utf8.continuation b1) eqn:C1; [|discriminate].
    destruct (Utf8.continuation b2) eqn:C2; [|discriminate].
    destruct (Utf8.continuation b3) eqn:C3; [|discriminate].
    apply continuation_high in C1, C2, C3. cbn [andb] in Hd.
    destruct (_ && _); [|discriminate].
    destruct (Utf8.decode l4) as [c4|] eqn:H4; [|discriminate].
    injection Hd as <-. destruct Hin as [-> |[-> |[-> |Hin]]]; [lia|lia|lia|].
    right. apply (IH l4); auto; lia.
Qed.

Lemma foreign_code_spec (x : N) :
  foreign_code x = true ->
  is_space x = false /\ digit_of x = None /\ (x =? 95)%N = false
  /\ (x =? 45)%N = false /\ (x =? 43)%N = false.
Proof.
  unfold foreign_code, digit_of. intros H. apply andb_prop in H as [_ H].
  apply negb_true_iff in H. rewrite !orb_false_iff in H.
  destruct H as ((((-> & ->) & ->) & ->) & ->). auto.
Qed.

(** What the conversion to ASCII leaves of an ASCII code: the code itself,
    or the ["?"] at which the conversion stopped. *)
Lemma to_ascii_keeps (cps : list N) (b : N) :
  In b cps -> foreign_code b = true ->
  exists x, In x (to_ascii cps) /\ foreign_code x = true.
Proof.
  intros Hin Hb. unfold to_ascii.
  destruct (forallb _ cps); [eauto|].
  induction cps as [|c rest IH]; [destruct Hin|]. cbn [transform].
  destruct (c <? 127)%N eqn:Ec.
  - destruct Hin as [-> |Hin]; [exists b; split; [now left | assumption]|].
    destruct (IH Hin) as (x & Hx & Hfx). exists x. split; [now right | assumption].
  - destruct (is_unicode_space c) eqn:Es.
    + destruct Hin as [-> |Hin].
      * exfalso. apply N.ltb_ge in Ec. unfold foreign_code in Hb.
        apply andb_prop in Hb as [Hb _]. apply N.ltb_lt in Hb.
        assert (b = 127%N) by lia. subst b. discriminate Es.
      * destruct (IH Hin) as (x & Hx & Hfx). exists x. split; [now right | assumption].
    + destruct (to_decimal c) as [d|] eqn:Ed.
      * destruct Hin as [-> |Hin].
        -- exfalso. apply N.ltb_ge in Ec. unfold foreign_code in Hb.
           apply andb_prop in Hb as [Hb _]. apply N.ltb_lt in Hb.
           assert (b = 127%N) by lia. subst b. discriminate Ed.
        -- destruct (IH Hin) as (x & Hx & Hfx). exists x. split; [now right | assumption].
      * exists 63%N. split; [now left | reflexivity].
Qed.

Lemma lstrip_keeps (l : list N) (x : N) :
  In x l -> is_space x = false -> In x (lstrip l).
Proof.
  intros Hin Hx. induction l as [|c l IH]; [destruct Hin|]. cbn [lstrip].
  destruct (is_space c) eqn:Ec; [|exact Hin].
  destruct Hin as [-> |Hin]; [congruence | now apply IH].
Qed.

Lemma digits_foreign (x : N) (l : list N) :
  In x l -> digit_of x = None -> (x =? 95)%N = false ->
  forall acc after_digit count, digits l acc after_digit count = None.
Proof.
  intros Hin Hd Hu. induction l as [|c l IH]; [destruct Hin|].
  intros acc after_digit count. cbn [digits].
  destruct Hin as [-> |Hin].
  - now rewrite Hd, Hu.
  - destruct (digit_of c); [now apply IH|].
    destruct (_ && _); [now apply IH | reflexivity].
Qed.

Lemma parse_long_foreign (l : list N) (x : N) :
  In x l -> foreign_code x = true -> parse_long l = None.
Proof.
  intros Hin Hx.
  destruct (foreign_code_spec x Hx) as (Hs & Hd & Hu & Hm & Hp).
  assert (Hstrip : In x (strip l)).
  { unfold strip. apply -> in_rev. apply lstrip_keeps; [|assumption].
    apply -> in_rev. now apply lstrip_keeps. }
  unfold parse_long. destruct (strip l) as [|c l']; [reflexivity|].
  destruct (c =? 45)%N eqn:E45.
  - destruct Hstrip as [-> |Hin']; [congruence|].
    now rewrite (digits_foreign x l' Hin' Hd Hu).
  - destruct (c =? 43)%N eqn:E43.
    + destruct Hstrip as [-> |Hin']; [congruence|].
      now apply digits_foreign with (x := x).
    + now apply digits_foreign with (x := x).
Qed.

(** A text with a character no integer literal has is not an integer. *)
Lemma py_int_foreign (s : string) (c : ascii) :
  In c (list_ascii_of_string s) -> foreign c = true -> py_int s = None.
Proof.
  intros Hin Hc. unfold py_int, Utf8.code_points.
  destruct (Utf8.decode (Utf8.bytes s)) as [cps|] eqn:Hd; [|reflexivity].
  assert (Hb : In (N_of_ascii c) cps).
  { apply (decode_keeps_ascii _ _ _ _ (le_n _) Hd).
    - unfold Utf8.bytes. now apply in_map.
    - unfold foreign, foreign_code in Hc. apply andb_prop in Hc as [Hc _].
      now apply N.ltb_lt. }
  destruct (to_ascii_keeps cps _ Hb Hc) as (x & Hx & Hfx).
  exact (parse_long_foreign _ x Hx Hfx).
Qed.

Lemma digits_all (l : list N) :
  forallb (fun b => (48 <=? b)%N && (b <=? 57)%N) l = true ->
  forall acc after_digit count,
    (l <> [] \/ after_digit = true) ->
    (count + length l <= max_str_digits)%nat ->
    digits l acc after_digit count
    = Some (fold_left (fun a b => (10 * a + Z.of_N (b - 48))%Z) l acc).
Proof.
  induction l as [|c l IH]; intros Hall acc after_digit count Hne Hlen.
  - destruct Hne as [Hne| ->]; [now destruct Hne|]. cbn [digits fold_left].
    simpl in Hlen. rewrite Nat.add_0_r in Hlen.
    apply Nat.leb_le in Hlen. now rewrite Hlen.
  - cbn [forallb] in Hall. apply andb_prop in Hall as [Hc Hall].
    cbn [digits fold_left]. unfold digit_of. rewrite Hc.
    apply IH; [assumption | now right | simpl in Hlen; lia].
Qed.

Lemma strip_digits (l : list N) :
  forallb (fun b => (48 <=? b)%N && (b <=? 57)%N) l = true -> strip l = l.
Proof.
  intros Hall.
  assert (Hns : forall x, In x l -> is_space x = false).
  { intros x Hx. rewrite forallb_forall in Hall. specialize (Hall x Hx).
    apply andb_prop in Hall as [H1 H2].
    apply N.leb_le in H1, H2. unfold is_space.
    destruct (N.eqb_spec x 32); [lia|].
    destruct (N.leb_spec 9 x); destruct (N.leb_spec x 13); try reflexivity; lia. }
  assert (Hl : forall m, (forall x, In x m -> is_space x = false) -> lstrip m = m).
  { intros [|c m] Hm; [reflexivity|]. cbn [lstrip].
    now rewrite (Hm c (or_introl eq_refl)). }
  unfold strip. rewrite (Hl l Hns), Hl; [apply rev_involutive|].
  intros x Hx. apply Hns. now apply in_rev.
Qed.

(** A text of ASCII digits, within the limit, is the integer it writes. *)
Lemma py_int_digits (s : string) :
  ascii_digits s = true -> (String.length s <= max_str_digits)%nat ->
  py_int s = Some (decimal_value s).
Proof.
  unfold ascii_digits, decimal_value, py_int, Utf8.code_points.
  intros Hd Hlen.
  assert (Hbl : length (Utf8.bytes s) = String.length s).
  { unfold Utf8.bytes. rewrite length_map. clear.
    induction s as [|c s IH]; simpl; [reflexivity | now f_equal]. }
  rewrite <- Hbl in Hlen. clear Hbl.
  destruct (Utf8.bytes s) as [|b l] eqn:Hb; [discriminate|].
  assert (Hlow : Forall (fun x => (x < 128)%N) (b :: l)).
  { apply Forall_forall. intros x Hx. rewrite forallb_forall in Hd.
    specialize (Hd x Hx). apply andb_prop in Hd as [_ H2].
    apply N.leb_le in H2. lia. }
  rewrite (decode_ascii _ Hlow). unfold to_ascii.
  assert (Hfa : forallb (fun c => (c <? 128)%N) (b :: l) = true).
  { apply forallb_forall. intros x Hx. rewrite Forall_forall in Hlow.
    apply N.ltb_lt. now apply Hlow. }
  rewrite Hfa. unfold parse_long. rewrite (strip_digits _ Hd).
  pose proof Hd as Hd'. cbn [forallb] in Hd'. apply andb_prop in Hd' as [Hb0 _].
  apply andb_prop in Hb0 as [Hb1 Hb2]. apply N.leb_le in Hb1, Hb2.
  destruct (N.eqb_spec b 45); [lia|]. destruct (N.eqb_spec b 43); [lia|].
  apply digits_all; [assumption | left; discriminate | exact Hlen].
Qed.

End IntegerText.

(* ================================================================== *)
(** * Parser: the attributes of a field *)
(* ================================================================== *)

Section FieldAttributes.

Import Xml Str Parser.

Ltac frame :=
  repeat first [ rewrite get_set_text_other by discriminate
               | rewrite get_set_bool_other by discriminate
               | rewrite get_set_int_other by discriminate
               | rewrite get_set_other by discriminate ].

Lemma parse_field_shape (field_file : file) (parent_object : string)
    (relationships : list value) (root : element) :
  content field_file = Some root ->
  parse_field field_file parent_object relationships
  = (Some (field_of field_file root),
     if str_in (get "type" (base_data field_file root)) ["Lookup"; "MasterDetail"]
        && mem "reference_to" (linked_data root (base_data field_file root))
     then (relationships
             ++ [relationship_edge parent_object (field_name_of field_file root)
                   (linked_data root (base_data field_file root))])%list
     else relationships).
Proof.
  intros Hc. unfold parse_field, field_of. rewrite Hc. cbv zeta.
  fold (field_name_of field_file root). fold (base_data field_file root).
  destruct (str_in (get "type" (base_data field_file root)) ["Lookup"; "MasterDetail"]);
    cbn [andb]; [|reflexivity].
  fold (linked_data root (base_data field_file root)).
  destruct (mem "reference_to" (linked_data root (base_data field_file root)));
    reflexivity.
Qed.

Lemma get_set_int_same t key root d :
  get key (set_int t key root d)
  = match attr_text t root with
    | Some s =>
        match py_int s with
        | Some z => Some (VInt z)
        | None => get key d
        end
    | None => get key d
    end.
Proof.
  unfold set_int, attr_text. destruct (nonempty_text _) as [s|]; [|reflexivity].
  destruct (py_int s); [apply get_set_same | reflexivity].
Qed.

Lemma get_finished k root d :
  k <> "picklist_values" -> k <> "formula" -> k <> "default_value" ->
  get k (finished_data root d) = get k d.
Proof.
  intros H1 H2 H3. unfold finished_data.
  rewrite !get_set_text_other by assumption. now apply get_after_picklist.
Qed.

Lemma get_linked k root d :
  k <> "reference_to" -> k <> "relationship_name" -> k <> "relationship_label" ->
  k <> "delete_constraint" ->
  get k (linked_data root d) = get k d.
Proof.
  intros H1 H2 H3 H4. unfold linked_data.
  now rewrite !get_set_text_other by assumption.
Qed.

Lemma get_type_base field_file root :
  get "type" (base_data field_file root) = option_map VStr (type_text root).
Proof.
  unfold base_data. frame. rewrite get_set_text_same. frame.
  unfold type_text. now destruct (nonempty_text _).
Qed.

Lemma get_type_field_of field_file root :
  get "type" (field_of field_file root) = option_map VStr (type_text root).
Proof.
  unfold field_of. cbv zeta. rewrite get_finished by discriminate.
  destruct (str_in _ _); [rewrite get_linked by discriminate|];
    apply get_type_base.
Qed.

Lemma str_in_type (field_file : file) (root : element) (l : list string) :
  str_in (get "type" (base_data field_file root)) l = true ->
  exists t, type_text root = Some t /\ In t l.
Proof.
  rewrite get_type_base. destruct (type_text root) as [t|]; [|discriminate].
  simpl. intros H. apply existsb_exists in H. destruct H as (x & Hin & Heq).
  apply String.eqb_eq in Heq. subst. eauto.
Qed.

Lemma parse_field_numeric_text (field_file : file) (root : element) (key : string) :
  In key ["length"; "precision"; "scale"] ->
  get key (field_of field_file root)
  = match attr_text key root with
    | Some s => option_map VInt (py_int s)
    | None => None
    end.
Proof.
  intros Hkey. unfold field_of. cbv zeta.
  assert (Hbase : get key (base_data field_file root)
                  = match attr_text key root with
                    | Some s => option_map VInt (py_int s)
                    | None => None
                    end).
  { unfold base_data. simpl in Hkey.
    destruct Hkey as [<-|[<-|[<-|[]]]]; frame; rewrite get_set_int_same; frame;
      simpl; destruct (attr_text _ root) as [s|]; try reflexivity;
      now destruct (py_int s). }
  simpl in Hkey.
  destruct Hkey as [<-|[<-|[<-|[]]]]; rewrite get_finished by discriminate;
    (destruct (str_in _ _); [rewrite get_linked by discriminate|]); exact Hbase.
Qed.

(** X1.  Numeric attributes never abort a field: a well-formed field
    document always parses, and each of [length], [precision] and [scale]
    is either left out or an integer.  It is left out when the element is
    missing or empty, and when its text has an ASCII character no integer
    literal has (a letter, a dot, ...); it is the number written when the
    text is made of ASCII digits, at most [max_str_digits] (4300) of
    them. *)
Theorem parse_field_numeric (field_file : file) (parent_object : string)
    (relationships : list value) (root : element) :
  content field_file = Some root ->
  exists field_data,
    fst (parse_field field_file parent_object relationships) = Some field_data
    /\ forall key, In key ["length"; "precision"; "scale"] ->
         (get key field_data = None
          \/ exists z, get key field_data = Some (VInt z))
         /\ (attr_text key root = None -> get key field_data = None)
         /\ (forall s, attr_text key root = Some s ->
               ascii_digits s = true -> (String.length s <= max_str_digits)%nat ->
               get key field_data = Some (VInt (decimal_value s)))
         /\ (forall s c, attr_text key root = Some s ->
               In c (list_ascii_of_string s) -> foreign c = true ->
               get key field_data = None).
Proof.
  intros Hc. exists (field_of field_file root).
  rewrite (parse_field_shape _ _ _ _ Hc). split; [reflexivity|].
  intros key Hkey. rewrite (parse_field_numeric_text _ _ _ Hkey).
  destruct (attr_text key root) as [s|].
  - split; [destruct (py_int s); simpl; eauto|].
    split; [discriminate|]. split.
    + intros s' [= <-] Hd Hlen. now rewrite (py_int_digits s Hd Hlen).
    + intros s' c [= <-] Hin Hf. now rewrite (py_int_foreign s c Hin Hf).
  - split; [now left|]. split; [reflexivity|].
    split; [discriminate|]. intros s c Hs. discriminate Hs.
Qed.

Lemma parse_field_numeric_witness :
  let doc := {| name := "Code__c.field-meta.xml";
                content := Some (Element (sf "CustomField") None
                                   [xml "fullName" "Code__c"; xml "type" "Text";
                                    xml "length" "abc"; xml "precision" "18"]) |} in
  exists field_data,
    fst (parse_field doc "Account" []) = Some field_data
    /\ get "length" field_data = None
    /\ get "precision" field_data = Some (VInt 18)
    /\ get "scale" field_data = None.
Proof.
  intros doc.
  destruct (parse_field_numeric doc "Account" [] _ eq_refl) as (fd & Hfd & Hnum).
  exists fd. split; [exact Hfd|].
  destruct (Hnum "length" (or_introl eq_refl)) as (_ & _ & _ & Hfor).
  destruct (Hnum "precision" (or_intror (or_introl eq_refl))) as (_ & _ & Hdig & _).
  destruct (Hnum "scale" (or_intror (or_intror (or_introl eq_refl))))
    as (_ & Hnone & _).
  split; [exact (Hfor "abc" "a"%char eq_refl (or_introl eq_refl) eq_refl)|].
  split; [exact (Hdig "18" eq_refl eq_refl ltac:(unfold max_str_digits; simpl; lia)) | exact (Hnone eq_refl)].
Defined.

Lemma nonempty_text_nonempty (x : option element) (s : string) :
  nonempty_text x = Some s -> s <> "".
Proof.
  unfold nonempty_text. destruct x as [e|]; [|discriminate].
  destruct (text e) as [t|]; [|discriminate].
  destruct (String.eqb_spec t ""); [discriminate|]. now intros [= <-].
Qed.

Lemma picklist_texts_strings (root : element) (x : value) :
  In x (picklist_texts root) -> exists s, x = VStr s /\ s <> "".
Proof.
  unfold picklist_texts. destruct (find (sf "valueSet") root) as [vs|]; [|intros []].
  intros H. apply in_flat_map in H. destruct H as (e & _ & H).
  destruct (nonempty_text (Some e)) as [s|] eqn:Hs; [|destruct H].
  destruct H as [<-|[]]. exists s. split; [reflexivity|].
  exact (nonempty_text_nonempty _ _ Hs).
Qed.

(** X2.  A parsed field carries [picklist_values] only when its type is Picklist
    or MultiselectPicklist, and then as a non-empty list of non-empty
    strings. *)
Theorem parse_field_picklist_values (field_file : file) (parent_object : string)
    (relationships : list value) (root : element) :
  content field_file = Some root ->
  exists field_data,
    fst (parse_field field_file parent_object relationships) = Some field_data
    /\ forall v, get "picklist_values" field_data = Some v ->
         (get "type" field_data = Some (VStr "Picklist")
          \/ get "type" field_data = Some (VStr "MultiselectPicklist"))
         /\ exists l, v = VList l /\ l <> []
                      /\ forall x, In x l -> exists s, x = VStr s /\ s <> "".
Proof.
  intros Hc. exists (field_of field_file root).
  rewrite (parse_field_shape _ _ _ _ Hc). split; [reflexivity|].
  intros v Hv. rewrite get_type_field_of.
  unfold field_of in Hv. cbv zeta in Hv.
  remember (if str_in (get "type" (base_data field_file root)) ["Lookup"; "MasterDetail"]
            then linked_data root (base_data field_file root)
            else base_data field_file root) as d eqn:Ed.
  assert (Hd : get "picklist_values" d = None).
  { rewrite Ed. destruct (str_in _ _); [rewrite get_linked by discriminate|];
      unfold base_data; frame; reflexivity. }
  assert (Hty : get "type" d = option_map VStr (type_text root)).
  { rewrite Ed. destruct (str_in _ _); [rewrite get_linked by discriminate|];
      apply get_type_base. }
  clear Ed. unfold finished_data in Hv.
  rewrite !get_set_text_other in Hv by discriminate.
  destruct (str_in (get "type" d) ["Picklist"; "MultiselectPicklist"]) eqn:Hstr;
    [|rewrite Hd in Hv; discriminate].
  split.
  - rewrite Hty in Hstr. destruct (type_text root) as [t|]; [|discriminate].
    simpl in Hstr. simpl.
    destruct (String.eqb_spec t "Picklist") as [Ht|_]; [subst t; now left|].
    destruct (String.eqb_spec t "MultiselectPicklist") as [Ht|_];
      [subst t; now right|].
    discriminate.
  - destruct (picklist_texts root) as [|x l] eqn:Hp; [rewrite Hd in Hv; discriminate|].
    rewrite get_set_same in Hv. injection Hv as <-.
    exists (x :: l). split; [reflexivity|]. split; [discriminate|].
    intros y Hy. apply (picklist_texts_strings root). now rewrite Hp.
Qed.

Lemma parse_field_picklist_values_witness :
  exists field_data,
    fst (parse_field stage_picklist "Case" []) = Some field_data
    /\ get "picklist_values" field_data = Some (VList [VStr "Open"; VStr "Closed"])
    /\ get "type" field_data = Some (VStr "Picklist").
Proof.
  destruct (parse_field_picklist_values stage_picklist "Case" [] _ eq_refl)
    as (fd & Hfd & Hpick).
  exists fd. split; [exact Hfd|].
  assert (Hv : get "picklist_values" fd = Some (VList [VStr "Open"; VStr "Closed"]))
    by (injection Hfd as <-; reflexivity).
  split; [exact Hv|].
  destruct (Hpick _ Hv) as ([Ht|Ht] & _); [exact Ht|].
  injection Hfd as <-. discriminate Ht.
Defined.

(** X3.  A parsed field carries [reference_to], [relationship_name],
    [relationship_label] or [delete_constraint] only when its type is
    Lookup or MasterDetail. *)
Theorem parse_field_reference_attributes (field_file : file)
    (parent_object : string) (relationships : list value) (root : element) :
  content field_file = Some root ->
  exists field_data,
    fst (parse_field field_file parent_object relationships) = Some field_data
    /\ forall key,
         In key ["reference_to"; "relationship_name"; "relationship_label";
                 "delete_constraint"] ->
         get key field_data <> None ->
         get "type" field_data = Some (VStr "Lookup")
         \/ get "type" field_data = Some (VStr "MasterDetail").
Proof.
  intros Hc. exists (field_of field_file root).
  rewrite (parse_field_shape _ _ _ _ Hc). split; [reflexivity|].
  intros key Hkey Hsome. rewrite get_type_field_of.
  unfold field_of in Hsome. cbv zeta in Hsome.
  assert (Hbase : get key (base_data field_file root) = None).
  { unfold base_data. simpl in Hkey.
    destruct Hkey as [<-|[<-|[<-|[<-|[]]]]]; frame; reflexivity. }
  assert (Hfin : forall d, get key (finished_data root d) = get key d).
  { intros d. simpl in Hkey.
    destruct Hkey as [<-|[<-|[<-|[<-|[]]]]]; apply get_finished; discriminate. }
  rewrite Hfin in Hsome.
  destruct (str_in (get "type" (base_data field_file root)) ["Lookup"; "MasterDetail"])
    eqn:Hstr; [|now rewrite Hbase in Hsome].
  destruct (str_in_type _ _ _ Hstr) as (t & -> & [<-|[<-|[]]]); simpl; auto.
Qed.

Lemma parse_field_reference_attributes_witness :
  exists field_data,
    fst (parse_field contact_lookup "Case" []) = Some field_data
    /\ get "reference_to" field_data = Some (VStr "Contact")
    /\ get "type" field_data = Some (VStr "Lookup").
Proof.
  destruct (parse_field_reference_attributes contact_lookup "Case" [] _ eq_refl)
    as (fd & Hfd & Hattr).
  exists fd. split; [exact Hfd|].
  assert (Hv : get "reference_to" fd = Some (VStr "Contact"))
    by (injection Hfd as <-; reflexivity).
  split; [exact Hv|].
  destruct (Hattr "reference_to" (or_introl eq_refl)) as [Ht|Ht];
    [rewrite Hv; discriminate | exact Ht |].
  injection Hfd as <-. discriminate Ht.
Defined.

End FieldAttributes.

(* ================================================================== *)
(** * Parser: the relationship edges of an object *)
(* ================================================================== *)

Section ObjectEdges.

Import Xml Str Parser.

Lemma parse_field_edges (field_file : file) (parent_object : string)
    (relationships : list value) :
  exists edges,
    snd (parse_field field_file parent_object relationships)
    = (relationships ++ edges)%list
    /\ edges_of parent_object
         (match fst (parse_field field_file parent_object relationships) with
          | Some d => [VDict d]
          | None => []
          end) edges.
Proof.
  destruct (content field_file) as [root|] eqn:Hc.
  - rewrite (parse_field_shape _ _ _ _ Hc). cbn [fst snd].
    destruct (str_in (get "type" (base_data field_file root)) ["Lookup"; "MasterDetail"])
      eqn:Hstr; cbn [andb];
      [|exists []; split; [now rewrite app_nil_r | intros e []]].
    destruct (mem "reference_to" (linked_data root (base_data field_file root)))
      eqn:Hmem; [|exists []; split; [now rewrite app_nil_r | intros e []]].
    eexists. split; [reflexivity|].
    intros e [<-|[]]. eexists. exists (field_of field_file root).
    split; [reflexivity|]. split; [now left|].
    assert (Hty : get "type" (linked_data root (base_data field_file root))
                  = get "type" (field_of field_file root)).
    { rewrite get_type_field_of, get_linked by discriminate. apply get_type_base. }
    assert (Href : get "reference_to" (linked_data root (base_data field_file root))
                   = get "reference_to" (field_of field_file root)).
    { unfold field_of. cbv zeta. rewrite Hstr. now rewrite get_finished by discriminate. }
    assert (Hapi : get "api_name" (field_of field_file root)
                   = Some (VStr (field_name_of field_file root))).
    { unfold field_of. cbv zeta. rewrite Hstr.
      rewrite get_finished, get_linked by discriminate.
      unfold base_data.
      rewrite !get_set_int_other, !get_set_bool_other, !get_set_text_other
        by discriminate.
      reflexivity. }
    assert (Hr : get "reference_to" (linked_data root (base_data field_file root))
                 = option_map VStr (reference_target root)).
    { unfold linked_data. rewrite !get_set_text_other by discriminate.
      rewrite get_set_text_same. unfold reference_target.
      destruct (nonempty_text _); [reflexivity|]. unfold base_data.
      rewrite !get_set_int_other, !get_set_bool_other, !get_set_text_other
        by discriminate.
      reflexivity. }
    unfold mirrors, relationship_edge, get_default. cbn [get String.eqb Ascii.eqb Bool.eqb].
    rewrite Hapi, <- Href, <- Hty.
    unfold mem in Hmem. rewrite Hr in Hmem |- *.
    destruct (reference_target root) as [r|]; [|discriminate]. cbn [option_map].
    destruct (str_in_type _ _ _ Hstr) as (t & Ht & Hin).
    rewrite get_linked, get_type_base, Ht by discriminate. cbn [option_map].
    do 4 (split; [reflexivity|]). split; [eauto|].
    destruct Hin as [<-|[<-|[]]]; auto.
  - unfold parse_field. rewrite Hc. cbn [fst snd].
    exists []. split; [now rewrite app_nil_r | intros e []].
Qed.

Lemma edges_of_app (obj_name : string) (f1 f2 e1 e2 : list value) :
  edges_of obj_name f1 e1 -> edges_of obj_name f2 e2 ->
  edges_of obj_name (f1 ++ f2) (e1 ++ e2).
Proof.
  intros H1 H2 e He. apply in_app_or in He.
  destruct He as [He|He]; [destruct (H1 e He) as (edge & fd & ? & ? & ?)
                          | destruct (H2 e He) as (edge & fd & ? & ? & ?)];
    exists edge, fd; (split; [assumption|split; [apply in_or_app; auto|assumption]]).
Qed.

Lemma parse_fields_edges (obj_name : string) (field_files : list file) :
  forall relationships,
  exists edges,
    snd (parse_fields field_files obj_name relationships)
    = (relationships ++ edges)%list
    /\ edges_of obj_name (fst (parse_fields field_files obj_name relationships)) edges.
Proof.
  induction field_files as [|f rest IH]; intros relationships.
  - exists []. split; [simpl; now rewrite app_nil_r | intros e []].
  - simpl.
    destruct (parse_field_edges f obj_name relationships) as (e1 & Hs1 & He1).
    destruct (parse_field f obj_name relationships) as [fd rels].
    cbn [fst snd] in Hs1, He1. subst rels.
    destruct (IH (relationships ++ e1)%list) as (e2 & Hs2 & He2).
    destruct (parse_fields rest obj_name (relationships ++ e1)%list) as [fields rels'].
    cbn [fst snd] in *. subst rels'.
    exists (e1 ++ e2)%list. split; [now rewrite app_assoc|].
    replace (match fd with Some d => VDict d :: fields | None => fields end)
      with ((match fd with Some d => [VDict d] | None => [] end) ++ fields)%list
      by now destruct fd.
    now apply edges_of_app.
Qed.

(** X4.  Parsing an object keeps the relationship edges collected so far,
    in order, and appends only edges that start at the object and mirror
    one of its parsed Lookup or MasterDetail fields: [from_field] is the
    field's [api_name], [to_object] its [reference_to] and
    [relationship_type] its [type]. *)
Theorem parse_object_relationships (obj_dir : object_dir)
    (relationships : list value) :
  exists fields edges,
    get "fields" (fst (parse_object obj_dir relationships)) = Some (VList fields)
    /\ snd (parse_object obj_dir relationships) = (relationships ++ edges)%list
    /\ edges_of (dir_name obj_dir) fields edges.
Proof.
  unfold parse_object. cbv zeta.
  destruct (parse_fields_edges (dir_name obj_dir)
              (sorted_glob ".field-meta.xml" (fields_dir obj_dir)) relationships)
    as (edges & Hs & He).
  destruct (parse_fields _ _ _) as [fields rels]. cbn [fst snd] in *.
  exists fields, edges. split; [|split; assumption].
  rewrite !get_set_other by discriminate. apply get_set_same.
Qed.

End ObjectEdges.

(* ================================================================== *)
(** * Parser: the object listing *)
(* ================================================================== *)

Section ObjectListing.

Import Xml Str Parser.

Context {A : Type} (key : A -> string).

Lemma insert_by_Permutation (x : A) (l : list A) :
  Permutation (insert_by key x l) (x :: l).
Proof.
  induction l as [|y l IH]; simpl; [reflexivity|].
  destruct (String.leb (key x) (key y)); [reflexivity|].
  rewrite IH. apply perm_swap.
Qed.

Lemma sorted_by_Permutation (l : list A) : Permutation (sorted_by key l) l.
Proof.
  induction l as [|x l IH]; simpl; [reflexivity|].
  rewrite insert_by_Permutation. now constructor.
Qed.

End ObjectListing.

Section SchemaDocument.

Import Xml Str Parser.



End SchemaDocument.

(* ================================================================== *)
(** * Name suffixes: the object type and the retrieval filter *)
(* ================================================================== *)

Section NameSuffixes.

Import Str Parser Generator.

Lemma substring_split (s : string) :
  forall n, (n <= String.length s)%nat ->
    s = substring 0 n s ++ substring n (String.length s - n) s.
Proof.
  induction s as [|c s IH]; intros [|n] Hn; simpl in *; try reflexivity; try lia.
  - f_equal. clear. induction s as [|c s IH]; simpl; [reflexivity | now f_equal].
  - f_equal. apply IH. lia.
Qed.

Lemma endswith_app (p s : string) :
  endswith p s = true -> exists pre, s = pre ++ p.
Proof.
  unfold endswith. intros H. apply andb_prop in H. destruct H as [Hlen Heq].
  apply Nat.leb_le in Hlen. apply String.eqb_eq in Heq.
  exists (substring 0 (String.length s - String.length p) s).
  rewrite (substring_split s (String.length s - String.length p)) at 1 by lia.
  f_equal. rewrite <- Heq at 3. f_equal. lia.
Qed.

Lemma list_ascii_of_string_app (a b : string) :
  list_ascii_of_string (a ++ b)
  = (list_ascii_of_string a ++ list_ascii_of_string b)%list.
Proof. induction a as [|c a IH]; simpl; [reflexivity | now f_equal]. Qed.

(** A name ends with the last character of any suffix it ends with. *)
Lemma endswith_last (p : string) (c : ascii) (s : string) :
  endswith (p ++ String c EmptyString) s = true ->
  last (list_ascii_of_string s) Ascii.zero = c.
Proof.
  intros H. destruct (endswith_app _ _ H) as (pre & ->).
  rewrite !list_ascii_of_string_app, app_assoc. simpl. apply last_last.
Qed.

Lemma endswith_differ (p q : string) (c d : ascii) (s : string) :
  c <> d ->
  endswith (p ++ String c EmptyString) s = true ->
  endswith (q ++ String d EmptyString) s = false.
Proof.
  intros Hne Hp. destruct (endswith (q ++ String d EmptyString) s) eqn:Hq;
    [|reflexivity].
  apply endswith_last in Hp, Hq. congruence.
Qed.

Lemma custom_suffix_only (obj_name : string) :
  endswith "__c" obj_name = true ->
  endswith "__mdt" obj_name = false
  /\ endswith "__e" obj_name = false
  /\ endswith "__b" obj_name = false
  /\ endswith "__x" obj_name = false
  /\ existsb (fun suffix => endswith suffix obj_name) excluded_suffixes = false
  /\ existsb (String.eqb obj_name) excluded_objects = false.
Proof.
  intros H.
  assert (Hd : forall q d, d <> "c"%char ->
                 endswith (q ++ String d EmptyString) obj_name = false).
  { intros q d Hne. apply (endswith_differ "__" q "c" d); [congruence | exact H]. }
  repeat split.
  - exact (Hd "__md" "t"%char ltac:(discriminate)).
  - exact (Hd "__" "e"%char ltac:(discriminate)).
  - exact (Hd "__" "b"%char ltac:(discriminate)).
  - exact (Hd "__" "x"%char ltac:(discriminate)).
  - unfold excluded_suffixes. cbn [existsb].
    rewrite (Hd "Histor" "y"%char ltac:(discriminate)
             : endswith "History" obj_name = false).
    rewrite (Hd "Shar" "e"%char ltac:(discriminate)
             : endswith "Share" obj_name = false).
    rewrite (Hd "Fee" "d"%char ltac:(discriminate)
             : endswith "Feed" obj_name = false).
    rewrite (Hd "ChangeEven" "t"%char ltac:(discriminate)
             : endswith "ChangeEvent" obj_name = false).
    rewrite (Hd "Ta" "g"%char ltac:(discriminate)
             : endswith "Tag" obj_name = false).
    reflexivity.
  - apply endswith_last with (p := "__") in H.
    unfold excluded_objects. cbn [existsb].
    repeat match goal with
           | |- (String.eqb obj_name ?w || _)%bool = false =>
               destruct (String.eqb_spec obj_name w) as [Heq|_];
               [rewrite Heq in H; discriminate H | cbn [orb]]
           end.
    reflexivity.
Qed.

(** X6.  Custom objects are always kept by the retrieval filter: every
    queried name ending in [__c] is among the objects to retrieve, and the
    parser types it [Custom]. *)
Theorem filter_objects_custom (all_sobjects : list string) (obj_name : string) :
  In obj_name all_sobjects ->
  endswith "__c" obj_name = true ->
  In obj_name (filter_objects all_sobjects) /\ object_type obj_name = "Custom".
Proof.
  intros Hin Hc.
  destruct (custom_suffix_only obj_name Hc) as (Hm & He & Hb & Hx & Hs & Ho).
  split.
  - apply filter_In. split; [assumption|].
    unfold should_retrieve_object. now rewrite Hm, He, Hb, Hx, Hs, Ho.
  - unfold object_type. now rewrite Hc, Hm, He.
Qed.

Lemma filter_objects_custom_witness :
  In "Invoice__c" (filter_objects ["Account"; "AccountHistory"; "Invoice__c"])
  /\ object_type "Invoice__c" = "Custom".
Proof.
  apply filter_objects_custom; [simpl; auto | reflexivity].
Defined.

(** X7.  The retrieval filter never lets through a name the parser would
    type [CustomMetadata] or [PlatformEvent]: every retrieved object was
    queried and is typed [Custom] when its name ends in [__c] and
    [Standard] otherwise. *)
Theorem filter_objects_types (all_sobjects : list string) (obj_name : string) :
  In obj_name (filter_objects all_sobjects) ->
  In obj_name all_sobjects
  /\ object_type obj_name
     = if endswith "__c" obj_name then "Custom" else "Standard".
Proof.
  intros H. apply filter_In in H. destruct H as [Hin Hkeep]. split; [assumption|].
  unfold should_retrieve_object in Hkeep. unfold object_type.
  destruct (endswith "__mdt" obj_name); [discriminate|].
  destruct (endswith "__e" obj_name); [discriminate|].
  now destruct (endswith "__c" obj_name).
Qed.

Lemma filter_objects_types_witness :
  In "Account" ["Account"; "Setting__mdt"; "Alert__e"]
  /\ object_type "Account" = "Standard".
Proof.
  apply (filter_objects_types ["Account"; "Setting__mdt"; "Alert__e"] "Account").
  simpl. auto.
Defined.

End NameSuffixes.

(* ================================================================== *)
(** * Splitter: what the partition keeps where *)
(* ================================================================== *)

Section PartitionShape.

Import Splitter.

Lemma present_core_of (obj_name : string) (field : dict) (attr : string) :
  attr = "picklist_values" \/ attr = "formula" ->
  present attr (core_of obj_name field) = false.
Proof.
  intros Hattr. unfold present at 1, mem, get_truthy.
  rewrite get_core_of by (destruct Hattr; subst; discriminate).
  destruct Hattr; subst attr; cbn [String.eqb Ascii.eqb Bool.eqb andb orb].
  - destruct (present "picklist_values" field) eqn:Hp; [reflexivity|].
    unfold present, mem, get_truthy in Hp.
    now destruct (get "picklist_values" field).
  - destruct (present "formula" field) eqn:Hp; [reflexivity|].
    unfold present, mem, get_truthy in Hp.
    now destruct (get "formula" field).
Qed.

Lemma note_core_of (obj_name : string) (field : dict) :
  get "_note" (core_of obj_name field)
  = if present "formula" field then Some (formula_note obj_name)
    else if present "picklist_values" field then Some (picklist_note obj_name)
    else get "_note" field.
Proof.
  unfold core_of.
  destruct (present "formula" field); [apply get_set_same|].
  destruct (present "picklist_values" field); [apply get_set_same | reflexivity].
Qed.

(** X8.  The core schema keeps one entry per field, in order.  An entry has
    every attribute of its field other than [picklist_values], [formula]
    and [_note] unchanged, never a truthy [picklist_values] or [formula],
    and its [_note] points to the file the stripped attribute went to, the
    formula note replacing the picklist note when both were stripped. *)
Theorem split_object_core_fields (fields : list value) (obj_name : string)
    (part : partition) :
  split_object fields obj_name = Ok part ->
  length (core_fields part) = length fields
  /\ forall i field, nth_error fields i = Some (VDict field) ->
       exists core_field,
         nth_error (core_fields part) i = Some (VDict core_field)
         /\ (forall k, k <> "_note" -> k <> "picklist_values" -> k <> "formula" ->
               get k core_field = get k field)
         /\ present "picklist_values" core_field = false
         /\ present "formula" core_field = false
         /\ get "_note" core_field
            = if present "formula" field then Some (formula_note obj_name)
              else if present "picklist_values" field
                   then Some (picklist_note obj_name)
                   else get "_note" field.
Proof.
  unfold split_object, _extract_field_metadata. intros H.
  destruct (extract_loop obj_name fields [] []) as [[[p f] core]|] eqn:Hloop;
    simpl in H; [|discriminate].
  injection H as <-. cbn [core_fields].
  destruct (extract_loop_spec _ _ _ _ _ _ _ Hloop) as (Hcore & _).
  subst core. split; [apply length_map|].
  intros i field Hi. exists (core_of obj_name field).
  split; [now rewrite nth_error_map, Hi|].
  split; [|split; [|split]].
  - intros k Hn Hp Hf. rewrite get_core_of by assumption.
    apply String.eqb_neq in Hp, Hf. now rewrite Hp, Hf.
  - apply present_core_of. now left.
  - apply present_core_of. now right.
  - apply note_core_of.
Qed.

Lemma split_object_core_fields_witness :
  exists part core_field,
    split_object [VDict status_field] "Case" = Ok part
    /\ nth_error (core_fields part) 0 = Some (VDict core_field)
    /\ get "length" core_field = Some (VInt 40)
    /\ get "_note" core_field = Some (formula_note "Case").
Proof.
  eexists.
  destruct (split_object_core_fields [VDict status_field] "Case" _ eq_refl)
    as (_ & Hcore).
  destruct (Hcore 0%nat status_field eq_refl) as (core & Hnth & Hkeep & _ & _ & Hnote).
  exists core. split; [reflexivity|]. split; [exact Hnth|].
  split; [|exact Hnote].
  rewrite Hkeep by discriminate. reflexivity.
Defined.

Lemma stored_from (attr : string) (k : hkey) (fields : list value) (v : value) :
  stored attr k fields = Some v ->
  exists field,
    In (VDict field) fields /\ present attr field = true
    /\ hash_key (field_name field) = Ok k /\ v = get_default attr VNone field.
Proof.
  induction fields as [|fv rest IH]; simpl; [discriminate|].
  destruct (stored attr k rest) as [v'|].
  - intros [= ->]. destruct (IH eq_refl) as (field & Hin & H).
    exists field. split; [now right | exact H].
  - unfold own. destruct fv as [| | | | |d]; try discriminate.
    destruct (present attr d) eqn:Hp; [|discriminate].
    destruct (hash_key (field_name d)) as [k'|] eqn:Hk; [|discriminate].
    destruct (hkey_eqb k k') eqn:E; [|discriminate].
    apply hkey_eqb_eq in E. subst k'. intros [= <-].
    exists d. repeat split; auto.
Qed.

Lemma stored_last (attr : string) (k : hkey) (before after : list value)
    (field : dict) :
  present attr field = true ->
  hash_key (field_name field) = Ok k ->
  (forall d, In (VDict d) after -> hash_key (field_name d) = Ok k ->
             present attr d = false) ->
  stored attr k (before ++ VDict field :: after)
  = Some (get_default attr VNone field).
Proof.
  intros Hp Hk Hafter.
  assert (Hnone : stored attr k after = None).
  { destruct (stored attr k after) as [v|] eqn:Hs; [|reflexivity].
    destruct (stored_from _ _ _ _ Hs) as (d & Hin & Hpd & Hkd & _).
    rewrite (Hafter d Hin Hkd) in Hpd. discriminate. }
  induction before as [|b before IH]; simpl.
  - rewrite Hnone. unfold own. now rewrite Hp, Hk, hkey_eqb_refl.
  - now rewrite IH.
Qed.

Lemma lookup_written (p : payload) (k : hkey) :
  lookup_file (written_if_any p) k = payload_get k p.
Proof. now destruct p. Qed.

Lemma split_object_stored (fields : list value) (obj_name : string)
    (part : partition) :
  split_object fields obj_name = Ok part ->
  forall k,
    lookup_file (picklists_file part) k = stored "picklist_values" k fields
    /\ lookup_file (formulas_file part) k = stored "formula" k fields.
Proof.
  unfold split_object, _extract_field_metadata. intros H k.
  destruct (extract_loop obj_name fields [] []) as [[[p f] core]|] eqn:Hloop;
    simpl in H; [|discriminate].
  injection H as <-. cbn [picklists_file formulas_file].
  destruct (extract_loop_spec _ _ _ _ _ _ _ Hloop) as (_ & _ & Hp & Hf).
  rewrite !lookup_written, Hp, Hf. simpl.
  split; [now destruct (stored "picklist_values" k fields)
         | now destruct (stored "formula" k fields)].
Qed.

(** X9.  The picklist and formula payloads hold nothing but what fields
    had: every entry is the truthy attribute of a field of that name.  When
    several fields share a name the entry is the attribute of the last of
    them that has one. *)
Theorem split_object_payload_entries (fields : list value) (obj_name : string)
    (part : partition) (attr : string) (file : option payload) :
  split_object fields obj_name = Ok part ->
  (attr = "picklist_values" /\ file = picklists_file part)
  \/ (attr = "formula" /\ file = formulas_file part) ->
  (forall k v, lookup_file file k = Some v ->
     exists field,
       In (VDict field) fields /\ present attr field = true
       /\ hash_key (field_name field) = Ok k
       /\ v = get_default attr VNone field)
  /\ (forall before field after k,
        fields = (before ++ VDict field :: after)%list ->
        present attr field = true ->
        hash_key (field_name field) = Ok k ->
        (forall d, In (VDict d) after -> hash_key (field_name d) = Ok k ->
                   present attr d = false) ->
        lookup_file file k = Some (get_default attr VNone field)).
Proof.
  intros H Hattr.
  assert (Hs : forall k, lookup_file file k = stored attr k fields).
  { intros k. destruct (split_object_stored _ _ _ H k) as [Hp Hf].
    destruct Hattr as [[-> ->]|[-> ->]]; assumption. }
  split.
  - intros k v Hl. rewrite Hs in Hl. now apply stored_from.
  - intros before field after k -> Hp Hk Hafter. rewrite Hs.
    now apply stored_last.
Qed.

Lemma split_object_payload_entries_witness :
  exists part,
    split_object twice_named "Case" = Ok part
    /\ lookup_file (picklists_file part) (KStr "Stage") = Some (VList [VStr "New"])
    /\ formulas_file part = None.
Proof.
  eexists. split; [reflexivity|]. split; [|reflexivity].
  destruct (split_object_payload_entries twice_named "Case" _ "picklist_values" _
              eq_refl (or_introl (conj eq_refl eq_refl))) as [_ Hlast].
  apply (Hlast [VDict [("api_name", VStr "Stage");
                       ("picklist_values", VList [VStr "Old"])];
                VDict [("api_name", VStr "Owner"); ("formula", VStr "")]]
               [("api_name", VStr "Stage"); ("picklist_values", VList [VStr "New"])]
               []);
    [reflexivity | reflexivity | reflexivity | intros d []].
Defined.

End PartitionShape.

(* ================================================================== *)
(** * Splitter: the index flags and the payload files *)
(* ================================================================== *)

Section IndexFlags.

Import Splitter MasterIndex.

Lemma written_payload_set (k : hkey) (v : value) (p : payload) :
  written (written_if_any (payload_set k v p)) = true.
Proof.
  destruct p as [|[k' v'] p]; simpl; [reflexivity|].
  now destruct (hkey_eqb k k').
Qed.

Lemma extract_attr_written attr note field core_field store core_field' store' :
  extract_attr attr note field core_field store = Ok (core_field', store') ->
  written (written_if_any store')
  = written (written_if_any store) || present attr field.
Proof.
  unfold extract_attr. destruct (present attr field).
  - destruct (hash_key (field_name field)) as [k|]; simpl; [|discriminate].
    intros [= _ <-]. rewrite written_payload_set. now rewrite orb_true_r.
  - intros [= _ <-]. now rewrite orb_false_r.
Qed.

Lemma extract_loop_written (obj_name : string) (fields : list value) :
  forall p0 f0 p f core,
    extract_loop obj_name fields p0 f0 = Ok (p, f, core) ->
    Forall (fun field => exists d, field = VDict d) fields
    /\ written (written_if_any p)
       = written (written_if_any p0) || existsb (has_attr "picklist_values") fields
    /\ written (written_if_any f)
       = written (written_if_any f0) || existsb (has_attr "formula") fields.
Proof.
  induction fields as [|fv rest IH]; intros p0 f0 p f core H; simpl in H.
  - injection H as <- <- <-. simpl. rewrite !orb_false_r. auto.
  - unfold extract_field in H.
    destruct fv as [| | | | |d]; try discriminate. simpl in H.
    destruct (extract_attr "picklist_values" _ d d p0) as [[c1 p1]|] eqn:H1;
      simpl in H; [|discriminate].
    destruct (extract_attr "formula" _ d c1 f0) as [[c2 f1]|] eqn:H2;
      simpl in H; [|discriminate].
    destruct (extract_loop obj_name rest p1 f1) as [[[p' f'] core']|] eqn:Hr;
      simpl in H; [|discriminate].
    injection H as <- <- <-.
    destruct (IH _ _ _ _ _ Hr) as (Hall & Hp & Hf).
    apply extract_attr_written in H1, H2.
    split; [constructor; eauto|].
    cbn [existsb has_attr]. rewrite Hp, Hf, H1, H2, !orb_assoc. auto.
Qed.

Lemma any_truthy_dicts (attr : string) (fields : list value) :
  Forall (fun field => exists d, field = VDict d) fields ->
  any_truthy attr fields = Ok (existsb (has_attr attr) fields).
Proof.
  induction 1 as [|fv rest (d & ->) _ IH]; simpl; [reflexivity|].
  destruct (present attr d); [reflexivity | exact IH].
Qed.

Lemma search_fields_dicts (fields : list value) :
  Forall (fun field => exists d, field = VDict d) fields ->
  exists fields_list,
    search_fields fields
    = Ok (fields_list, existsb (has_attr "picklist_values") fields,
          existsb (has_attr "formula") fields).
Proof.
  induction 1 as [|fv rest (d & ->) _ (fl & IH)]; simpl; [eauto|].
  rewrite IH. simpl. eauto.
Qed.

(** X10.  The master index and the search index agree with the files the
    split writes: for an object that splits without error, [has_picklists]
    and [has_formulas] of both indexes are true exactly when
    [picklists.yaml], respectively [formulas.yaml], is written, and the
    master index's [field_count] is the number of core fields. *)
Theorem index_flags_agree (obj : dict) (fields record_types validation_rules : list value)
    (obj_name : string) (part : partition) :
  get "fields" obj = Some (VList fields) ->
  get_default "record_types" (VList []) obj = VList record_types ->
  get_default "validation_rules" (VList []) obj = VList validation_rules ->
  split_object fields obj_name = Ok part ->
  index_flags obj
  = Ok {| field_count := length (core_fields part);
          has_picklists := written (picklists_file part);
          has_formulas := written (formulas_file part);
          has_record_types := Nat.ltb 0 (length record_types);
          has_validation_rules := Nat.ltb 0 (length validation_rules) |}
  /\ exists fields_list,
       search_fields fields
       = Ok (fields_list, written (picklists_file part),
             written (formulas_file part)).
Proof.
  intros Hfields Hrt Hvr H.
  unfold split_object, _extract_field_metadata in H.
  destruct (extract_loop obj_name fields [] []) as [[[p f] core]|] eqn:Hloop;
    simpl in H; [|discriminate].
  injection H as <-. cbn [core_fields picklists_file formulas_file].
  destruct (extract_loop_written _ _ _ _ _ _ _ Hloop) as (Hall & Hp & Hf).
  destruct (extract_loop_spec _ _ _ _ _ _ _ Hloop) as (Hcore & _).
  simpl in Hp, Hf. rewrite Hp, Hf. split.
  - assert (Hgd : get_default "fields" (VList []) obj = VList fields)
      by (unfold get_default; now rewrite Hfields).
    unfold index_flags. rewrite Hgd, Hrt, Hvr. simpl.
    rewrite !any_truthy_dicts by assumption. simpl.
    now rewrite Hcore, length_map.
  - now apply search_fields_dicts.
Qed.

Lemma index_flags_agree_witness :
  exists part flags fields_list,
    split_object [VDict status_field] "Case" = Ok part
    /\ index_flags [("api_name", VStr "Case"); ("fields", VList [VDict status_field])]
       = Ok flags
    /\ has_picklists flags = written (picklists_file part)
    /\ has_picklists flags = true
    /\ search_fields [VDict status_field] = Ok (fields_list, true, true).
Proof.
  eexists.
  destruct (index_flags_agree
              [("api_name", VStr "Case"); ("fields", VList [VDict status_field])]
              [VDict status_field] [] [] "Case" _ eq_refl eq_refl eq_refl eq_refl)
    as (Hflags & fl & Hsearch).
  eexists. exists fl.
  split; [reflexivity|]. split; [exact Hflags|].
  split; [reflexivity|]. split; [reflexivity | exact Hsearch].
Defined.

End IndexFlags.

(* ================================================================== *)
(** * Enricher: what the merge keeps, overwrites and writes *)
(* ================================================================== *)

Section MergeKeeps.

Import Enricher.

Lemma get_set_keeps (k k' : string) (v : value) (d : dict) :
  get k d <> None -> get k (set k' v d) <> None.
Proof.
  intros H. destruct (String.eqb_spec k k') as [->|Hne].
  - now rewrite get_set_same.
  - now rewrite get_set_other.
Qed.

Lemma fill_missing_keeps (enriched_data : dict) :
  forall field n k,
    get k field <> None ->
    get k (fst (fill_missing enriched_data field n)) <> None.
Proof.
  induction enriched_data as [|[key value] rest IH]; intros field n k H; simpl;
    [assumption|].
  destruct (negb (mem key field) || negb (get_truthy key field));
    apply IH; [now apply get_set_keeps | assumption].
Qed.

Lemma merge_picklist_keeps b name org_field field st field1 st1 :
  merge_picklist b name org_field field st = Ok (field1, st1) ->
  (forall k, get k field <> None -> get k field1 <> None)
  /\ (b = true -> field1 = field).
Proof.
  unfold merge_picklist. intros H.
  destruct (str_in _ _); [|injection H as <- _; auto].
  destruct (extract_picklist_values org_field) as [[vs|]|]; simpl in H;
    [|injection H as <- _; auto|discriminate].
  injection H as <- _. destruct b; [auto|].
  split; [|discriminate]. intros k. apply get_set_keeps.
Qed.

Lemma merge_formula_keeps b name org_field field st field2 st2 :
  merge_formula b name org_field field st = (field2, st2) ->
  (forall k, get k field <> None -> get k field2 <> None)
  /\ (b = true -> field2 = field).
Proof.
  unfold merge_formula. cbv zeta. intros H.
  destruct (_ && _); [|injection H as <- _; auto].
  injection H as <- _. destruct b; [auto|].
  split; [|discriminate]. intros k. apply get_set_keeps.
Qed.

Lemma not_fill_key (k : string) :
  k = "api_name" \/ k = "picklist_values" \/ k = "formula" ->
  ~ In k fill_missing_keys.
Proof.
  intros Hk Hin. destruct (fill_key_not_payload k Hin) as (H1 & H2 & H3).
  destruct Hk as [-> | [-> | ->]]; congruence.
Qed.

Lemma enrich_field_kept b org_fields st v v' st' :
  enrich_field b org_fields st v = Ok (v', st') -> kept b v v'.
Proof.
  intros H. destruct (enrich_field_inv _ _ _ _ _ _ H) as (field & -> & Hcase).
  destruct Hcase as [(_ & -> & _) | Hcase].
  - exists field, field. repeat split; auto.
  - destruct Hcase as (name & org_field & f1 & st1 & f2 & st2 & ed
                       & _ & Hp & Hf & He & -> & _).
    pose proof (extracted_fill_only _ _ He) as Hfill.
    destruct (merge_picklist_keeps _ _ _ _ _ _ _ Hp) as [Hk1 Hn1].
    destruct (merge_formula_keeps _ _ _ _ _ _ _ Hf) as [Hk2 Hn2].
    eexists field, _. split; [reflexivity|]. split; [reflexivity|].
    split; [|split].
    + rewrite (fill_missing_frame _ _ _ _ Hfill) by (apply not_fill_key; auto).
      rewrite (merge_formula_frame _ _ _ _ _ _ _ _ Hf) by discriminate.
      now rewrite (merge_picklist_frame _ _ _ _ _ _ _ _ Hp) by discriminate.
    + intros k Hk. now apply fill_missing_keeps, Hk2, Hk1.
    + intros ->. rewrite (Hn2 eq_refl), (Hn1 eq_refl).
      split; apply (fill_missing_frame _ _ _ _ Hfill), not_fill_key; auto.
Qed.

(** X11.  The merge loop keeps the fields of the schema in number and
    order; every field keeps its name and loses no attribute.  In the
    folder layout its [picklist_values] and [formula] are left exactly as
    they were, whatever the live system reports. *)
Theorem enrich_fields_kept b org_fields (fields : list value) :
  forall st fields' st',
    enrich_fields b org_fields fields st = Ok (fields', st') ->
    Forall2 (kept b) fields fields'.
Proof.
  induction fields as [|v rest IH]; intros st fields' st' H; simpl in H.
  - injection H as <- _. constructor.
  - destruct (enrich_field b org_fields st v) as [[v' s1]|] eqn:Hv; simpl in H;
      [|discriminate].
    destruct (enrich_fields b org_fields rest s1) as [[rest' s2]|] eqn:Hr;
      simpl in H; [|discriminate].
    injection H as <- _. constructor; [eapply enrich_field_kept | eapply IH]; eauto.
Qed.

Lemma enrich_fields_kept_witness :
  let fields :=
    [VDict [("api_name", VStr "Status");
            ("picklist_values", VList [VStr "Draft"])];
     VDict [("api_name", VStr "Score"); ("type", VStr "Number")]] in
  exists fields' st',
    enrich_fields true example_org_fields fields init_state = Ok (fields', st')
    /\ Forall2 (kept true) fields fields'.
Proof.
  intros fields. eexists. eexists. split; [reflexivity|].
  eapply (enrich_fields_kept true example_org_fields fields init_state).
  reflexivity.
Defined.

Lemma extract_some_type (org_field : dict) (vs : list value) :
  extract_picklist_values org_field = Ok (Some vs) ->
  str_in (get "type" org_field) ["picklist"; "multipicklist"] = true.
Proof.
  unfold extract_picklist_values. destruct (str_in _ _); [reflexivity|].
  discriminate.
Qed.

(** X12.  What the live system reports for a field's picklist values and
    formula always lands in the payloads under the field's name, replacing
    an earlier entry of that name; in the single-file layout it also
    overwrites the field's own [picklist_values] and [formula], filled or
    not. *)
Theorem enrich_field_payload b org_fields st field field' st' name org_field :
  enrich_field b org_fields st (VDict field) = Ok (VDict field', st') ->
  find_org_field (get "api_name" field) org_fields = Ok (Some (name, org_field)) ->
  (forall vs, extract_picklist_values org_field = Ok (Some vs) ->
     get name (picklists_data st') = Some (VList vs)
     /\ (b = false -> get "picklist_values" field' = Some (VList vs)))
  /\ (get_truthy "calculated" org_field
      && get_truthy "calculatedFormula" org_field = true ->
      get name (formulas_data st')
      = Some (get_default "calculatedFormula" VNone org_field)
      /\ (b = false ->
          get "formula" field'
          = Some (get_default "calculatedFormula" VNone org_field))).
Proof.
  intros H Hfind.
  destruct (enrich_field_inv _ _ _ _ _ _ H) as (f & [= <-] & Hcase).
  destruct Hcase as [(Hnone & _) | Hcase]; [rewrite Hfind in Hnone; discriminate|].
  destruct Hcase as (name' & org_field' & f1 & st1 & f2 & st2 & ed
                     & Hfind' & Hp & Hf & He & [= ->] & Hpd & Hfd).
  rewrite Hfind in Hfind'. injection Hfind' as <- <-.
  pose proof (extracted_fill_only _ _ He) as Hfill.
  assert (Hfpv : get "picklist_values" (fst (fill_missing ed f2 (enriched_count st2)))
                 = get "picklist_values" f2)
    by (apply (fill_missing_frame _ _ _ _ Hfill), not_fill_key; auto).
  assert (Hffo : get "formula" (fst (fill_missing ed f2 (enriched_count st2)))
                 = get "formula" f2)
    by (apply (fill_missing_frame _ _ _ _ Hfill), not_fill_key; auto).
  rewrite Hpd, Hfd, Hfpv, Hffo. clear Hfpv Hffo H.
  assert (Hst2 : picklists_data st2 = picklists_data st1).
  { unfold merge_formula in Hf. cbv zeta in Hf.
    destruct (_ && _); now injection Hf as _ <-. }
  split.
  - intros vs Hvs. rewrite Hst2.
    rewrite (merge_formula_frame _ _ _ _ _ _ _ _ Hf) by discriminate.
    unfold merge_picklist in Hp.
    rewrite (extract_some_type _ _ Hvs), Hvs in Hp. simpl in Hp.
    injection Hp as <- <-. cbn [picklists_data].
    split; [apply get_set_same|]. intros ->. apply get_set_same.
  - intros Hcalc. unfold merge_formula in Hf. cbv zeta in Hf.
    rewrite Hcalc in Hf. injection Hf as <- <-. cbn [formulas_data].
    split; [apply get_set_same|]. intros ->. apply get_set_same.
Qed.

Lemma enrich_field_payload_witness :
  let field := [("api_name", VStr "Status");
                ("picklist_values", VList [VStr "Draft"])] in
  exists field' st',
    enrich_field false example_org_fields init_state (VDict field)
    = Ok (VDict field', st')
    /\ get "Status" (picklists_data st') = Some (VList [VStr "Open"])
    /\ get "picklist_values" field' = Some (VList [VStr "Open"]).
Proof.
  intros field. eexists. eexists. split; [reflexivity|].
  destruct (enrich_field_payload false example_org_fields init_state field _ _
              "Status" _ eq_refl eq_refl) as [Hpick _].
  destruct (Hpick [VStr "Open"] eq_refl) as [Hpayload Hfield].
  split; [exact Hpayload | exact (Hfield eq_refl)].
Defined.

(** X13.  In the folder layout the stamped flags tell what this run found,
    not what the folder holds: a payload file is rewritten, with exactly
    the entries found, when its flag is true, and an existing payload file
    is left as it was, never removed, when its flag is false. *)
Theorem enrich_object_schema_payload_files (object_name : string)
    (org_fields : org_fields_t) (now : clock) (folder folder' : object_folder)
    (st : loop_state) :
  enrich_object_schema object_name true org_fields now folder = Ok (folder', st) ->
  exists schema metadata,
    body (schema_yaml folder') = VDict schema
    /\ get "metadata" schema = Some (VDict metadata)
    /\ get "has_picklists" metadata = Some (VBool (nonempty (picklists_data st)))
    /\ get "has_formulas" metadata = Some (VBool (nonempty (formulas_data st)))
    /\ (nonempty (picklists_data st) = false ->
        picklists_yaml folder' = picklists_yaml folder)
    /\ (nonempty (formulas_data st) = false ->
        formulas_yaml folder' = formulas_yaml folder)
    /\ (nonempty (picklists_data st) = true ->
        exists f date,
          picklists_yaml folder' = Some f
          /\ body f = picklists_content object_name (picklists_data st) date)
    /\ (nonempty (formulas_data st) = true ->
        exists f date,
          formulas_yaml folder' = Some f
          /\ body f = formulas_content object_name (formulas_data st) date).
Proof.
  unfold enrich_object_schema. intros H.
  destruct (merge_schema true org_fields (body (schema_yaml folder)))
    as [[schema0 st0]|]; simpl in H; [|discriminate].
  destruct (stamp_metadata schema0 (now 0%nat) st0) as [schema|] eqn:Hstamp;
    simpl in H; [|discriminate].
  unfold stamp_metadata in Hstamp.
  destruct (get "metadata" (if mem "metadata" schema0 then schema0
                            else set "metadata" (VDict []) schema0))
    as [[| | | | |metadata]|]; try discriminate.
  injection Hstamp as <-.
  destruct (nonempty (picklists_data st0)) eqn:Hp;
    destruct (nonempty (formulas_data st0)) eqn:Hf;
    injection H as <- <-; cbn [schema_yaml picklists_yaml formulas_yaml body];
    rewrite Hp, Hf;
    (eexists; eexists; split; [reflexivity|]; split; [apply get_set_same|];
     split; [rewrite get_set_other by discriminate; apply get_set_same|];
     split; [apply get_set_same|]);
    repeat split; try discriminate; try reflexivity; intros _;
    eexists; eexists; (split; [reflexivity|]); reflexivity.
Qed.

Lemma enrich_object_schema_payload_files_witness :
  exists folder' st schema metadata,
    enrich_object_schema "Account" true retired_org_fields (fun _ => "2025-06-01")
      stale_folder = Ok (folder', st)
    /\ body (schema_yaml folder') = VDict schema
    /\ get "metadata" schema = Some (VDict metadata)
    /\ get "has_picklists" metadata = Some (VBool false)
    /\ picklists_yaml folder' = picklists_yaml stale_folder.
Proof.
  eexists. eexists.
  destruct (enrich_object_schema_payload_files "Account" retired_org_fields
              (fun _ => "2025-06-01") stale_folder _ _ eq_refl)
    as (schema & metadata & Hbody & Hmeta & Hflag & _ & Hkeep & _).
  exists schema, metadata.
  split; [reflexivity|]. split; [exact Hbody|]. split; [exact Hmeta|].
  split; [exact Hflag | exact (Hkeep eq_refl)].
Defined.

End MergeKeeps.

(* ================================================================== *)
(** * Enricher: the two attribute extractors *)
(* ================================================================== *)

Section Extractors.

Import Enricher.

Lemma agree_set k v e e0 :
  agree_outside_payload e e0 -> agree_outside_payload (set k v e) (set k v e0).
Proof.
  intros H x Hp Hf. destruct (String.eqb_spec x k) as [->|Hne].
  - now rewrite !get_set_same.
  - rewrite !get_set_other by assumption. now apply H.
Qed.

Lemma agree_copy src dst fm e e0 :
  agree_outside_payload e e0 ->
  agree_outside_payload (copy_if_truthy src dst fm e) (copy_if_truthy src dst fm e0).
Proof.
  intros H. unfold copy_if_truthy. destruct (get src fm) as [v|]; [|assumption].
  destruct (truthy v); [now apply agree_set | assumption].
Qed.

Lemma agree_flag src dst fm e e0 :
  agree_outside_payload e e0 ->
  agree_outside_payload (flag_if_truthy src dst fm e) (flag_if_truthy src dst fm e0).
Proof.
  intros H. unfold flag_if_truthy.
  destruct (get_truthy src fm); [now apply agree_set | assumption].
Qed.

Lemma agree_payload k v e e0 :
  k = "picklist_values" \/ k = "formula" ->
  agree_outside_payload e e0 -> agree_outside_payload (set k v e) e0.
Proof.
  intros Hk H x Hp Hf. rewrite get_set_other; [now apply H|].
  destruct Hk; congruence.
Qed.

Lemma get_copy_other k src dst fm e :
  k <> dst -> get k (copy_if_truthy src dst fm e) = get k e.
Proof.
  intros Hne. unfold copy_if_truthy. destruct (get src fm) as [v|]; [|reflexivity].
  destruct (truthy v); [now apply get_set_other | reflexivity].
Qed.

Lemma get_flag_other k src dst fm e :
  k <> dst -> get k (flag_if_truthy src dst fm e) = get k e.
Proof.
  intros Hne. unfold flag_if_truthy.
  destruct (get_truthy src fm); [now apply get_set_other | reflexivity].
Qed.

(** The part the two extractors share, from the [nillable] test on. *)
Lemma shared_tail (fm e e0 : dict) (r : result dict) :
  agree_outside_payload e e0 ->
  (let e :=
     match get "nillable" fm with
     | Some (VBool false) => set "required" (VBool true) e
     | _ => e
     end in
   let e := flag_if_truthy "unique" "unique" fm e in
   let e := flag_if_truthy "externalId" "external_id" fm e in
   e <- (if str_in (get "type" fm) ["reference"] then
           let reference_to := get_default "referenceTo" (VList []) fm in
           if truthy reference_to then
             r <- first_or_all reference_to ;;
             Ok (set "reference_to" r e)
           else Ok e
         else Ok e) ;;
   let e := copy_if_truthy "controllerName" "controlling_field" fm e in
   let e := flag_if_truthy "dependentPicklist" "is_dependent_picklist" fm e in
   let e := copy_if_truthy "length" "length" fm e in
   let e := copy_if_truthy "precision" "precision" fm e in
   let e := copy_if_truthy "scale" "scale" fm e in
   let e := copy_if_truthy "inlineHelpText" "help_text" fm e in
   let e := copy_if_truthy "label" "label" fm e in
   Ok e) = r ->
  forall e',
    r = Ok e' ->
    exists e0',
      (let e0 :=
         match get "nillable" fm with
         | Some (VBool false) => set "required" (VBool true) e0
         | _ => e0
         end in
       let e0 := flag_if_truthy "unique" "unique" fm e0 in
       let e0 := flag_if_truthy "externalId" "external_id" fm e0 in
       e0 <- (if str_in (get "type" fm) ["reference"] then
                let reference_to := get_default "referenceTo" (VList []) fm in
                if truthy reference_to then
                  r <- first_or_all reference_to ;;
                  Ok (set "reference_to" r e0)
                else Ok e0
              else Ok e0) ;;
       let e0 := copy_if_truthy "controllerName" "controlling_field" fm e0 in
       let e0 := flag_if_truthy "dependentPicklist" "is_dependent_picklist" fm e0 in
       let e0 := copy_if_truthy "length" "length" fm e0 in
       let e0 := copy_if_truthy "precision" "precision" fm e0 in
       let e0 := copy_if_truthy "scale" "scale" fm e0 in
       let e0 := copy_if_truthy "inlineHelpText" "help_text" fm e0 in
       let e0 := copy_if_truthy "label" "label" fm e0 in
       Ok e0) = Ok e0'
      /\ agree_outside_payload e' e0'
      /\ get "picklist_values" e' = get "picklist_values" e
      /\ get "formula" e' = get "formula" e.
Proof.
  intros Hagree. cbv zeta. intros <- e' Hr.
  set (a := flag_if_truthy "externalId" "external_id" fm _) in Hr.
  set (a0 := flag_if_truthy "externalId" "external_id" fm
               (flag_if_truthy "unique" "unique" fm
                  match get "nillable" fm with
                  | Some (VBool false) => set "required" (VBool true) e0
                  | _ => e0
                  end)).
  assert (Ha : agree_outside_payload a a0).
  { subst a a0. do 2 apply agree_flag.
    destruct (get "nillable" fm) as [[| [|] | | | |]|]; try assumption.
    now apply agree_set. }
  assert (Hpa : get "picklist_values" a = get "picklist_values" e
                /\ get "formula" a = get "formula" e).
  { subst a. rewrite !get_flag_other by discriminate.
    destruct (get "nillable" fm) as [[| [|] | | | |]|]; auto.
    now rewrite !get_set_other by discriminate. }
  clearbody a a0.
  set (m := if str_in (get "type" fm) ["reference"] then _ else _) in Hr.
  set (m0 := if str_in (get "type" fm) ["reference"] then _ else _).
  assert (Hm : forall b, m = Ok b ->
             exists b0, m0 = Ok b0 /\ agree_outside_payload b b0
                        /\ get "picklist_values" b = get "picklist_values" e
                        /\ get "formula" b = get "formula" e).
  { subst m m0. cbv zeta. intros b.
    destruct (str_in _ _); [|intros [= <-]; eauto].
    destruct (truthy _); [|intros [= <-]; eauto].
    destruct (first_or_all _) as [r|]; simpl; [|discriminate].
    intros [= <-]. eexists. split; [reflexivity|].
    split; [now apply agree_set|].
    now rewrite !get_set_other by discriminate. }
  clearbody m m0. destruct m as [b|]; simpl in Hr; [|discriminate].
  destruct (Hm b eq_refl) as (b0 & -> & Hb & Hpb & Hfb). simpl.
  injection Hr as <-. eexists. split; [reflexivity|].
  split.
  - do 5 apply agree_copy. apply agree_flag. now apply agree_copy.
  - rewrite !get_copy_other, !get_flag_other, !get_copy_other by discriminate.
    auto.
Qed.

(** X14.  The all-in-one extractor and the extractor the merge loop uses
    agree on every attribute other than [picklist_values] and [formula];
    the all-in-one extractor counts one picklist or one formula exactly
    when it stored that attribute. *)
Theorem extract_field_metadata_agrees (field_metadata : dict)
    (picklists_added formulas_added : nat) (enriched_field : dict)
    (picklists_added' formulas_added' : nat) :
  EnricherFull.extract_field_metadata field_metadata picklists_added formulas_added
  = Ok (enriched_field, picklists_added', formulas_added') ->
  exists enriched_data,
    _extract_non_picklist_formula_metadata field_metadata = Ok enriched_data
    /\ agree_outside_payload enriched_field enriched_data
    /\ get "picklist_values" enriched_data = None
    /\ get "formula" enriched_data = None
    /\ picklists_added'
       = (if mem "picklist_values" enriched_field
          then S picklists_added else picklists_added)
    /\ formulas_added'
       = (if mem "formula" enriched_field
          then S formulas_added else formulas_added).
Proof.
  unfold EnricherFull.extract_field_metadata,
    _extract_non_picklist_formula_metadata.
  cbv zeta. intros H.
  set (first := if str_in (get "type" field_metadata) ["picklist"; "multipicklist"]
                then _ else _) in H.
  assert (Hfirst : forall e1 p1, first = Ok (e1, p1) ->
             agree_outside_payload e1 []
             /\ get "formula" e1 = None
             /\ p1 = (if mem "picklist_values" e1
                      then S picklists_added else picklists_added)).
  { clear H. subst first. intros e1 p1.
    destruct (str_in _ _);
      [|intros [= <- <-]; split; [intros ? ? ?; reflexivity | split; reflexivity]].
    destruct (extract_picklist_values field_metadata) as [[vs|]|]; simpl;
      [| |discriminate]; intros [= <- <-];
      (split; [|split; reflexivity]); intros k Hp Hf; [|reflexivity].
    simpl. apply String.eqb_neq in Hp. now rewrite Hp. }
  clearbody first. destruct first as [[e1 p1]|]; simpl in H; [|discriminate].
  destruct (Hfirst e1 p1 eq_refl) as (He1 & Hf1 & Hp1). clear Hfirst.
  set (e2 := copy_if_truthy "defaultValue" "default_value" field_metadata e1) in H.
  set (cond := get_truthy "calculated" field_metadata
               && get_truthy "calculatedFormula" field_metadata) in H.
  set (e3 := if cond
             then set "formula"
                    (get_default "calculatedFormula" VNone field_metadata) e2
             else e2).
  assert (H3 : agree_outside_payload e3
                 (copy_if_truthy "defaultValue" "default_value" field_metadata [])
               /\ get "picklist_values" e3 = get "picklist_values" e1
               /\ mem "formula" e3 = cond).
  { subst e3 e2. destruct cond.
    - split; [apply agree_payload; [now right | now apply agree_copy]|].
      split; [now rewrite get_set_other, get_copy_other by discriminate|].
      unfold mem. now rewrite get_set_same.
    - split; [now apply agree_copy|].
      split; [now rewrite get_copy_other by discriminate|].
      unfold mem. now rewrite get_copy_other, Hf1 by discriminate. }
  destruct H3 as (Hagree3 & Hp3 & Hf3).
  assert (Hsplit : (if cond
                    then (set "formula"
                            (get_default "calculatedFormula" VNone field_metadata) e2,
                          S formulas_added)
                    else (e2, formulas_added))
                   = (e3, if cond then S formulas_added else formulas_added))
    by (subst e3; now destruct cond).
  rewrite Hsplit in H. clear Hsplit. clearbody e3. clear e2.
  match type of H with
  | bind ?t _ = _ => destruct t as [e'|] eqn:Htail; simpl in H; [|discriminate]
  end.
  injection H as <- <- <-.
  edestruct (shared_tail field_metadata e3 _ _ Hagree3 eq_refl)
    as (e0' & Hnon & Hag & Hpv & Hfo);
    [cbv zeta; rewrite Htail; reflexivity|].
  exists e0'. split; [exact Hnon|]. split; [exact Hag|].
  assert (Hempty : forall k, k = "picklist_values" \/ k = "formula" ->
                     get k e0' = None).
  { intros k Hk.
    destruct (extracted_fill_only field_metadata e0') as [_ Hincl].
    - unfold _extract_non_picklist_formula_metadata. cbv zeta. exact Hnon.
    - apply get_None_keys. intros Hin. apply Hincl in Hin.
      destruct (fill_key_not_payload k Hin) as (? & ? & _).
      destruct Hk; congruence. }
  split; [apply Hempty; now left|]. split; [apply Hempty; now right|].
  unfold mem in *. rewrite Hpv, Hfo, Hp3. split; [exact Hp1|].
  rewrite <- Hf3. reflexivity.
Qed.

Lemma extract_field_metadata_agrees_witness :
  let field_metadata :=
    [("name", VStr "Status"); ("type", VStr "picklist"); ("label", VStr "Status");
     ("nillable", VBool false);
     ("picklistValues", VList [VDict [("value", VStr "Open")]])] in
  exists enriched_field enriched_data,
    EnricherFull.extract_field_metadata field_metadata 0 0
    = Ok (enriched_field, 1%nat, 0%nat)
    /\ _extract_non_picklist_formula_metadata field_metadata = Ok enriched_data
    /\ get "required" enriched_field = get "required" enriched_data
    /\ get "picklist_values" enriched_data = None.
Proof.
  intros field_metadata. eexists.
  destruct (extract_field_metadata_agrees field_metadata 0 0 _ _ _ eq_refl)
    as (ed & Hnon & Hag & Hpv & _).
  exists ed. split; [reflexivity|]. split; [exact Hnon|].
  split; [apply Hag; discriminate | exact Hpv].
Defined.

End Extractors.

(* ================================================================== *)
(** * Parser: record types, validation rules and related edges *)
(* ================================================================== *)

Section ObjectParts.

Import Xml Str Parser MasterIndex.

Lemma parse_each_names (key : string) (parse : file -> option dict)
    (files : list file) :
  (forall f, content f = None -> parse f = None) ->
  (forall f root, content f = Some root ->
     exists d, parse f = Some d
               /\ get key d = Some (VStr (full_name_or_stem f root))) ->
  entry_names key (parse_each parse files) = document_names files.
Proof.
  intros Hnone Hsome. unfold entry_names, parse_each, document_names.
  induction files as [|f rest IH]; simpl; [reflexivity|].
  rewrite map_app, IH. f_equal.
  destruct (content f) as [root|] eqn:Hc.
  - destruct (Hsome f root Hc) as (d & -> & Hd). simpl. now rewrite Hd.
  - now rewrite (Hnone f Hc).
Qed.

Lemma document_names_matching (suffix : string) (dir : option (list file)) :
  Permutation (document_names (sorted_glob suffix dir))
    (document_names (matching suffix dir)).
Proof.
  unfold document_names, sorted_glob, matching. destruct dir as [files|]; [|reflexivity].
  apply Permutation_flat_map, sorted_by_Permutation.
Qed.

(** X15.  Every record type and validation rule document that parses is
    listed exactly once, named by its [fullName] or, lacking one, by the
    file stem ([api_name] for record types, [name] for validation rules);
    a document that does not parse is left out and the others are still
    listed. *)
Theorem parse_object_record_types (obj_dir : object_dir)
    (relationships : list value) :
  exists record_types validation_rules,
    get "record_types" (fst (parse_object obj_dir relationships))
    = Some (VList record_types)
    /\ get "validation_rules" (fst (parse_object obj_dir relationships))
       = Some (VList validation_rules)
    /\ Permutation (entry_names "api_name" record_types)
         (document_names (matching ".recordType-meta.xml" (recordTypes_dir obj_dir)))
    /\ Permutation (entry_names "name" validation_rules)
         (document_names
            (matching ".validationRule-meta.xml" (validationRules_dir obj_dir))).
Proof.
  unfold parse_object. cbv zeta.
  destruct (parse_fields _ _ _) as [fields rels]. cbn [fst].
  eexists. eexists.
  split; [rewrite get_set_other by discriminate; apply get_set_same|].
  split; [apply get_set_same|].
  split; (etransitivity; [|apply document_names_matching]);
    apply Permutation_refl'; apply parse_each_names.
  - intros f Hc. unfold parse_record_type. now rewrite Hc.
  - intros f root Hc. unfold parse_record_type. rewrite Hc. cbv zeta.
    eexists. split; [reflexivity|].
    now rewrite get_set_bool_other, !get_set_text_other by discriminate.
  - intros f Hc. unfold parse_validation_rule. now rewrite Hc.
  - intros f root Hc. unfold parse_validation_rule. rewrite Hc. cbv zeta.
    eexists. split; [reflexivity|].
    now rewrite !get_set_text_other, get_set_bool_other by discriminate.
Qed.

Lemma get_relationships_filter (relationships : list value) (obj_name : string) :
  Forall (fun rel => exists d, rel = VDict d) relationships ->
  _get_relationships_for_object relationships obj_name
  = Ok (filter (involves obj_name) relationships).
Proof.
  induction 1 as [|rel rest (d & ->) _ IH]; simpl; [reflexivity|].
  rewrite IH. reflexivity.
Qed.

Lemma parse_object_snd (obj_dir : object_dir) (relationships : list value) :
  snd (parse_object obj_dir relationships)
  = snd (parse_fields (sorted_glob ".field-meta.xml" (fields_dir obj_dir))
           (dir_name obj_dir) relationships).
Proof.
  unfold parse_object. cbv zeta. now destruct (parse_fields _ _ _).
Qed.

(** X16.  Every relationship edge the parser emits for an object is found
    again by the splitter's lookup of related relationships, both for the
    object the edge starts at and for the object it points to. *)
Theorem related_relationships_parsed (obj_dir : object_dir)
    (relationships : list value) :
  Forall (fun rel => exists d, rel = VDict d) relationships ->
  exists edges,
    snd (parse_object obj_dir relationships) = (relationships ++ edges)%list
    /\ forall e, In e edges ->
         exists edge target,
           e = VDict edge
           /\ get "to_object" edge = Some (VStr target)
           /\ (exists related,
                 _get_relationships_for_object
                   (snd (parse_object obj_dir relationships)) (dir_name obj_dir)
                 = Ok related
                 /\ In e related)
           /\ (exists related,
                 _get_relationships_for_object
                   (snd (parse_object obj_dir relationships)) target
                 = Ok related
                 /\ In e related).
Proof.
  intros Hdicts. rewrite parse_object_snd.
  destruct (parse_fields_edges (dir_name obj_dir)
              (sorted_glob ".field-meta.xml" (fields_dir obj_dir)) relationships)
    as (edges & Hs & He).
  exists edges. split; [exact Hs|]. rewrite Hs.
  assert (Hall : Forall (fun rel => exists d, rel = VDict d)
                   (relationships ++ edges)%list).
  { apply Forall_app. split; [assumption|]. apply Forall_forall.
    intros e Hin. destruct (He e Hin) as (edge & _ & -> & _). eauto. }
  intros e Hin.
  destruct (He e Hin) as (edge & fd & -> & _ & Hfrom & _ & Hto & _ & (target & Ht) & _).
  exists edge, target. split; [reflexivity|].
  rewrite Ht in Hto. split; [exact Hto|].
  rewrite !get_relationships_filter by assumption.
  split; eexists; (split; [reflexivity|]); apply filter_In;
    (split; [apply in_or_app; now right|]); unfold involves, names.
  - rewrite Hfrom, String.eqb_refl. reflexivity.
  - rewrite Hto, String.eqb_refl. apply orb_true_r.
Qed.

Lemma related_relationships_parsed_witness :
  exists edges related,
    snd (parse_object case_folder []) = edges
    /\ length edges = 1%nat
    /\ _get_relationships_for_object edges "Contact" = Ok related
    /\ related = edges.
Proof.
  destruct (related_relationships_parsed case_folder [] (Forall_nil _))
    as (edges & Hs & _).
  simpl in Hs. subst edges. eexists. eexists.
  split; [reflexivity|]. split; [reflexivity|]. split; reflexivity.
Defined.

End ObjectParts.

(* ================================================================== *)
(** * Categorizer: the content of a category file *)
(* ================================================================== *)

Section CategoryFiles.

Import Splitter.

Lemma In_bucket_append category obj categorized c objs :
  NoDup (map fst categorized) ->
  In (c, objs) (bucket_append category obj categorized) ->
  (c = category
   /\ ((exists objs0, In (category, objs0) categorized
                      /\ objs = (objs0 ++ [obj])%list)
       \/ (~ In category (map fst categorized) /\ objs = [obj])))
  \/ (c <> category /\ In (c, objs) categorized).
Proof.
  induction categorized as [|[c0 objs0] rest IH]; simpl; intros Hnd Hin.
  - destruct Hin as [[= <- <-]|[]]. left. split; [reflexivity|]. right. auto.
  - inversion Hnd as [|? ? Hnotin Hnd']; subst.
    destruct (String.eqb_spec category c0) as [->|Hne].
    + destruct Hin as [[= <- <-]|Hin].
      * left. split; [reflexivity|]. left. exists objs0. auto.
      * right. split; [|now right]. intros ->. apply Hnotin.
        apply in_map_iff. exists (c0, objs). auto.
    + destruct Hin as [[= <- <-]|Hin].
      * right. split; [congruence | now left].
      * destruct (IH Hnd' Hin) as [(-> & [(o & Ho & ->)|(Hno & ->)])|(Hc & Ho)].
        -- left. split; [reflexivity|]. left. exists o. auto.
        -- left. split; [reflexivity|]. right. split; [|reflexivity].
           intros [Heq|Hin']; [congruence | auto].
        -- right. auto.
Qed.

Lemma filter_snoc {A : Type} (f : A -> bool) (l : list A) (x : A) :
  filter f (l ++ [x]) = (filter f l ++ if f x then [x] else [])%list.
Proof. rewrite filter_app. reflexivity. Qed.

Lemma categorize_buckets (objects : list value) :
  forall seen categorized buckets,
    categorize CATEGORIES objects categorized = Ok buckets ->
    NoDup (map fst categorized) ->
    (forall c objs, In (c, objs) categorized ->
       objs <> [] /\ objs = filter (in_category c) seen) ->
    (forall c, ~ In c (map fst categorized) -> filter (in_category c) seen = []) ->
    forall c objs, In (c, objs) buckets ->
      objs <> [] /\ objs = filter (in_category c) (seen ++ objects)%list.
Proof.
  induction objects as [|obj rest IH];
    intros seen categorized buckets H Hnd Hin Hout; simpl in H.
  - injection H as <-. rewrite app_nil_r. exact Hin.
  - destruct obj as [| | | | |d]; try discriminate. simpl in H.
    destruct (category_of CATEGORIES (get_default "api_name" (VStr "") d))
      as [category|] eqn:Hc; simpl in H; [|discriminate].
    assert (Hcat : forall c, in_category c (VDict d) = String.eqb c category)
      by (intros c; unfold in_category; now rewrite Hc).
    intros c objs Hb.
    replace (seen ++ VDict d :: rest)%list with ((seen ++ [VDict d]) ++ rest)%list
      by now rewrite <- app_assoc.
    apply (IH (seen ++ [VDict d])%list _ _ H); [now apply bucket_append_nodup | | | exact Hb];
      clear c objs Hb.
    + intros c objs Hb. rewrite filter_snoc, Hcat.
      destruct (In_bucket_append _ _ _ _ _ Hnd Hb)
        as [(-> & [(o & Ho & ->)|(Hno & ->)])|(Hne & Ho)].
      * rewrite String.eqb_refl. destruct (Hin _ _ Ho) as [_ <-].
        split; [|reflexivity]. intros Hnil. apply app_eq_nil in Hnil.
        destruct Hnil; discriminate.
      * rewrite String.eqb_refl, (Hout _ Hno). split; [discriminate | reflexivity].
      * apply String.eqb_neq in Hne. rewrite Hne, app_nil_r. now apply Hin.
    + intros c Hno. rewrite filter_snoc, Hcat.
      assert (Hne : c <> category).
      { intros ->. apply Hno, bucket_append_keys. now left. }
      assert (Hno' : ~ In c (map fst categorized)).
      { intros Hc'. apply Hno, bucket_append_keys. now right. }
      apply String.eqb_neq in Hne. now rewrite Hne, (Hout _ Hno').
Qed.

(** X17.  A category file lists exactly the objects the rules file under
    its category, in the order of the input and as often as the input has
    them; a category with no object gets no file. *)
Theorem create_categorized_schemas_buckets (objects : list value)
    (buckets : list (string * list value)) :
  create_categorized_schemas objects = Ok buckets ->
  forall c objs, In (c, objs) buckets ->
    objs <> [] /\ objs = filter (in_category c) objects.
Proof.
  unfold create_categorized_schemas. intros H c objs Hb.
  apply (categorize_buckets objects [] [] buckets H); simpl;
    [constructor | intros ? ? [] | reflexivity | exact Hb].
Qed.

Lemma create_categorized_schemas_buckets_witness :
  exists buckets,
    create_categorized_schemas mixed_objects = Ok buckets
    /\ In ("core", [VDict [("api_name", VStr "Account")];
                    VDict [("api_name", VStr "Contact")]]) buckets
    /\ [VDict [("api_name", VStr "Account")]; VDict [("api_name", VStr "Contact")]]
       = filter (in_category "core") mixed_objects.
Proof.
  eexists. split; [reflexivity|]. split; [simpl; auto|].
  eapply (create_categorized_schemas_buckets mixed_objects _ eq_refl "core").
  simpl. auto.
Defined.

End CategoryFiles.

(* ================================================================== *)
(** * Failures: what makes a step raise, and what cannot *)
(* ================================================================== *)

Section Failures.

Import Enricher Splitter.

Lemma active_values_missing (picklist_values : list value) :
  Forall (fun pv => exists d, pv = VDict d) picklist_values ->
  Exists valueless_active picklist_values ->
  active_values picklist_values = Raise KeyError.
Proof.
  induction 1 as [|pv rest (d & ->) _ IH]; intros Hex; [inversion Hex|].
  simpl. inversion Hex as [? ? (d' & Heq & Hact & Hval)|? ? Hrest]; subst.
  - injection Heq as Heq. subst d'. rewrite Hact. unfold subscript. now rewrite Hval.
  - destruct (option_active d); [|now apply IH].
    unfold subscript. destruct (get "value" d); [|reflexivity].
    simpl. now rewrite (IH Hrest).
Qed.

(** X18.  Extraction of picklist values fails with [KeyError] as soon as
    one option that counts as active (flagged so, or carrying no flag) has
    no [value]; it does not skip the option. *)
Theorem extract_picklist_values_missing_value (field_metadata : dict)
    (picklist_values : list value) :
  str_in (get "type" field_metadata) ["picklist"; "multipicklist"] = true ->
  get "picklistValues" field_metadata = Some (VList picklist_values) ->
  Forall (fun pv => exists d, pv = VDict d) picklist_values ->
  Exists valueless_active picklist_values ->
  extract_picklist_values field_metadata = Raise KeyError.
Proof.
  intros Hty Hpv Hall Hex. unfold extract_picklist_values, get_default.
  rewrite Hty, Hpv. simpl. now rewrite (active_values_missing _ Hall Hex).
Qed.

Lemma extract_picklist_values_missing_value_witness :
  extract_picklist_values valueless_picklist = Raise KeyError.
Proof.
  apply (extract_picklist_values_missing_value valueless_picklist
           [VDict [("value", VStr "Open"); ("active", VBool true)];
            VDict [("label", VStr "Closed")]]);
    [reflexivity | reflexivity | repeat constructor; eauto |].
  apply Exists_cons_tl, Exists_cons_hd.
  exists [("label", VStr "Closed")]. repeat split.
Defined.

(** X19.  A schema document without an [object] entry is not enriched: the
    merge sees no field and then fails with [KeyError] when it stores the
    field list, before anything is written. *)
Theorem enrich_object_schema_missing_object (object_name : string)
    (is_new_structure : bool) (org_fields : org_fields_t) (now : clock)
    (folder : object_folder) (schema : dict) :
  body (schema_yaml folder) = VDict schema ->
  get "object" schema = None ->
  enrich_object_schema object_name is_new_structure org_fields now folder
  = Raise KeyError.
Proof.
  intros Hbody Hobj. unfold enrich_object_schema, merge_schema.
  rewrite Hbody. simpl. unfold get_default, subscript. rewrite Hobj. reflexivity.
Qed.

Lemma enrich_object_schema_missing_object_witness :
  enrich_object_schema "Account" true example_org_fields (fun _ => "2025-06-01")
    {| schema_yaml :=
         {| header := [];
            body := VDict [("metadata", VDict [("has_picklists", VBool true)])] |};
       picklists_yaml := None;
       formulas_yaml := None |}
  = Raise KeyError.
Proof.
  eapply enrich_object_schema_missing_object; reflexivity.
Defined.

Lemma extract_loop_total (obj_name : string) (fields : list value) :
  Forall extractable fields ->
  forall p0 f0, exists p f core,
    extract_loop obj_name fields p0 f0 = Ok (p, f, core).
Proof.
  induction 1 as [|fv rest (d & -> & Hd) _ IH]; intros p0 f0; simpl; [eauto|].
  unfold extract_field. simpl. unfold extract_attr.
  destruct (present "picklist_values" d) eqn:Hp;
    destruct (present "formula" d) eqn:Hf; simpl in Hd;
    try (destruct (Hd eq_refl) as (k & ->)); simpl;
    match goal with
    | |- context [extract_loop obj_name rest ?p ?f] =>
        destruct (IH p f) as (p' & f' & core' & ->)
    end; simpl; eauto.
Qed.

(** X20.  Partitioning an object succeeds exactly when every field is a
    dictionary and every field that has picklist values or a formula to
    store has a name that can key the payload (anything but a list or a
    dictionary). *)
Theorem split_object_succeeds (fields : list value) (obj_name : string) :
  (exists part, split_object fields obj_name = Ok part)
  <-> Forall extractable fields.
Proof.
  unfold split_object, _extract_field_metadata. split.
  - intros (part & H).
    destruct (extract_loop obj_name fields [] []) as [[[p f] core]|] eqn:Hloop;
      simpl in H; [|discriminate].
    now destruct (extract_loop_spec _ _ _ _ _ _ _ Hloop) as (_ & Hall & _).
  - intros Hall.
    destruct (extract_loop_total obj_name fields Hall [] [])
      as (p & f & core & ->).
    simpl. eauto.
Qed.

Lemma split_object_succeeds_witness :
  exists part, split_object twice_named "Case" = Ok part.
Proof.
  apply (proj2 (split_object_succeeds twice_named "Case")).
  unfold twice_named.
  repeat (apply Forall_cons;
          [eexists; split; [reflexivity|]; intros _; eexists; reflexivity|]).
  apply Forall_nil.
Defined.

End Failures.
